(** * HiPages job-posting automation: session lifecycle and form stages

    A shallow embedding of [hipages-automation.ts] (both listings of the
    file that the repository holds), of [types.ts] and of the HTTP
    handlers of [index.ts], with the browser engine, the clock, the
    filesystem and the status callback as an explicit world that answers
    every call the code makes. A call that awaits is suspended there;
    what the other calls do in the meantime is a parameter of the run. *)

From Stdlib Require Import Ascii String.
From stdpp Require Import gmap strings list pretty.


Local Open Scope string_scope.
Local Open Scope list_scope.

#[local] Set Warnings "-clear-no-such-hyp".

(** ** types.ts *)

Inductive Timing :=
| asap | within_2_weeks | within_1_month | within_3_months | flexible.

Record Contact := {
  c_name : string;
  c_email : string;
  c_phone : string
}.

Record Photos := {
  original : option string;
  visualization : option string
}.

Record HiPagesJobRequest := {
  categorySlug : string;
  categoryName : string;
  postcode : string;
  suburb : option string;
  description : string;
  propertyType : string;
  timing : Timing;
  contact : Contact;
  photos : option Photos
}.

Inductive StatusName :=
| pending | filling_form | uploading_photos | awaiting_otp
| submitting | completed | failed.

Global Instance StatusName_eq_dec : EqDecision StatusName.
Proof. solve_decision. Defined.

Record HiPagesJobStatus := {
  js_jobId : string;
  js_status : StatusName;
  js_message : string;
  js_hipagesJobId : option string;
  js_hipagesJobUrl : option string;
  js_error : option string
}.

Global Instance HiPagesJobStatus_eq_dec : EqDecision HiPagesJobStatus.
Proof. solve_decision. Defined.

(** A status object literal that sets only [jobId], [status], [message]. *)
Definition mkStatus (jobId : string) (st : StatusName) (msg : string) : HiPagesJobStatus :=
  {| js_jobId := jobId; js_status := st; js_message := msg;
     js_hipagesJobId := None; js_hipagesJobUrl := None; js_error := None |}.

(** ** JavaScript values the code inspects *)

(** What a [catch (error)] clause receives: an [Error] object with its
    message, or any other thrown value. *)
Inductive Thrown :=
| ErrorObj (msg : string)
| NonError.

(** [error instanceof Error ? error.message : 'Unknown error'] *)
Definition errorText (e : Thrown) : string :=
  match e with
  | ErrorObj m => m
  | NonError => "Unknown error"
  end.

(** Truthiness of a string: every string but the empty one. *)
Definition truthy (s : string) : bool :=
  match s with
  | EmptyString => false
  | String _ _ => true
  end.

(** Truthiness of an optional string property ([undefined] is falsy). *)
Definition truthy_opt (o : option string) : bool :=
  match o with
  | Some s => truthy s
  | None => false
  end.

(** [s.startsWith(p)] *)
Definition startsWith (s p : string) : bool := String.prefix p s.

(** [s.includes(sub)] *)
Fixpoint includes (s sub : string) : bool :=
  String.prefix sub s ||
  match s with
  | EmptyString => false
  | String _ r => includes r sub
  end.

(** [toLowerCase] on one code unit of the Latin-1 range. *)
Definition lower_unit (c : ascii) : ascii :=
  let n := nat_of_ascii c in
  if ((65 <=? n) && (n <=? 90))%nat then ascii_of_nat (n + 32)
  else if ((192 <=? n) && (n <=? 222) && negb (n =? 215))%nat then ascii_of_nat (n + 32)
  else c.

Fixpoint toLowerCase (s : string) : string :=
  match s with
  | EmptyString => EmptyString
  | String c r => String (lower_unit c) (toLowerCase r)
  end.

(** *** The three regular expressions of [submitOtp]

    Strings are sequences of code units; the matchers below scan a list of
    code units from the left, as [String.prototype.match] does for a
    regular expression without the [g] flag, and give capture group 1 of
    the leftmost match. None of the three expressions can gain from
    backtracking: what follows each repetition is disjoint from what the
    repetition accepts. *)

Definition is_digit (c : ascii) : bool :=
  let n := nat_of_ascii c in ((48 <=? n) && (n <=? 57))%nat.

(** [\s] on the code units a [string] holds: TAB, LF, VT, FF, CR, space, NBSP. *)
Definition is_space (c : ascii) : bool :=
  let n := nat_of_ascii c in
  (((9 <=? n) && (n <=? 13)) || (n =? 32) || (n =? 160))%nat.

(** A letter matched under the [i] flag. *)
Definition eq_ci (letter c : ascii) : bool :=
  bool_decide (lower_unit c = letter) && (nat_of_ascii c <? 128)%nat.

(** The longest run of units satisfying [p] at the head of [l], and the rest. *)
Fixpoint span (p : ascii -> bool) (l : list ascii) : list ascii * list ascii :=
  match l with
  | [] => ([], [])
  | c :: r => if p c then let '(a, b) := span p r in (c :: a, b) else ([], l)
  end.

(** [(\d+)] at the head of [l]. *)
Definition digits1 (l : list ascii) : option string :=
  match span is_digit l with
  | ([], _) => None
  | (d, _) => Some (string_of_list_ascii d)
  end.

(** [job[_-]?id] at the head of [l], under the [i] flag; gives the rest. *)
Definition job_id_ci (l : list ascii) : option (list ascii) :=
  match l with
  | j :: o :: b :: r =>
      if eq_ci "j" j && eq_ci "o" o && eq_ci "b" b then
        let r' := match r with
                  | c :: r1 =>
                      if bool_decide (c = "_"%char) || bool_decide (c = "-"%char)
                      then r1 else r
                  | [] => r
                  end in
        match r' with
        | i :: d :: r2 => if eq_ci "i" i && eq_ci "d" d then Some r2 else None
        | _ => None
        end
      else None
  | _ => None
  end.

(** [/job[_-]?id[=\/](\d+)/i] anchored at the head of [l]. *)
Definition url_v1_here (l : list ascii) : option string :=
  match job_id_ci l with
  | Some (c :: r) =>
      if bool_decide (c = "="%char) || bool_decide (c = "/"%char)
      then digits1 r else None
  | _ => None
  end.

(** The double-quote code unit. *)
Definition dquote : ascii := ascii_of_nat 34.

(** [/job[_-]?id[Q\s:]+(\d+)/i] anchored at the head of [l], where Q
    stands for the double-quote unit of the class. *)
Definition content_v1_here (l : list ascii) : option string :=
  match job_id_ci l with
  | Some r =>
      match span (fun c => bool_decide (c = dquote) || is_space c
                           || bool_decide (c = ":"%char)) r with
      | ([], _) => None
      | (_, r') => digits1 r'
      end
  | None => None
  end.

(** [/job\/(\d+)/] anchored at the head of [l]. *)
Definition url_v2_here (l : list ascii) : option string :=
  match l with
  | j :: o :: b :: sl :: r =>
      if bool_decide (j = "j"%char) && bool_decide (o = "o"%char)
         && bool_decide (b = "b"%char) && bool_decide (sl = "/"%char)
      then digits1 r else None
  | _ => None
  end.

(** Leftmost match: try every start position in turn. *)
Fixpoint search (here : list ascii -> option string) (l : list ascii) : option string :=
  match here l with
  | Some g => Some g
  | None =>
      match l with
      | [] => None
      | _ :: r => search here r
      end
  end.

Definition match_group1 (here : list ascii -> option string) (s : string) : option string :=
  search here (list_ascii_of_string s).

(** ** The world outside the module

    Browser, page and element handles are opaque references. Every call
    the code makes on the browser engine, the clock or the filesystem is
    appended to a trace; the answer to a call is what the world gives at
    the position the call takes in the trace. Quantifying over worlds
    covers every behaviour of the page, of the clock and of the
    filesystem: [w_write] and [w_unlink] say how a write and a removal
    end, [w_tmp] is [path.join(os.tmpdir(), name)]. *)

Definition Browser := nat.
Definition Page := nat.
Definition ElementHandle := nat.

Inductive Call :=
| Launch
| NewPage (b : Browser)
| SetViewport (p : Page)
| SetUserAgent (p : Page)
| Goto (p : Page) (url : string)
| WaitForSelector (p : Page) (sel : string)
| WaitForNavigation (p : Page)
| Query (p : Page) (sel : string)
| QueryAll (p : Page) (sel : string)
| TextContent (p : Page) (e : ElementHandle)
| Click (e : ElementHandle) (clickCount : nat)
| TypeText (e : ElementHandle) (text : string) (delay : nat)
| Press (p : Page) (key : string)
| UploadFile (e : ElementHandle) (paths : list string)
| Url (p : Page)
| Content (p : Page)
| Close (b : Browser)
| Delay (ms : nat)
| Now
| WriteFileSync (path : string)
| UnlinkSync (path : string).

Global Instance Call_eq_dec : EqDecision Call.
Proof. solve_decision. Defined.

(** How an awaited call ends: it resolves with a value, rejects with a
    thrown value, or has not settled (the run is suspended there). *)
Inductive Outcome (A : Type) :=
| Return (a : A)
| Throw (e : Thrown)
| Pending.

Arguments Return {A} a.
Arguments Throw {A} e.
Arguments Pending {A}.

(** How [fs.writeFileSync] ends: the file is written, or the call throws,
    having created the file or not. *)
Inductive WriteAnswer :=
| Written
| WriteFailed (e : Thrown) (created : bool).

Record World := {
  w_unit : nat -> Outcome unit;
  w_handle : nat -> Outcome nat;
  w_elem : nat -> Outcome (option ElementHandle);
  w_elems : nat -> Outcome (list ElementHandle);
  w_text : nat -> Outcome string;
  w_url : nat -> string;
  w_now : nat -> N;
  w_write : nat -> WriteAnswer;
  w_unlink : nat -> option Thrown;
  w_tmp : string -> string
}.

(** [onStatusUpdate]: the statuses it is handed are recorded; the function
    says whether the callback throws on a status. *)
Definition Callback := HiPagesJobStatus -> option Thrown.

Section Runtime.

(** The session record differs between the two listings. *)
Context {Session : Type}.

Record State := {
  activeSessions : gmap string Session;
  trace : list Call;
  updates : list HiPagesJobStatus;
  files : gset string
}.

Definition set_sessions (m : gmap string Session) (s : State) : State :=
  {| activeSessions := m; trace := trace s; updates := updates s; files := files s |}.

Definition add_call (c : Call) (s : State) : State :=
  {| activeSessions := activeSessions s; trace := trace s ++ [c];
     updates := updates s; files := files s |}.

Definition add_update (u : HiPagesJobStatus) (s : State) : State :=
  {| activeSessions := activeSessions s; trace := trace s;
     updates := updates s ++ [u]; files := files s |}.

Definition set_files (f : gset string) (s : State) : State :=
  {| activeSessions := activeSessions s; trace := trace s;
     updates := updates s; files := f |}.

(** JavaScript runs one call at a time, but a call that reaches an
    [await] is suspended there, and other calls of the module may run
    before it resumes: a [cancelSession], a [submitOtp], another
    [startJobPosting]. [resume] gives the state in which a suspended call
    resumes, from the state in which it was suspended. *)
Class Resumption := resume : State -> State.

(** No other call is in flight: the call resumes where it was suspended.
    A statement that names no other instance is about such a call. *)
#[global] Instance alone : Resumption := fun s => s.

(** Other calls are in flight. Of what they do, this call sees the changes
    to [activeSessions]: while it awaits the call that is number [n] of
    its trace, they turn the session map [m] into [others n m]. *)
Definition among (others : nat -> gmap string Session -> gmap string Session) : Resumption :=
  fun s => set_sessions (others (length (trace s)) (activeSessions s)) s.

(** Computations: state passing with the three ways to end. *)
Definition M (A : Type) : Type := State -> Outcome A * State.

Definition ret {A} (a : A) : M A := fun s => (Return a, s).

Definition bind {A B} (m : M A) (f : A -> M B) : M B :=
  fun s =>
    match m s with
    | (Return a, s') => f a s'
    | (Throw e, s') => (Throw e, s')
    | (Pending, s') => (Pending, s')
    end.

(** [try { m } catch (error) { h error }] *)
Definition try_catch {A} (m : M A) (h : Thrown -> M A) : M A :=
  fun s =>
    match m s with
    | (Throw e, s') => h e s'
    | r => r
    end.

(** [try { x = m1; m2 x } catch (error) { h x error }] for a variable [x]
    declared before the [try] with initial value [null]. *)
Definition try_assign {A B} (m1 : M A) (m2 : A -> M B) (h : option A -> Thrown -> M B) : M B :=
  fun s =>
    match m1 s with
    | (Return a, s1) => try_catch (m2 a) (h (Some a)) s1
    | (Throw e, s1) => h None e s1
    | (Pending, s1) => (Pending, s1)
    end.

(** [await m.catch(() => {})] and [try { m } catch {}]. *)
Definition swallow (m : M unit) : M unit :=
  fun s =>
    match m s with
    | (Throw _, s') => (Return tt, s')
    | r => r
    end.

(** A [try] block that updates a local variable of type [L] declared
    before it, as a list of steps, each of which writes the variable as
    its last action. The value the variable has when the block is left,
    normally or not, is given with the outcome. *)
Fixpoint try_steps {L} (steps : list (L -> M L)) (l : L) (s : State) : Outcome unit * L * State :=
  match steps with
  | [] => (Return tt, l, s)
  | st :: rest =>
      match st l s with
      | (Return l', s') => try_steps rest l' s'
      | (Throw e, s') => (Throw e, l, s')
      | (Pending, s') => (Pending, l, s')
      end
  end.

(** [try { steps } finally { fin local }] *)
Definition try_finally {L} (init : L) (steps : list (L -> M L)) (fin : L -> M unit) : M unit :=
  fun s =>
    match try_steps steps init s with
    | (Pending, _, s') => (Pending, s')
    | (o, l, s') =>
        match fin l s' with
        | (Return _, s'') => (o, s'')
        | (Throw e, s'') => (Throw e, s'')
        | (Pending, s'') => (Pending, s'')
        end
    end.

Section Calls.

Variable w : World.
Context {R : Resumption}.

(** An awaited call on the outside world: recorded, and answered by
    position. The caller is suspended until the answer is there, and finds
    the state as [resume] gives it; it stays suspended when the answer is
    [Pending]. *)
Definition call {A} (c : Call) (answer : World -> nat -> Outcome A) : M A :=
  fun s => (answer w (length (trace s)), resume (add_call c s)).

(** [await delay(ms)]: a timer promise. It always resolves; until it does
    the caller is suspended as at any other awaited call. *)
Definition delay (ms : nat) : M unit :=
  fun s => (Return tt, resume (add_call (Delay ms) s)).

Definition launch : M Browser := call Launch w_handle.
Definition newPage (b : Browser) : M Page := call (NewPage b) w_handle.
Definition setViewport (p : Page) : M unit := call (SetViewport p) w_unit.
Definition setUserAgent (p : Page) : M unit := call (SetUserAgent p) w_unit.
Definition goto (p : Page) (url : string) : M unit := call (Goto p url) w_unit.
Definition waitForSelector (p : Page) (sel : string) : M unit := call (WaitForSelector p sel) w_unit.
Definition waitForNavigation (p : Page) : M unit := call (WaitForNavigation p) w_unit.
Definition query (p : Page) (sel : string) : M (option ElementHandle) := call (Query p sel) w_elem.
Definition queryAll (p : Page) (sel : string) : M (list ElementHandle) := call (QueryAll p sel) w_elems.
Definition click (e : ElementHandle) (clickCount : nat) : M unit := call (Click e clickCount) w_unit.
Definition typeText (e : ElementHandle) (text : string) (d : nat) : M unit := call (TypeText e text d) w_unit.
Definition press (p : Page) (key : string) : M unit := call (Press p key) w_unit.
Definition uploadFile (e : ElementHandle) (paths : list string) : M unit := call (UploadFile e paths) w_unit.
Definition content (p : Page) : M string := call (Content p) w_text.
Definition close (b : Browser) : M unit := call (Close b) w_unit.

(** [page.evaluate(el => el.textContent?.toLowerCase() || '', e)]: the
    string the page computes comes back as the answer. *)
Definition textContentLower (p : Page) (e : ElementHandle) : M string :=
  call (TextContent p e) w_text.

(** [page.url()] is synchronous and does not throw. *)
Definition url (p : Page) : M string :=
  fun s => (Return (w_url w (length (trace s))), add_call (Url p) s).

(** [Date.now()] *)
Definition now : M N :=
  fun s => (Return (w_now w (length (trace s))), add_call Now s).

(** [path.join(os.tmpdir(), name)]: the world knows the temporary
    directory and how the platform joins paths. *)
Definition tmpPath (name : string) : string := w_tmp w name.

(** [files] are the temporary files of this process that exist. Both
    calls are synchronous. [fs.writeFileSync] writes the file or throws,
    and a write that throws may have created the file already.
    [fs.unlinkSync] throws when there is no such file, and otherwise
    removes the file or throws and leaves it. *)
Definition writeFileSync (path : string) : M unit :=
  fun s =>
    match w_write w (length (trace s)) with
    | Written =>
        (Return tt, set_files ({[path]} ∪ files s) (add_call (WriteFileSync path) s))
    | WriteFailed e created =>
        (Throw e,
         set_files (if created then {[path]} ∪ files s else files s)
           (add_call (WriteFileSync path) s))
    end.

Definition unlinkSync (path : string) : M unit :=
  fun s =>
    if bool_decide (path ∈ files s)
    then match w_unlink w (length (trace s)) with
         | None =>
             (Return tt, set_files (files s ∖ {[path]}) (add_call (UnlinkSync path) s))
         | Some e => (Throw e, add_call (UnlinkSync path) s)
         end
    else (Throw (ErrorObj "ENOENT: no such file or directory"), add_call (UnlinkSync path) s).

(** A call of [onStatusUpdate]. *)
Definition notify (onStatusUpdate : Callback) (u : HiPagesJobStatus) : M unit :=
  fun s =>
    (match onStatusUpdate u with
     | None => Return tt
     | Some e => Throw e
     end, add_update u s).

(** Reads and writes of the module-level [activeSessions] map. *)
Definition sessions_get (jobId : string) : M (option Session) :=
  fun s => (Return (activeSessions s !! jobId), s).

Definition sessions_set (jobId : string) (v : Session) : M unit :=
  fun s => (Return tt, set_sessions (<[jobId := v]> (activeSessions s)) s).

Definition sessions_delete (jobId : string) : M unit :=
  fun s => (Return tt, set_sessions (delete jobId (activeSessions s)) s).

End Calls.

End Runtime.

Arguments State : clear implicits.
Arguments M : clear implicits.
Arguments Resumption : clear implicits.
Arguments resume {_ _} _ /.
Arguments alone {_} _ /.

Declare Scope js_scope.
Delimit Scope js_scope with js.
Notation "x ← y ; z" := (bind y (fun x => z))
  (at level 20, y at level 100, z at level 200, only parsing) : js_scope.
Notation "x ;; z" := (bind x (fun _ => z))
  (at level 100, z at level 200, only parsing, right associativity) : js_scope.

(** [for (const x of l) { body x }] *)
Fixpoint for_each {Session A} (l : list A) (body : A -> M Session unit) : M Session unit :=
  match l with
  | [] => ret tt
  | x :: r => bind (body x) (fun _ => for_each r body)
  end.

(** In the selector literals below the single quote stands for the double
    quote of the source. *)

(** ** First listing (lines 1-367 of hipages-automation.ts) *)

Module V1.

Record SessionData := {
  browser : Browser;
  page : Page;
  jobData : HiPagesJobRequest;
  status : HiPagesJobStatus
}.

(** [session.status = v] *)
Definition with_status (v : HiPagesJobStatus) (session : SessionData) : SessionData :=
  {| browser := browser session; page := page session;
     jobData := jobData session; status := v |}.

Section Automation.

Variable w : World.
Context {R : Resumption SessionData}.

Local Open Scope js_scope.

Definition fillCategory (page : Page) (categoryName : string) : M SessionData unit :=
  searchInput ← query w page "input[type='search'], input[placeholder*='search'], input[placeholder*='trade']";
  match searchInput with
  | Some searchInput =>
      typeText w searchInput categoryName 50;;
      delay 1000;;
      suggestion ← query w page "[role='option'], .suggestion, .autocomplete-item";
      match suggestion with
      | Some suggestion => click w suggestion 1
      | None => press w page "Enter"
      end
  | None => ret tt
  end;;
  delay 500.

Definition fillLocation (page : Page) (postcode : string) : M SessionData unit :=
  locationInput ← query w page "input[placeholder*='postcode'], input[placeholder*='suburb'], input[name*='location']";
  match locationInput with
  | Some locationInput =>
      typeText w locationInput postcode 50;;
      delay 1000;;
      suggestion ← query w page "[role='option'], .suggestion, .autocomplete-item";
      match suggestion with
      | Some suggestion => click w suggestion 1
      | None => ret tt
      end
  | None => ret tt
  end;;
  delay 500.

Definition clickGetQuotes (page : Page) : M SessionData unit :=
  button ← query w page "button[type='submit'], button:has-text('Get Quotes'), button:has-text('Continue')";
  match button with
  | Some button =>
      click w button 1;;
      swallow (waitForNavigation w page)
  | None => ret tt
  end.

Definition answerFormQuestions (page : Page) (jobData : HiPagesJobRequest) : M SessionData unit :=
  delay 1000;;
  radioButtons ← queryAll w page "input[type='radio']";
  for_each (take 5 radioButtons)
    (fun radio => swallow (click w radio 1;; delay 300));;
  continueButtons ← queryAll w page "button:has-text('Continue'), button:has-text('Next')";
  for_each continueButtons
    (fun btn => swallow (click w btn 1;; delay 1000)).

Definition fillDescription (page : Page) (description : string) : M SessionData unit :=
  textarea ← query w page "textarea, input[type='text'][name*='description']";
  match textarea with
  | Some textarea => typeText w textarea description 20
  | None => ret tt
  end;;
  delay 500.

(** [photos.x && photos.x.startsWith('data:')] *)
Definition isDataUri (o : option string) : bool :=
  match o with
  | Some s => truthy s && startsWith s "data:"
  | None => false
  end.

Definition uploadPhotos (page : Page) (photos : Photos) : M SessionData unit :=
  fileInput ← query w page "input[type='file']";
  match fileInput with
  | None => ret tt
  | Some fileInput =>
      try_finally ([] : list string)
        [ (fun tempFiles : list string =>
             if isDataUri (original photos) then
               t ← now w;
               let tempPath := tmpPath w ("hipages_original_" +:+ pretty t +:+ ".jpg") in
               writeFileSync w tempPath;;
               ret (tempFiles ++ [tempPath])%list
             else ret tempFiles);
          (fun tempFiles : list string =>
             if isDataUri (visualization photos) then
               t ← now w;
               let tempPath := tmpPath w ("hipages_viz_" +:+ pretty t +:+ ".jpg") in
               writeFileSync w tempPath;;
               ret (tempFiles ++ [tempPath])%list
             else ret tempFiles);
          (fun tempFiles : list string =>
             if (0 <? List.length tempFiles)%nat then
               uploadFile w fileInput tempFiles;;
               delay 2000;;
               ret tempFiles
             else ret tempFiles) ]
        (fun tempFiles => for_each tempFiles (fun f => swallow (unlinkSync w f)))
  end.

Definition fillContactDetails (page : Page) (contact : Contact) : M SessionData unit :=
  nameInput ← query w page "input[name*='name'], input[placeholder*='name']";
  match nameInput with
  | Some nameInput => typeText w nameInput (c_name contact) 30
  | None => ret tt
  end;;
  emailInput ← query w page "input[type='email'], input[name*='email']";
  match emailInput with
  | Some emailInput => typeText w emailInput (c_email contact) 30
  | None => ret tt
  end;;
  phoneInput ← query w page "input[type='tel'], input[name*='phone'], input[name*='mobile']";
  match phoneInput with
  | Some phoneInput => typeText w phoneInput (c_phone contact) 30
  | None => ret tt
  end;;
  delay 500;;
  submitButton ← query w page "button[type='submit'], button:has-text('Submit'), button:has-text('Get Quotes')";
  match submitButton with
  | Some submitButton => click w submitButton 1
  | None => ret tt
  end;;
  delay 3000.

(** [jobData.photos?.original || jobData.photos?.visualization] *)
Definition wantsPhotos (jobData : HiPagesJobRequest) : option Photos :=
  match photos jobData with
  | Some p => if truthy_opt (original p) || truthy_opt (visualization p) then Some p else None
  | None => None
  end.

Definition startJobPosting (jobId : string) (jobData : HiPagesJobRequest)
    (onStatusUpdate : Callback) : M SessionData unit :=
  try_assign
    (notify onStatusUpdate (mkStatus jobId pending "Launching browser...");;
     launch w)
    (fun browser =>
       page ← newPage w browser;
       setViewport w page;;
       sessions_set jobId
         {| browser := browser; page := page; jobData := jobData;
            status := mkStatus jobId filling_form "Starting..." |};;
       notify onStatusUpdate (mkStatus jobId filling_form "Navigating to HiPages...");;
       goto w page "https://hipages.com.au/get-quotes";;
       notify onStatusUpdate (mkStatus jobId filling_form "Selecting category...");;
       fillCategory page (categoryName jobData);;
       notify onStatusUpdate (mkStatus jobId filling_form "Entering location...");;
       fillLocation page (postcode jobData);;
       notify onStatusUpdate (mkStatus jobId filling_form "Getting quotes form...");;
       clickGetQuotes page;;
       delay 2000;;
       notify onStatusUpdate (mkStatus jobId filling_form "Answering questions...");;
       answerFormQuestions page jobData;;
       notify onStatusUpdate (mkStatus jobId filling_form "Adding job description...");;
       fillDescription page (description jobData);;
       match wantsPhotos jobData with
       | Some p =>
           notify onStatusUpdate (mkStatus jobId uploading_photos "Uploading photos...");;
           uploadPhotos page p
       | None => ret tt
       end;;
       notify onStatusUpdate (mkStatus jobId filling_form "Entering contact details...");;
       fillContactDetails page (contact jobData);;
       notify onStatusUpdate
         (mkStatus jobId awaiting_otp "Please enter the verification code sent to your phone");;
       session ← sessions_get jobId;
       match session with
       | Some session =>
           sessions_set jobId
             (with_status (mkStatus jobId awaiting_otp "Waiting for OTP verification") session)
       | None => ret tt
       end)
    (fun browser error =>
       match browser with
       | Some browser => swallow (close w browser)
       | None => ret tt
       end;;
       sessions_delete jobId;;
       notify onStatusUpdate
         {| js_jobId := jobId; js_status := failed; js_message := "Job posting failed";
            js_hipagesJobId := None; js_hipagesJobUrl := None;
            js_error := Some (errorText error) |}).

(** [currentUrl.match(...) || pageContent.match(...)], capture group 1. *)
Definition jobIdMatch (currentUrl pageContent : string) : option string :=
  match match_group1 url_v1_here currentUrl with
  | Some g => Some g
  | None => match_group1 content_v1_here pageContent
  end.

Definition submitOtp (jobId otp : string) : M SessionData HiPagesJobStatus :=
  session ← sessions_get jobId;
  match session with
  | None =>
      ret {| js_jobId := jobId; js_status := failed; js_message := "Session not found";
             js_hipagesJobId := None; js_hipagesJobUrl := None;
             js_error := Some "No active session for this job" |}
  | Some session =>
      try_catch
        (otpInput ← query w (page session) "input[type='text'][maxlength='6'], input[name='otp'], input[placeholder*='code']";
         match otpInput with
         | Some otpInput => typeText w otpInput otp 100
         | None => ret tt
         end;;
         verifyButton ← query w (page session) "button[type='submit'], button:has-text('Verify'), button:has-text('Submit')";
         match verifyButton with
         | Some verifyButton => click w verifyButton 1
         | None => ret tt
         end;;
         delay 3000;;
         currentUrl ← url w (page session);
         pageContent ← content w (page session);
         let hipagesJobId := jobIdMatch currentUrl pageContent in
         let hipagesJobUrl :=
           match hipagesJobId with
           | Some id => Some ("https://hipages.com.au/jobs/" +:+ id)
           | None => None
           end in
         close w (browser session);;
         sessions_delete jobId;;
         ret {| js_jobId := jobId; js_status := completed;
                js_message := "Job posted successfully!";
                js_hipagesJobId := hipagesJobId; js_hipagesJobUrl := hipagesJobUrl;
                js_error := None |})
        (fun error =>
           swallow (close w (browser session));;
           sessions_delete jobId;;
           ret {| js_jobId := jobId; js_status := failed;
                  js_message := "Failed to verify OTP";
                  js_hipagesJobId := None; js_hipagesJobUrl := None;
                  js_error := Some (errorText error) |})
  end.

Definition cancelSession (jobId : string) : M SessionData unit :=
  session ← sessions_get jobId;
  match session with
  | Some session =>
      swallow (close w (browser session));;
      sessions_delete jobId
  | None => ret tt
  end.

End Automation.

(** [session?.status || null]; [None] is the miss. *)
Definition getJobStatus (jobId : string) (s : State SessionData) : option HiPagesJobStatus :=
  match activeSessions s !! jobId with
  | Some session => Some (status session)
  | None => None
  end.

End V1.

(** ** Second listing (lines 369-742 of hipages-automation.ts) *)

Module V2.

Record SessionData := {
  browser : Browser;
  page : Page;
  status : HiPagesJobStatus
}.

(** [session.status = v] *)
Definition with_status (v : HiPagesJobStatus) (session : SessionData) : SessionData :=
  {| browser := browser session; page := page session; status := v |}.

(** The [Partial<HiPagesJobStatus>] literals handed to [updateStatus] set
    [status], [message] or both. *)
Record PartialStatus := {
  p_status : option StatusName;
  p_message : option string
}.

(** [{ ...currentStatus, ...status }] *)
Definition spread (currentStatus : HiPagesJobStatus) (p : PartialStatus) : HiPagesJobStatus :=
  {| js_jobId := js_jobId currentStatus;
     js_status := default (js_status currentStatus) (p_status p);
     js_message := default (js_message currentStatus) (p_message p);
     js_hipagesJobId := js_hipagesJobId currentStatus;
     js_hipagesJobUrl := js_hipagesJobUrl currentStatus;
     js_error := js_error currentStatus |}.

Section Automation.

Variable w : World.
Context {R : Resumption SessionData}.

Local Open Scope js_scope.

(** The inner loop of [findAndClickButton]: the first button whose text
    includes [text] is clicked. *)
Fixpoint clickFirstMatching (page : Page) (text : string) (buttons : list ElementHandle)
    : M SessionData bool :=
  match buttons with
  | [] => ret false
  | button :: rest =>
      buttonText ← textContentLower w page button;
      if includes buttonText (toLowerCase text)
      then click w button 1;; ret true
      else clickFirstMatching page text rest
  end.

Fixpoint findAndClickButton (page : Page) (texts : list string) : M SessionData bool :=
  match texts with
  | [] => ret false
  | text :: rest =>
      buttons ← queryAll w page "button, input[type='submit'], a";
      clicked ← clickFirstMatching page text buttons;
      if clicked then ret true else findAndClickButton page rest
  end.

Definition fillCategory (page : Page) (categoryName : string) : M SessionData unit :=
  inputs ← queryAll w page "input";
  match inputs with
  | categoryInput :: _ =>
      click w categoryInput 1;;
      delay 300;;
      typeText w categoryInput categoryName 100;;
      delay 1500;;
      suggestion ← query w page "[role='option'], [role='listbox'] li, ul[class*='suggestion'] li, ul[class*='autocomplete'] li";
      match suggestion with
      | Some suggestion => click w suggestion 1
      | None => press w page "Enter"
      end;;
      delay 500
  | [] => ret tt
  end.

Definition fillLocation (page : Page) (postcode : string) : M SessionData unit :=
  locationInput ← query w page "input[placeholder*='postcode'], input[placeholder*='suburb'], input[placeholder*='location'], input[name*='location'], input[name*='postcode']";
  match locationInput with
  | Some locationInput =>
      click w locationInput 1;;
      delay 300;;
      typeText w locationInput postcode 100;;
      delay 1500;;
      suggestion ← query w page "[role='option'], [role='listbox'] li, ul[class*='suggestion'] li";
      match suggestion with
      | Some suggestion => click w suggestion 1
      | None => press w page "Enter"
      end;;
      delay 500
  | None => ret tt
  end.

Definition clickGetQuotes (page : Page) : M SessionData unit :=
  clicked ← findAndClickButton page ["get quotes"; "get quote"; "continue"; "next"; "go"];
  if clicked then swallow (waitForNavigation w page) else ret tt.

(** The body of [for (let i = 0; i < 10; i++)], by the number of
    iterations that remain; [break] ends the recursion. *)
Fixpoint questionLoop (remaining : nat) (page : Page) : M SessionData unit :=
  match remaining with
  | O => ret tt
  | S k =>
      textarea ← query w page "textarea";
      match textarea with
      | Some _ => ret tt
      | None =>
          radioButtons ← queryAll w page "input[type='radio']:not(:checked)";
          match radioButtons with
          | first :: _ => click w first 1;; delay 500
          | [] => ret tt
          end;;
          clicked ← findAndClickButton page ["next"; "continue"];
          if clicked then delay 1000;; questionLoop k page else ret tt
      end
  end.

Definition answerFormQuestions (page : Page) : M SessionData unit :=
  delay 1000;;
  questionLoop 10 page.

Definition fillDescription (page : Page) (description : string) : M SessionData unit :=
  textarea ← query w page "textarea";
  match textarea with
  | Some textarea =>
      click w textarea 1;;
      typeText w textarea description 20;;
      delay 500
  | None => ret tt
  end.

Definition uploadPhotos (page : Page) (photos : Photos) : M SessionData unit :=
  fileInput ← query w page "input[type='file']";
  match fileInput with
  | None => ret tt
  | Some fileInput =>
      try_finally ([] : list string)
        [ (fun filesToUpload : list string =>
             if truthy_opt (original photos) then
               t ← now w;
               let originalPath := tmpPath w ("hipages_original_" +:+ pretty t +:+ ".jpg") in
               writeFileSync w originalPath;;
               ret (filesToUpload ++ [originalPath])%list
             else ret filesToUpload);
          (fun filesToUpload : list string =>
             if truthy_opt (visualization photos) then
               t ← now w;
               let vizPath := tmpPath w ("hipages_viz_" +:+ pretty t +:+ ".jpg") in
               writeFileSync w vizPath;;
               ret (filesToUpload ++ [vizPath])%list
             else ret filesToUpload);
          (fun filesToUpload : list string =>
             if (0 <? List.length filesToUpload)%nat then
               uploadFile w fileInput filesToUpload;;
               delay 2000;;
               ret filesToUpload
             else ret filesToUpload) ]
        (fun filesToUpload => for_each filesToUpload (fun file => swallow (unlinkSync w file)))
  end.

Definition fillContactDetails (page : Page) (contact : Contact) : M SessionData unit :=
  nameInput ← query w page "input[name*='name'], input[placeholder*='name'], input[autocomplete='name']";
  match nameInput with
  | Some nameInput =>
      click w nameInput 3;;
      typeText w nameInput (c_name contact) 50
  | None => ret tt
  end;;
  emailInput ← query w page "input[type='email'], input[name*='email'], input[placeholder*='email']";
  match emailInput with
  | Some emailInput =>
      click w emailInput 3;;
      typeText w emailInput (c_email contact) 50
  | None => ret tt
  end;;
  phoneInput ← query w page "input[type='tel'], input[name*='phone'], input[placeholder*='phone'], input[name*='mobile']";
  match phoneInput with
  | Some phoneInput =>
      click w phoneInput 3;;
      typeText w phoneInput (c_phone contact) 50
  | None => ret tt
  end;;
  delay 500;;
  _ ← findAndClickButton page ["get quotes"; "submit"; "continue"; "send"];
  delay 2000.

(** The closure [updateStatus] of [startJobPosting]. *)
Definition updateStatus (jobId : string) (onStatusUpdate : Callback) (p : PartialStatus)
    : M SessionData unit :=
  session ← sessions_get jobId;
  let currentStatus :=
    match session with
    | Some session => status session
    | None => mkStatus jobId pending "Starting..."
    end in
  let newStatus := spread currentStatus p in
  match session with
  | Some session => sessions_set jobId (with_status newStatus session)
  | None => ret tt
  end;;
  notify onStatusUpdate newStatus.

(** [jobData.photos?.original || jobData.photos?.visualization] *)
Definition wantsPhotos (jobData : HiPagesJobRequest) : option Photos :=
  match photos jobData with
  | Some p => if truthy_opt (original p) || truthy_opt (visualization p) then Some p else None
  | None => None
  end.

Definition startJobPosting (jobId : string) (jobData : HiPagesJobRequest)
    (onStatusUpdate : Callback) : M SessionData unit :=
  let updateStatus := updateStatus jobId onStatusUpdate in
  try_assign
    (updateStatus {| p_status := Some pending; p_message := Some "Launching browser..." |};;
     launch w)
    (fun browser =>
       page ← newPage w browser;
       setViewport w page;;
       setUserAgent w page;;
       sessions_set jobId
         {| browser := browser; page := page;
            status := mkStatus jobId pending "Browser launched" |};;
       updateStatus {| p_status := Some filling_form; p_message := Some "Navigating to HiPages..." |};;
       goto w page "https://www.hipages.com.au/get-quotes";;
       waitForSelector w page "input";;
       updateStatus {| p_status := None; p_message := Some "Filling category..." |};;
       fillCategory page (categoryName jobData);;
       updateStatus {| p_status := None; p_message := Some "Filling location..." |};;
       fillLocation page (postcode jobData);;
       clickGetQuotes page;;
       updateStatus {| p_status := None; p_message := Some "Answering questions..." |};;
       answerFormQuestions page;;
       updateStatus {| p_status := None; p_message := Some "Filling job description..." |};;
       fillDescription page (description jobData);;
       match wantsPhotos jobData with
       | Some p =>
           updateStatus {| p_status := Some uploading_photos; p_message := Some "Uploading photos..." |};;
           uploadPhotos page p
       | None => ret tt
       end;;
       updateStatus {| p_status := None; p_message := Some "Filling contact details..." |};;
       fillContactDetails page (contact jobData);;
       updateStatus {| p_status := Some awaiting_otp;
                       p_message := Some ("Enter the code sent to " +:+ c_phone (contact jobData)) |})
    (fun browser error =>
       match browser with
       | Some browser => close w browser
       | None => ret tt
       end;;
       sessions_delete jobId;;
       notify onStatusUpdate
         {| js_jobId := jobId; js_status := failed; js_message := "Failed to post job";
            js_hipagesJobId := None; js_hipagesJobUrl := None;
            js_error := Some (errorText error) |}).

Definition submitOtp (jobId otpCode : string) : M SessionData HiPagesJobStatus :=
  session ← sessions_get jobId;
  match session with
  | None =>
      ret {| js_jobId := jobId; js_status := failed; js_message := "Session not found";
             js_hipagesJobId := None; js_hipagesJobUrl := None;
             js_error := Some "No active session for this job ID" |}
  | Some session =>
      try_catch
        (sessions_set jobId
           (with_status
              (spread (status session)
                 {| p_status := Some submitting; p_message := Some "Verifying code..." |})
              session);;
         otpInput ← query w (page session) "input[type='text'], input[type='number'], input[name*='otp'], input[name*='code'], input[maxlength='6']";
         match otpInput with
         | Some otpInput =>
             click w otpInput 3;;
             typeText w otpInput otpCode 50
         | None => ret tt
         end;;
         _ ← findAndClickButton (page session) ["verify"; "submit"; "confirm"];
         swallow (waitForNavigation w (page session));;
         currentUrl ← url w (page session);
         let hipagesJobId := match_group1 url_v2_here currentUrl in
         close w (browser session);;
         sessions_delete jobId;;
         ret {| js_jobId := jobId; js_status := completed;
                js_message := "Job posted successfully!";
                js_hipagesJobId := hipagesJobId;
                js_hipagesJobUrl :=
                  match hipagesJobId with
                  | Some id =>
                      if truthy id
                      then Some ("https://www.hipages.com.au/account/job/" +:+ id
                                 +:+ "/interested-businesses")
                      else None
                  | None => None
                  end;
                js_error := None |})
        (fun error =>
           close w (browser session);;
           sessions_delete jobId;;
           ret {| js_jobId := jobId; js_status := failed;
                  js_message := "Failed to verify code";
                  js_hipagesJobId := None; js_hipagesJobUrl := None;
                  js_error := Some (errorText error) |})
  end.

Definition cancelSession (jobId : string) : M SessionData unit :=
  session ← sessions_get jobId;
  match session with
  | Some session =>
      close w (browser session);;
      sessions_delete jobId
  | None => ret tt
  end.

End Automation.

(** [activeSessions.get(jobId)?.status || null]; [None] is the miss. *)
Definition getJobStatus (jobId : string) (s : State SessionData) : option HiPagesJobStatus :=
  match activeSessions s !! jobId with
  | Some session => Some (status session)
  | None => None
  end.

End V2.

(** ** The stage order of a job *)

Definition stage_order : list StatusName :=
  [pending; filling_form; uploading_photos; filling_form; awaiting_otp;
   submitting; completed].

(** The part of [path] that starts at the first occurrence of [x]. *)
Fixpoint seek (x : StatusName) (path : list StatusName) : option (list StatusName) :=
  match path with
  | [] => None
  | y :: r => if decide (x = y) then Some path else seek x r
  end.

(** [follows path l]: the statuses of [l] can be placed on [path] at
    positions that never decrease, apart from a [failed] status, which is
    allowed only as the last element of [l]. *)
Fixpoint follows (path l : list StatusName) : bool :=
  match l with
  | [] => true
  | x :: r =>
      if decide (x = failed) then
        match r with
        | [] => true
        | _ :: _ => false
        end
      else
        match seek x path with
        | Some p => follows p r
        | None => false
        end
  end.

Definition monotonic (l : list StatusName) : bool := follows stage_order l.

(** The statuses [startJobPosting] hands to the callback when nothing
    fails, in the first and in the second listing. *)
Definition plan_v1 (withPhotos : bool) : list StatusName :=
  [pending; filling_form; filling_form; filling_form; filling_form;
   filling_form; filling_form]
  ++ (if withPhotos then [uploading_photos] else [])
  ++ [filling_form; awaiting_otp].

Definition plan_v2 (withPhotos : bool) : list StatusName :=
  [pending; filling_form; filling_form; filling_form; filling_form; filling_form]
  ++ (if withPhotos then [uploading_photos; uploading_photos] else [filling_form])
  ++ [awaiting_otp].

(** ** Reasoning about computations *)

Section Logic.

Context {Session : Type}.

(** Weakest precondition: [Q] holds of the outcome and the final state. *)
Definition wp {A} (m : M Session A) (Q : Outcome A -> State Session -> Prop)
    (s : State Session) : Prop :=
  Q (m s).1 (m s).2.

(** A step that leaves the session map and the callback log alone and
    only adds calls to the trace. *)
Record quiet_step (s s' : State Session) : Prop := {
  q_sessions : activeSessions s' = activeSessions s;
  q_updates : updates s' = updates s;
  q_trace : trace s `prefix_of` trace s'
}.

Definition quiet {A} (m : M Session A) : Prop := forall s, quiet_step s (m s).2.

(** [m] hands the callback statuses along [plan]: all of [plan] when it
    returns, a prefix of it when it throws or is suspended. [P] and [Q]
    constrain the session map before and after. *)
Definition emits {A} (P : gmap string Session -> Prop) (m : M Session A)
    (plan : list StatusName) (Q : gmap string Session -> Prop) : Prop :=
  forall s, P (activeSessions s) ->
    exists new, updates (m s).2 = updates s ++ new /\
      match (m s).1 with
      | Return _ => map js_status new = plan /\ Q (activeSessions (m s).2)
      | _ => map js_status new `prefix_of` plan
      end.

(** The calls a run adds to the trace. *)
Definition new_calls (s s' : State Session) : list Call :=
  drop (length (trace s)) (trace s').

(** The statuses a run hands to the callback. *)
Definition new_updates (s s' : State Session) : list HiPagesJobStatus :=
  drop (length (updates s)) (updates s').

End Logic.

(** The session of [jobId] is stored and caches a status named [x]. *)
Definition tracks (jobId : string) (x : StatusName) (m : gmap string V2.SessionData) : Prop :=
  exists session, m !! jobId = Some session /\ js_status (V2.status session) = x.

(** A step of a [try] block that keeps the local list of temporary files
    up to date: a file whose write completed during the step is in the
    list the step returns, and no write has completed when the step does
    not return. *)
Definition tidy_step {Session} (w : World) (st : list string -> M Session (list string)) : Prop :=
  forall l s, exists evs,
    trace (st l s).2 = trace s ++ evs /\
    match (st l s).1 with
    | Return l' =>
        l ⊆ l' /\
        forall i p, evs !! i = Some (WriteFileSync p) ->
          w_write w (length (trace s) + i) = Written -> p ∈ l'
    | _ =>
        forall i p, evs !! i = Some (WriteFileSync p) ->
          w_write w (length (trace s) + i) <> Written
    end.

(** What a run that began when the trace had [base] calls, made the calls
    [evs] and ended in [s'] has done for its temporary files: a file
    whose write completed was passed to [unlinkSync] later in the run, and
    is gone at the end unless that [unlinkSync] threw. *)
Definition cleans_up {Session} (w : World) (base : nat) (evs : list Call)
    (s' : State Session) : Prop :=
  forall i p, evs !! i = Some (WriteFileSync p) -> w_write w (base + i) = Written ->
    exists j, i < j /\ evs !! j = Some (UnlinkSync p) /\
      (w_unlink w (base + j) = None -> p ∉ files s').

(** The [try]/[finally] of [uploadPhotos], by the two conditions under
    which a payload is written to a temporary file. *)
Definition photo_block {Session} {R : Resumption Session} (w : World)
    (fileInput : ElementHandle) (writeOriginal writeViz : bool) : M Session unit :=
  try_finally ([] : list string)
    [ (fun tempFiles : list string =>
         if writeOriginal then
           bind (now w) (fun t =>
             let tempPath := tmpPath w ("hipages_original_" +:+ pretty t +:+ ".jpg") in
             bind (writeFileSync w tempPath) (fun _ => ret (tempFiles ++ [tempPath])))
         else ret tempFiles);
      (fun tempFiles : list string =>
         if writeViz then
           bind (now w) (fun t =>
             let tempPath := tmpPath w ("hipages_viz_" +:+ pretty t +:+ ".jpg") in
             bind (writeFileSync w tempPath) (fun _ => ret (tempFiles ++ [tempPath])))
         else ret tempFiles);
      (fun tempFiles : list string =>
         if (0 <? List.length tempFiles)%nat then
           bind (uploadFile w fileInput tempFiles) (fun _ =>
             bind (delay 2000) (fun _ => ret tempFiles))
         else ret tempFiles) ]
    (fun tempFiles => for_each tempFiles (fun f => swallow (unlinkSync w f))).

(** A world in which every call resolves. *)
Definition settles (w : World) : Prop :=
  forall n,
    w_unit w n = Return tt /\
    (exists b, w_handle w n = Return b) /\
    (exists e, w_elem w n = Return e) /\
    (exists l, w_elems w n = Return l) /\
    (exists t, w_text w n = Return t).

(** A computation that returns from every state. *)
Definition settled {Session A} (m : M Session A) : Prop :=
  forall s, exists a, (m s).1 = Return a.

(** ** Concrete worlds and states *)

Definition empty_state {Session} : State Session :=
  {| activeSessions := ∅; trace := []; updates := []; files := ∅ |}.

(** Nothing on the page matches, every call resolves. *)
Definition bare_page : World :=
  {| w_unit := fun _ => Return tt;
     w_handle := fun n => Return n;
     w_elem := fun _ => Return None;
     w_elems := fun _ => Return [];
     w_text := fun _ => Return "";
     w_url := fun _ => "https://hipages.com.au/get-quotes";
     w_now := fun _ => 1730000000000%N;
     w_write := fun _ => Written;
     w_unlink := fun _ => None;
     w_tmp := fun name => "/tmp/" +:+ name |}.

(** The page has a file input, and the upload is rejected. *)
Definition upload_rejected : World :=
  {| w_unit := fun _ => Throw (ErrorObj "Protocol error (DOM.setFileInputFiles): Target closed");
     w_handle := fun n => Return n;
     w_elem := fun _ => Return (Some 5);
     w_elems := fun _ => Return [];
     w_text := fun _ => Return "";
     w_url := fun _ => "https://hipages.com.au/get-quotes";
     w_now := fun _ => 1730000000000%N;
     w_write := fun _ => Written;
     w_unlink := fun _ => None;
     w_tmp := fun name => "/tmp/" +:+ name |}.

(** The page has a file input and takes the upload; the temporary file
    cannot be removed. *)
Definition unlink_refused : World :=
  {| w_unit := fun _ => Return tt;
     w_handle := fun n => Return n;
     w_elem := fun _ => Return (Some 5);
     w_elems := fun _ => Return [];
     w_text := fun _ => Return "";
     w_url := fun _ => "https://hipages.com.au/get-quotes";
     w_now := fun _ => 1730000000000%N;
     w_write := fun _ => Written;
     w_unlink := fun _ => Some (ErrorObj "EPERM: operation not permitted, unlink");
     w_tmp := fun name => "/tmp/" +:+ name |}.

Definition never_throws : Callback := fun _ => None.

Definition jane : Contact :=
  {| c_name := "Jane Doe"; c_email := "jane@example.com"; c_phone := "0400000000" |}.

Definition leaking_tap (p : option Photos) : HiPagesJobRequest :=
  {| categorySlug := "plumbing"; categoryName := "Plumbing"; postcode := "2000";
     suburb := None; description := "Leaking tap"; propertyType := "house";
     timing := asap; contact := jane; photos := p |}.

Definition one_photo : Photos :=
  {| original := Some "data:image/jpeg;base64,/9j/4AAQ"; visualization := None |}.

Definition two_photos : Photos :=
  {| original := Some "data:image/jpeg;base64,/9j/4AAQ";
     visualization := Some "data:image/png;base64,iVBORw0K" |}.

(** ** Further worlds, states and predicates *)

(** A stored session that waits for the code, in either listing. *)
Definition waiting_v1 : State V1.SessionData :=
  {| activeSessions :=
       {[ "job-1" := {| V1.browser := 0; V1.page := 1; V1.jobData := leaking_tap None;
                        V1.status := mkStatus "job-1" awaiting_otp "Waiting for OTP verification" |} ]};
     trace := []; updates := []; files := ∅ |}.

Definition waiting_v2 : State V2.SessionData :=
  {| activeSessions :=
       {[ "job-1" := {| V2.browser := 0; V2.page := 1;
                        V2.status := mkStatus "job-1" awaiting_otp "Enter the code sent to 0400000000" |} ]};
     trace := []; updates := []; files := ∅ |}.

(** After verification the page shows the identifier of the posted job. *)
Definition confirmation_page : World :=
  {| w_unit := fun _ => Return tt;
     w_handle := fun n => Return n;
     w_elem := fun _ => Return (Some 7);
     w_elems := fun _ => Return [];
     w_text := fun _ => Return "";
     w_url := fun _ => "https://www.hipages.com.au/account/job/4711/interested-businesses?job_id=4711";
     w_now := fun _ => 1730000000000%N;
     w_write := fun _ => Written;
     w_unlink := fun _ => None;
     w_tmp := fun name => "/tmp/" +:+ name |}.

(** The browser is gone: every action on it is rejected. *)
Definition browser_gone : World :=
  {| w_unit := fun _ => Throw (ErrorObj "Protocol error: Connection closed");
     w_handle := fun n => Return n;
     w_elem := fun _ => Return None;
     w_elems := fun _ => Return [];
     w_text := fun _ => Return "";
     w_url := fun _ => "about:blank";
     w_now := fun _ => 1730000000000%N;
     w_write := fun _ => Written;
     w_unlink := fun _ => None;
     w_tmp := fun name => "/tmp/" +:+ name |}.

(** No click among the calls of [l]. *)
Definition no_click (l : list Call) : Prop := forall e n, Click e n ∉ l.

(** What the calls [evs] of a run of [findAndClickButton], started when the
    trace had [base] calls, show about its outcome [o]: [true] comes with
    exactly one click, the last call, on a button whose text, read by the
    call just before, includes one of [texts]; [false] comes with no
    click; a run that threw or is suspended has clicked at most once, in
    its last call. *)
Definition click_report (w : World) (page : Page) (texts : list string) (base : nat)
    (o : Outcome bool) (evs : list Call) : Prop :=
  match o with
  | Return true =>
      exists pre b t text,
        evs = pre ++ [TextContent page b; Click b 1] /\ no_click pre /\
        text ∈ texts /\
        w_text w (base + length pre) = Return t /\
        includes t (toLowerCase text) = true
  | Return false => no_click evs
  | _ => exists pre, (evs = pre \/ exists b, evs = pre ++ [Click b 1]) /\ no_click pre
  end.

(** Every call that [m] adds to the trace satisfies [C]. *)
Definition adds {Session A} (C : Call -> Prop) (m : M Session A) : Prop :=
  forall s, exists evs, trace (m s).2 = trace s ++ evs /\ Forall C evs.

(** The probe for a free-text area that opens each round of the question
    loop of the second listing. *)
Definition probe (page : Page) : Call := Query page "textarea".

Definition non_probe (page : Page) (c : Call) : Prop := c <> probe page.

(** What the calls [evs] of the question loop, started when the trace had
    [base] calls, show: at most [n] probes, and a probe that the page
    answers with an element is the last call, after which the loop has
    returned. *)
Definition loop_report (w : World) (page : Page) (n base : nat)
    (o : Outcome unit) (evs : list Call) : Prop :=
  length (filter (fun c => c = probe page) evs) <= n /\
  forall i h, evs !! i = Some (probe page) ->
    w_elem w (base + i) = Return (Some h) ->
    o = Return tt /\ S i = length evs.

(** The page asks one question, then shows the free-text area. *)
Definition one_question : World :=
  {| w_unit := fun _ => Return tt;
     w_handle := fun n => Return n;
     w_elem := fun n => if (n =? 1)%nat then Return None else Return (Some 9);
     w_elems := fun _ => Return [3];
     w_text := fun _ => Return "next";
     w_url := fun _ => "https://www.hipages.com.au/get-quotes";
     w_now := fun _ => 1730000000000%N;
     w_write := fun _ => Written;
     w_unlink := fun _ => None;
     w_tmp := fun name => "/tmp/" +:+ name |}.

(** The cached status of the job's session, when there is one, is the
    status the callback was handed last. *)
Definition cache_is_latest (jobId : string) (s : State V2.SessionData) : Prop :=
  forall session, activeSessions s !! jobId = Some session ->
    last (updates s) = Some (V2.status session).

(** [m] ends, however it ends, in a state whose cache is the latest
    update, when it starts in one ([keeps_cache]) or wherever it starts
    ([sets_cache]). *)
Definition keeps_cache {A} (jobId : string) (m : M V2.SessionData A) : Prop :=
  forall s, cache_is_latest jobId s -> cache_is_latest jobId (m s).2.

Definition sets_cache {A} (jobId : string) (m : M V2.SessionData A) : Prop :=
  forall s, cache_is_latest jobId (m s).2.

(** [m], started in a state that satisfies [P], either returns [a] in a
    state that satisfies [R a], or stops, by a throw ([Some e]) or at a
    call that has not settled ([None]), in a state that satisfies [G]. *)
Definition ends {Session A} (G : option Thrown -> State Session -> Prop)
    (P : State Session -> Prop) (m : M Session A)
    (R : A -> State Session -> Prop) : Prop :=
  forall s, P s ->
    match (m s).1 with
    | Return a => R a (m s).2
    | Throw e => G (Some e) (m s).2
    | Pending => G None (m s).2
    end.

(** A property of states that no quiet step can break. *)
Definition quiet_stable {Session} (P : State Session -> Prop) : Prop :=
  forall s s', quiet_step s s' -> P s -> P s'.

(** Since the state [s0], the trace has only grown and the callback has
    been handed neither [failed] nor [awaiting_otp]. *)
Definition under_way {Session} (s0 s : State Session) : Prop :=
  trace s0 `prefix_of` trace s /\
  exists new, updates s = updates s0 ++ new /\
    Forall (fun u => js_status u <> failed /\ js_status u <> awaiting_otp) new.

(** The first navigation times out; everything else resolves. In both
    listings [goto] is the call at position 3 or 4 of a run from the
    empty state. *)
Definition navigation_timeout (at_call : nat) : World :=
  {| w_unit := fun n =>
       if (n =? at_call)%nat
       then Throw (ErrorObj "Navigation timeout of 30000 ms exceeded")
       else Return tt;
     w_handle := fun n => Return n;
     w_elem := fun _ => Return None;
     w_elems := fun _ => Return [];
     w_text := fun _ => Return "";
     w_url := fun _ => "about:blank";
     w_now := fun _ => 1730000000000%N;
     w_write := fun _ => Written;
     w_unlink := fun _ => None;
     w_tmp := fun name => "/tmp/" +:+ name |}.

(** The first navigation times out and the browser then refuses to close. *)
Definition timeout_then_stuck : World :=
  {| w_unit := fun n =>
       if (n =? 4)%nat
       then Throw (ErrorObj "Navigation timeout of 30000 ms exceeded")
       else if (n =? 5)%nat
       then Throw (ErrorObj "Protocol error (Browser.close): Target closed")
       else Return tt;
     w_handle := fun n => Return n;
     w_elem := fun _ => Return None;
     w_elems := fun _ => Return [];
     w_text := fun _ => Return "";
     w_url := fun _ => "about:blank";
     w_now := fun _ => 1730000000000%N;
     w_write := fun _ => Written;
     w_unlink := fun _ => None;
     w_tmp := fun name => "/tmp/" +:+ name |}.

(** ** Calls that run while another is suspended *)

(** The other calls leave the entry of [jobId] in the session map alone. *)
Definition spares {Session} (jobId : string)
    (others : nat -> gmap string Session -> gmap string Session) : Prop :=
  forall n m, others n m !! jobId = m !! jobId.

(** Whatever the other calls do while this one is suspended, they do not
    write in its trace, which records the calls of this one only. *)
Definition own_trace {Session} (R : Resumption Session) : Prop :=
  forall s, trace (@resume _ R s) = trace s.

(** A [cancelSession jobId] elsewhere whose [activeSessions.delete] runs
    while this call awaits the call that is number [n] of its trace. *)
Definition cancelled_during {Session} (jobId : string) (n : nat)
    : nat -> gmap string Session -> gmap string Session :=
  fun k m => if (k =? n)%nat then delete jobId m else m.

(** A step of a call that runs among [others], seen from the job [jobId]:
    nothing is handed to the callback, the trace only grows, and the entry
    of [jobId] is as before when the other calls spare it. *)
Record calm_step {Session} (jobId : string)
    (others : nat -> gmap string Session -> gmap string Session)
    (s s' : State Session) : Prop := {
  c_entry : spares jobId others -> activeSessions s' !! jobId = activeSessions s !! jobId;
  c_updates : updates s' = updates s;
  c_trace : trace s `prefix_of` trace s'
}.

Definition calm {Session A} (jobId : string)
    (others : nat -> gmap string Session -> gmap string Session)
    (m : M Session A) : Prop :=
  forall s, calm_step jobId others s (m s).2.

(** A property of states that no calm step can break. *)
Definition calm_stable {Session} (jobId : string)
    (others : nat -> gmap string Session -> gmap string Session)
    (P : State Session -> Prop) : Prop :=
  forall s s', calm_step jobId others s s' -> P s -> P s'.

(** A property of session maps that depends on the entry of [jobId] only,
    and on nothing when the other calls do not spare that entry. *)
Definition entry_only {Session} (jobId : string)
    (others : nat -> gmap string Session -> gmap string Session)
    (P : gmap string Session -> Prop) : Prop :=
  forall m m', (spares jobId others -> m' !! jobId = m !! jobId) -> P m -> P m'.

(** Every [fs.writeFileSync] completes. *)
Definition writes (w : World) : Prop := forall n, w_write w n = Written.

(** The world as a run finds it before anything it awaits has settled;
    the synchronous calls are answered as in [w]. *)
Definition silent (w : World) : World :=
  {| w_unit := fun _ => Pending;
     w_handle := fun _ => Pending;
     w_elem := fun _ => Pending;
     w_elems := fun _ => Pending;
     w_text := fun _ => Pending;
     w_url := w_url w;
     w_now := w_now w;
     w_write := w_write w;
     w_unlink := w_unlink w;
     w_tmp := w_tmp w |}.

(** The page answers until the browser is closed by a [cancelSession]
    elsewhere: the calls from position [n] on are rejected, except
    [close], the call at position [closing]. *)
Definition closed_from (n closing : nat) : World :=
  {| w_unit := fun k =>
       if (k <? n)%nat || (k =? closing)%nat then Return tt
       else Throw (ErrorObj "Protocol error: Target closed");
     w_handle := fun k => Return k;
     w_elem := fun k =>
       if (k <? n)%nat then Return None
       else Throw (ErrorObj "Protocol error: Target closed");
     w_elems := fun k =>
       if (k <? n)%nat then Return [7]
       else Throw (ErrorObj "Protocol error: Target closed");
     w_text := fun k =>
       if (k <? n)%nat then Return ""
       else Throw (ErrorObj "Protocol error: Target closed");
     w_url := fun _ => "https://www.hipages.com.au/get-quotes";
     w_now := fun _ => 1730000000000%N;
     w_write := fun _ => Written;
     w_unlink := fun _ => None;
     w_tmp := fun name => "/tmp/" +:+ name |}.


(** ** The HTTP server (index.ts)

    The handlers reach the automation module through its four exported
    functions only, so they are written here over any implementation of
    them; both listings are instances. A handler that awaits is
    suspended like any other call: what the other calls do to
    [activeSessions] in the meantime is the [Resumption] the exported
    function runs with, and what the other handlers and the callbacks of
    the runs under way do to [jobStatuses] is given by [Elsewhere]. *)

Module Server.

(** The JSON bodies the handlers send. *)
Inductive Body :=
| StatusBody (st : HiPagesJobStatus)
| JobNotFound (jobId : string)
| MissingFields
| MissingContact
| OtpRequired
| NotAwaitingOtp (currentStatus : StatusName)
| Cancelled
| Failure (error message : string).

Record Response := { code : nat; body : Body }.

(** The module-level map [jobStatuses] of the server, beside the state
    of the automation module. *)
Record ServerState (Session : Type) := {
  jobStatuses : gmap string HiPagesJobStatus;
  automation : State Session
}.

Arguments jobStatuses {Session} _.
Arguments automation {Session} _.

(** While a handler is suspended, from the moment the trace of the call
    it awaits had [from] calls to the moment it has [upto], the other
    handlers and the callbacks of the runs under way turn the status map
    [m] into [elsewhere from upto m]. *)
Class Elsewhere :=
  elsewhere : nat -> nat -> gmap string HiPagesJobStatus -> gmap string HiPagesJobStatus.

(** No other request or run is in flight. A statement that names no other
    instance is about such a handler. *)
#[global] Instance nowhere : Elsewhere := fun _ _ m => m.

Section Handlers.

Context {Session : Type}.
Context {E : Elsewhere}.

Variable startJobPosting : string -> HiPagesJobRequest -> Callback -> M Session unit.
Variable submitOtp : string -> string -> M Session HiPagesJobStatus.
Variable cancelSession : string -> M Session unit.
Variable getJobStatus : string -> State Session -> option HiPagesJobStatus.

(** The status map a handler finds when the call it awaited has come
    back. The first call that [submitOtp] or [cancelSession] makes is an
    awaited one, so a handler whose call added nothing to the trace was
    never suspended, and finds the map as it left it. *)
Definition meanwhile (from upto : nat) (m : gmap string HiPagesJobStatus)
    : gmap string HiPagesJobStatus :=
  if (from =? upto)%nat then m else elsewhere from upto m.

(** [jobStatuses.get(jobId) || getJobStatus(jobId)] *)
Definition currentStatus (jobId : string) (sv : ServerState Session)
    : option HiPagesJobStatus :=
  match jobStatuses sv !! jobId with
  | Some st => Some st
  | None => getJobStatus jobId (automation sv)
  end.

(** [GET /api/jobs/:jobId] *)
Definition getJob (jobId : string) (sv : ServerState Session) : Response :=
  match currentStatus jobId sv with
  | None => {| code := 404; body := JobNotFound jobId |}
  | Some st => {| code := 200; body := StatusBody st |}
  end.

(** [POST /api/jobs/:jobId/otp], for a body whose [otp] is a string or
    absent. The answer is [None] while [submitOtp] is suspended; the
    state given with an answer is the one in which it is sent. *)
Definition postOtp (jobId : string) (otp : option string) (sv : ServerState Session)
    : option Response * ServerState Session :=
  match otp with
  | Some otp =>
      if truthy otp then
        match currentStatus jobId sv with
        | None => (Some {| code := 404; body := JobNotFound jobId |}, sv)
        | Some current =>
            if bool_decide (js_status current = awaiting_otp) then
              let r := submitOtp jobId otp (automation sv) in
              let seen := meanwhile (length (trace (automation sv))) (length (trace r.2))
                            (jobStatuses sv) in
              match r.1 with
              | Return finalStatus =>
                  (Some {| code := 200; body := StatusBody finalStatus |},
                   {| jobStatuses := <[jobId := finalStatus]> seen; automation := r.2 |})
              | Throw error =>
                  (Some {| code := 500;
                           body := Failure "Failed to submit OTP" (errorText error) |},
                   {| jobStatuses := seen; automation := r.2 |})
              | Pending => (None, {| jobStatuses := seen; automation := r.2 |})
              end
            else (Some {| code := 400; body := NotAwaitingOtp (js_status current) |}, sv)
        end
      else (Some {| code := 400; body := OtpRequired |}, sv)
  | None => (Some {| code := 400; body := OtpRequired |}, sv)
  end.

(** [DELETE /api/jobs/:jobId]. The answer is [None] while [cancelSession]
    is suspended; the state given with an answer is the one in which it
    is sent. *)
Definition deleteJob (jobId : string) (sv : ServerState Session)
    : option Response * ServerState Session :=
  let r := cancelSession jobId (automation sv) in
  let seen := meanwhile (length (trace (automation sv))) (length (trace r.2))
                (jobStatuses sv) in
  match r.1 with
  | Return _ =>
      (Some {| code := 200; body := Cancelled |},
       {| jobStatuses := delete jobId seen; automation := r.2 |})
  | Throw error =>
      (Some {| code := 500; body := Failure "Failed to cancel job" (errorText error) |},
       {| jobStatuses := seen; automation := r.2 |})
  | Pending => (None, {| jobStatuses := seen; automation := r.2 |})
  end.

(** The callback [(status) => jobStatuses.set(jobId, status)] applied to
    the statuses of a run, in order. *)
Definition record_updates (jobId : string) (us : list HiPagesJobStatus)
    (m : gmap string HiPagesJobStatus) : gmap string HiPagesJobStatus :=
  foldl (fun m u => <[jobId := u]> m) m us.

(** [POST /api/jobs]: [jobId] is what [uuidv4()] returns; a field the body
    leaves out is falsy like the empty string. [startJobPosting] is
    called without [await]: it runs until it first awaits, and the
    handler then answers. [started] is that first stretch of the run, the
    function [startJobPosting] of this section in a world that has not
    answered yet ([silent]) and with no other call in between; the state
    given with the answer is the one in which the answer is sent. *)
Definition postJob (started : string -> HiPagesJobRequest -> Callback -> M Session unit)
    (jobId : string) (jobData : HiPagesJobRequest) (sv : ServerState Session)
    : Response * ServerState Session :=
  if negb (truthy (categoryName jobData)) || negb (truthy (postcode jobData))
     || negb (truthy (description jobData))
  then ({| code := 400; body := MissingFields |}, sv)
  else if negb (truthy (c_name (contact jobData))) || negb (truthy (c_email (contact jobData)))
          || negb (truthy (c_phone (contact jobData)))
  then ({| code := 400; body := MissingContact |}, sv)
  else
    let initialStatus := mkStatus jobId pending "Job queued for processing" in
    let first := started jobId jobData (fun _ => None) (automation sv) in
    ({| code := 202; body := StatusBody initialStatus |},
     {| jobStatuses :=
          record_updates jobId (new_updates (automation sv) first.2)
            (<[jobId := initialStatus]> (jobStatuses sv));
        automation := first.2 |}).

(** The run that [postJob] started, followed among the other calls to
    its end or to the call at which it stays suspended: the statuses
    stored under [jobId] on its behalf, in order (those its callback was
    handed and, when the run rejects, the status that the [catch]
    callback of line 51 stores), with the state of the automation module
    then. *)
Definition jobRun (jobId : string) (jobData : HiPagesJobRequest) (a : State Session)
    : list HiPagesJobStatus * State Session :=
  let run := startJobPosting jobId jobData (fun _ => None) a in
  (new_updates a run.2 ++
     match run.1 with
     | Throw error =>
         [ {| js_jobId := jobId; js_status := failed;
              js_message := "Job processing failed";
              js_hipagesJobId := None; js_hipagesJobUrl := None;
              js_error := Some (errorText error) |} ]
     | _ => []
     end,
   run.2).

End Handlers.

End Server.

(** The server over each listing, in the world [w]. *)
Definition server_v1_postJob (w : World) :=
  Server.postJob (V1.startJobPosting (R := alone) (silent w)).
Definition server_v1_jobRun {R : Resumption V1.SessionData} (w : World) :=
  Server.jobRun (V1.startJobPosting w).
Definition server_v1_postOtp {R : Resumption V1.SessionData} {E : Server.Elsewhere} (w : World) :=
  Server.postOtp (V1.submitOtp w) V1.getJobStatus.
Definition server_v1_deleteJob {R : Resumption V1.SessionData} {E : Server.Elsewhere}
    (w : World) :=
  Server.deleteJob (V1.cancelSession w).
Definition server_v1_getJob := Server.getJob V1.getJobStatus.

Definition server_v2_postJob (w : World) :=
  Server.postJob (V2.startJobPosting (R := alone) (silent w)).
Definition server_v2_jobRun {R : Resumption V2.SessionData} (w : World) :=
  Server.jobRun (V2.startJobPosting w).
Definition server_v2_deleteJob {R : Resumption V2.SessionData} {E : Server.Elsewhere}
    (w : World) :=
  Server.deleteJob (V2.cancelSession w).
Definition server_v2_getJob := Server.getJob V2.getJobStatus.


(** The server knows the job of [waiting_v1] and [waiting_v2] as waiting
    for its code. *)
Definition waiting_server_v1 : Server.ServerState V1.SessionData :=
  {| Server.jobStatuses :=
       {[ "job-1" := mkStatus "job-1" awaiting_otp
                       "Please enter the verification code sent to your phone" ]};
     Server.automation := waiting_v1 |}.

Definition waiting_server_v2 : Server.ServerState V2.SessionData :=
  {| Server.jobStatuses :=
       {[ "job-1" := mkStatus "job-1" awaiting_otp "Enter the code sent to 0400000000" ]};
     Server.automation := waiting_v2 |}.

Definition idle_server {Session} : Server.ServerState Session :=
  {| Server.jobStatuses := ∅; Server.automation := empty_state |}.

(** The six fields a request must fill. *)
Definition complete (jobData : HiPagesJobRequest) : bool :=
  truthy (categoryName jobData) && truthy (postcode jobData) && truthy (description jobData)
  && truthy (c_name (contact jobData)) && truthy (c_email (contact jobData))
  && truthy (c_phone (contact jobData)).

(** A non-empty string of decimal digits. *)
Definition numeric (id : string) : Prop :=
  id <> "" /\ Forall (fun c => is_digit c = true) (list_ascii_of_string id).

(** [id] stands in [text], and no digit follows it there. *)
Definition taken_from (id text : string) : Prop :=
  exists pre post,
    list_ascii_of_string text = pre ++ list_ascii_of_string id ++ post /\
    match post with
    | c :: _ => is_digit c = false
    | [] => True
    end.

(** Calls that a stage working on page [p] may make: queries, key
    presses and waits on [p] itself, actions on element handles, the
    timer, the clock and the temporary files. Launching or closing a
    browser, opening or configuring a page, navigating, and reading the
    URL or the content are not among them. *)
Definition on_page (p : Page) (c : Call) : Prop :=
  match c with
  | Query p' _ | QueryAll p' _ | TextContent p' _ | Press p' _ | WaitForNavigation p' => p' = p
  | Click _ _ | TypeText _ _ _ | UploadFile _ _ | Delay _ | Now
  | WriteFileSync _ | UnlinkSync _ => True
  | Launch | NewPage _ | SetViewport _ | SetUserAgent _ | Goto _ _ | WaitForSelector _ _
  | Url _ | Content _ | Close _ => False
  end.

(** [m] keeps the property [P] of the session map, however it ends and
    wherever it is suspended. *)
Definition preserves {Session A} (P : gmap string Session -> Prop) (m : M Session A) : Prop :=
  forall s, P (activeSessions s) -> P (activeSessions (m s).2).

(** The two statuses a session of the first listing ever caches. *)
Definition coarse_status (jobId : string) (st : HiPagesJobStatus) : Prop :=
  st = mkStatus jobId filling_form "Starting..." \/
  st = mkStatus jobId awaiting_otp "Waiting for OTP verification".

Definition coarse_cache (jobId : string) (m : gmap string V1.SessionData) : Prop :=
  forall session, m !! jobId = Some session -> coarse_status jobId (V1.status session).

(** Every element is found; the upload, call [at_call] of the run, does
    not settle. *)
Definition upload_hangs (at_call : nat) : World :=
  {| w_unit := fun n => if (n =? at_call)%nat then Pending else Return tt;
     w_handle := fun n => Return n;
     w_elem := fun _ => Return (Some 5);
     w_elems := fun _ => Return [];
     w_text := fun _ => Return "";
     w_url := fun _ => "https://hipages.com.au/get-quotes";
     w_now := fun _ => 1730000000000%N;
     w_write := fun _ => Written;
     w_unlink := fun _ => None;
     w_tmp := fun name => "/tmp/" +:+ name |}.

(** * Facts *)

(** ** Steps that leave sessions and callback log alone *)

Section QuietFacts.

Context {Session : Type}.

Implicit Types s : State Session.

Lemma quiet_step_refl s : quiet_step s s.
Proof. by split. Qed.

Lemma quiet_step_trans s1 s2 s3 :
  quiet_step s1 s2 -> quiet_step s2 s3 -> quiet_step s1 s3.
Proof.
  intros [a1 b1 c1] [a2 b2 c2]. split.
  - by rewrite a2.
  - by rewrite b2.
  - by etrans.
Qed.

Lemma quiet_step_add_call c s : quiet_step s (add_call c s).
Proof. split; [done | done | by apply prefix_app_r]. Qed.

Lemma quiet_step_set_files f s : quiet_step s (set_files f s).
Proof. by split. Qed.

Lemma quiet_ret {A} (a : A) : quiet (Session := Session) (ret a).
Proof. intros s. apply quiet_step_refl. Qed.

Lemma quiet_bind {A B} (m : M Session A) (f : A -> M Session B) :
  quiet m -> (forall a, quiet (f a)) -> quiet (bind m f).
Proof.
  intros Hm Hf s. unfold bind. specialize (Hm s).
  destruct (m s) as [[a | e |] s1]; simpl in *; trivial.
  eapply quiet_step_trans; [exact Hm | apply Hf].
Qed.

Lemma quiet_call {A} w c (answer : World -> nat -> Outcome A) :
  quiet (Session := Session) (call w c answer).
Proof. intros s. apply quiet_step_add_call. Qed.

Lemma quiet_delay ms : quiet (Session := Session) (delay ms).
Proof. intros s. apply quiet_step_add_call. Qed.

Lemma quiet_url w p : quiet (Session := Session) (url w p).
Proof. intros s. apply quiet_step_add_call. Qed.

Lemma quiet_now w : quiet (Session := Session) (now w).
Proof. intros s. apply quiet_step_add_call. Qed.

Lemma quiet_writeFileSync w path : quiet (Session := Session) (writeFileSync w path).
Proof.
  intros s. unfold writeFileSync.
  destruct (w_write w (length (trace s))) as [| e created]; simpl;
    (eapply quiet_step_trans;
       [apply (quiet_step_add_call (WriteFileSync path)) | apply quiet_step_set_files]).
Qed.

Lemma quiet_unlinkSync w path : quiet (Session := Session) (unlinkSync w path).
Proof.
  intros s. unfold unlinkSync. case_bool_decide; simpl.
  - destruct (w_unlink w (length (trace s))); simpl; [apply quiet_step_add_call |].
    eapply quiet_step_trans;
      [apply (quiet_step_add_call (UnlinkSync path)) | apply quiet_step_set_files].
  - apply quiet_step_add_call.
Qed.

Lemma quiet_swallow (m : M Session unit) : quiet m -> quiet (swallow m).
Proof.
  intros Hm s. unfold swallow. specialize (Hm s).
  by destruct (m s) as [[a | e |] s1].
Qed.

Lemma quiet_try_catch {A} (m : M Session A) h :
  quiet m -> (forall e, quiet (h e)) -> quiet (try_catch m h).
Proof.
  intros Hm Hh s. unfold try_catch. specialize (Hm s).
  destruct (m s) as [[a | e |] s1]; simpl in *; trivial.
  eapply quiet_step_trans; [exact Hm | apply Hh].
Qed.

Lemma quiet_for_each {A} (l : list A) (body : A -> M Session unit) :
  (forall x, quiet (body x)) -> quiet (for_each l body).
Proof.
  intros Hb. induction l as [| x r IH]; simpl.
  - apply quiet_ret.
  - apply quiet_bind; [apply Hb | intros _; exact IH].
Qed.

Lemma quiet_try_steps {L} (steps : list (L -> M Session L)) :
  Forall (fun st => forall l, quiet (st l)) steps ->
  forall l s, quiet_step s (try_steps steps l s).2.
Proof.
  induction 1 as [| st rest Hst _ IH]; intros l s; simpl.
  - apply quiet_step_refl.
  - specialize (Hst l s).
    destruct (st l s) as [[l' | e |] s1]; simpl in *; trivial.
    eapply quiet_step_trans; [exact Hst | apply IH].
Qed.

Lemma quiet_try_finally {L} (init : L) steps (fin : L -> M Session unit) :
  Forall (fun st => forall l, quiet (st l)) steps ->
  (forall l, quiet (fin l)) ->
  quiet (try_finally init steps fin).
Proof.
  intros Hs Hf s. unfold try_finally.
  pose proof (quiet_try_steps steps Hs init s) as H1.
  destruct (try_steps steps init s) as [[o l] s1]; simpl in *.
  specialize (Hf l s1).
  destruct o as [[] | e |]; trivial;
    destruct (fin l s1) as [[[] | e' |] s2]; simpl in *;
    eapply quiet_step_trans; eauto.
Qed.

End QuietFacts.

Create HintDb quiet discriminated.

#[export] Hint Resolve quiet_ret quiet_call quiet_delay quiet_url quiet_now
  quiet_writeFileSync quiet_unlinkSync : quiet.

(** Walks through a computation built from the combinators above. *)
Ltac quiet_walk :=
  repeat first
    [ progress intros
    | solve [ eauto with quiet ]
    | apply quiet_bind
    | apply quiet_swallow
    | apply quiet_for_each
    | apply quiet_try_catch
    | apply quiet_try_finally
    | apply Forall_cons_2
    | apply Forall_nil_2
    | apply quiet_call
    | match goal with
      | |- quiet (match ?x with _ => _ end) => destruct x
      | |- quiet (if ?x then _ else _) => destruct x
      end ].

Section QuietV1.

Variable w : World.

Lemma quiet_v1_fillCategory p c : quiet (V1.fillCategory w p c).
Proof. unfold V1.fillCategory. quiet_walk. Qed.

Lemma quiet_v1_fillLocation p c : quiet (V1.fillLocation w p c).
Proof. unfold V1.fillLocation. quiet_walk. Qed.

Lemma quiet_v1_clickGetQuotes p : quiet (V1.clickGetQuotes w p).
Proof. unfold V1.clickGetQuotes. quiet_walk. Qed.

Lemma quiet_v1_answerFormQuestions p j : quiet (V1.answerFormQuestions w p j).
Proof. unfold V1.answerFormQuestions. quiet_walk. Qed.

Lemma quiet_v1_fillDescription p d : quiet (V1.fillDescription w p d).
Proof. unfold V1.fillDescription. quiet_walk. Qed.

Lemma quiet_v1_uploadPhotos p ph : quiet (V1.uploadPhotos w p ph).
Proof. unfold V1.uploadPhotos. quiet_walk. Qed.

Lemma quiet_v1_fillContactDetails p c : quiet (V1.fillContactDetails w p c).
Proof. unfold V1.fillContactDetails. quiet_walk. Qed.

End QuietV1.

#[export] Hint Resolve quiet_v1_fillCategory quiet_v1_fillLocation quiet_v1_clickGetQuotes
  quiet_v1_answerFormQuestions quiet_v1_fillDescription quiet_v1_uploadPhotos
  quiet_v1_fillContactDetails : quiet.

Section QuietV2.

Variable w : World.

Lemma quiet_v2_clickFirstMatching p t l : quiet (V2.clickFirstMatching w p t l).
Proof. induction l as [| b r IH]; simpl; quiet_walk. Qed.

Lemma quiet_v2_findAndClickButton p l : quiet (V2.findAndClickButton w p l).
Proof.
  induction l as [| t r IH]; simpl; quiet_walk.
  apply quiet_v2_clickFirstMatching.
Qed.


#[local] Hint Resolve quiet_v2_clickFirstMatching quiet_v2_findAndClickButton : quiet.

Lemma quiet_v2_fillCategory p c : quiet (V2.fillCategory w p c).
Proof. unfold V2.fillCategory. quiet_walk. Qed.

Lemma quiet_v2_fillLocation p c : quiet (V2.fillLocation w p c).
Proof. unfold V2.fillLocation. quiet_walk. Qed.

Lemma quiet_v2_clickGetQuotes p : quiet (V2.clickGetQuotes w p).
Proof. unfold V2.clickGetQuotes. quiet_walk. Qed.

Lemma quiet_v2_questionLoop n p : quiet (V2.questionLoop w n p).
Proof. induction n as [| k IH]; simpl; quiet_walk. Qed.

#[local] Hint Resolve quiet_v2_questionLoop : quiet.

Lemma quiet_v2_answerFormQuestions p : quiet (V2.answerFormQuestions w p).
Proof. unfold V2.answerFormQuestions. quiet_walk. Qed.

Lemma quiet_v2_fillDescription p d : quiet (V2.fillDescription w p d).
Proof. unfold V2.fillDescription. quiet_walk. Qed.

Lemma quiet_v2_uploadPhotos p ph : quiet (V2.uploadPhotos w p ph).
Proof. unfold V2.uploadPhotos. quiet_walk. Qed.

Lemma quiet_v2_fillContactDetails p c : quiet (V2.fillContactDetails w p c).
Proof. unfold V2.fillContactDetails. quiet_walk. Qed.

End QuietV2.

#[export] Hint Resolve quiet_v2_findAndClickButton quiet_v2_fillCategory quiet_v2_fillLocation
  quiet_v2_clickGetQuotes quiet_v2_answerFormQuestions quiet_v2_fillDescription
  quiet_v2_uploadPhotos quiet_v2_fillContactDetails : quiet.

(** ** Steps of a call that runs among others *)

Section CalmFacts.

Context {Session : Type}.

Variable jobId : string.
Variable others : nat -> gmap string Session -> gmap string Session.

Implicit Types s : State Session.

Lemma calm_step_refl s : calm_step jobId others s s.
Proof. by split. Qed.

Lemma calm_step_trans s1 s2 s3 :
  calm_step jobId others s1 s2 -> calm_step jobId others s2 s3 ->
  calm_step jobId others s1 s3.
Proof.
  intros [a1 b1 c1] [a2 b2 c2]. split.
  - intros H. by rewrite a2, a1.
  - by rewrite b2.
  - by etrans.
Qed.

Lemma quiet_calm_step s s' : quiet_step s s' -> calm_step jobId others s s'.
Proof. intros [a b c]. split; [by rewrite a | done | done]. Qed.

Lemma calm_step_resume c s :
  calm_step jobId others s (@resume _ (among others) (add_call c s)).
Proof.
  split; simpl; [| done | by apply prefix_app_r].
  intros H. apply H.
Qed.

Lemma calm_ret {A} (a : A) : calm jobId others (ret a).
Proof. intros s. apply calm_step_refl. Qed.

Lemma calm_bind {A B} (m : M Session A) (f : A -> M Session B) :
  calm jobId others m -> (forall a, calm jobId others (f a)) -> calm jobId others (bind m f).
Proof.
  intros Hm Hf s. unfold bind. specialize (Hm s).
  destruct (m s) as [[a | e |] s1]; simpl in *; trivial.
  eapply calm_step_trans; [exact Hm | apply Hf].
Qed.

Lemma calm_call {A} w c (answer : World -> nat -> Outcome A) :
  calm jobId others (call (R := among others) w c answer).
Proof. intros s. apply calm_step_resume. Qed.

Lemma calm_delay ms : calm jobId others (delay (R := among others) ms).
Proof. intros s. apply calm_step_resume. Qed.

Lemma calm_quiet {A} (m : M Session A) : quiet m -> calm jobId others m.
Proof. intros H s. apply quiet_calm_step, H. Qed.

Lemma calm_url w p : calm jobId others (url w p).
Proof. apply calm_quiet, quiet_url. Qed.

Lemma calm_now w : calm jobId others (now w).
Proof. apply calm_quiet, quiet_now. Qed.

Lemma calm_writeFileSync w path : calm jobId others (writeFileSync w path).
Proof. apply calm_quiet, quiet_writeFileSync. Qed.

Lemma calm_unlinkSync w path : calm jobId others (unlinkSync w path).
Proof. apply calm_quiet, quiet_unlinkSync. Qed.

Lemma calm_swallow (m : M Session unit) : calm jobId others m -> calm jobId others (swallow m).
Proof.
  intros Hm s. unfold swallow. specialize (Hm s).
  by destruct (m s) as [[a | e |] s1].
Qed.

Lemma calm_try_catch {A} (m : M Session A) h :
  calm jobId others m -> (forall e, calm jobId others (h e)) ->
  calm jobId others (try_catch m h).
Proof.
  intros Hm Hh s. unfold try_catch. specialize (Hm s).
  destruct (m s) as [[a | e |] s1]; simpl in *; trivial.
  eapply calm_step_trans; [exact Hm | apply Hh].
Qed.

Lemma calm_for_each {A} (l : list A) (body : A -> M Session unit) :
  (forall x, calm jobId others (body x)) -> calm jobId others (for_each l body).
Proof.
  intros Hb. induction l as [| x r IH]; simpl.
  - apply calm_ret.
  - apply calm_bind; [apply Hb | intros _; exact IH].
Qed.

Lemma calm_try_steps {L} (steps : list (L -> M Session L)) :
  Forall (fun st => forall l, calm jobId others (st l)) steps ->
  forall l s, calm_step jobId others s (try_steps steps l s).2.
Proof.
  induction 1 as [| st rest Hst _ IH]; intros l s; simpl.
  - apply calm_step_refl.
  - specialize (Hst l s).
    destruct (st l s) as [[l' | e |] s1]; simpl in *; trivial.
    eapply calm_step_trans; [exact Hst | apply IH].
Qed.

Lemma calm_try_finally {L} (init : L) steps (fin : L -> M Session unit) :
  Forall (fun st => forall l, calm jobId others (st l)) steps ->
  (forall l, calm jobId others (fin l)) ->
  calm jobId others (try_finally init steps fin).
Proof.
  intros Hs Hf s. unfold try_finally.
  pose proof (calm_try_steps steps Hs init s) as H1.
  destruct (try_steps steps init s) as [[o l] s1]; simpl in *.
  specialize (Hf l s1).
  destruct o as [[] | e |]; trivial;
    destruct (fin l s1) as [[[] | e' |] s2]; simpl in *;
    eapply calm_step_trans; eauto.
Qed.

End CalmFacts.

(** Walks through a computation built from the combinators above. *)
Ltac calm_leaf :=
  lazymatch goal with
  | |- calm _ _ (ret _) => apply calm_ret
  | |- calm _ _ (call _ _ _) => apply calm_call
  | |- calm _ _ (delay _) => apply calm_delay
  | |- calm _ _ (url _ _) => apply calm_url
  | |- calm _ _ (now _) => apply calm_now
  | |- calm _ _ (writeFileSync _ _) => apply calm_writeFileSync
  | |- calm _ _ (unlinkSync _ _) => apply calm_unlinkSync
  | |- calm _ _ (bind _ _) => apply calm_bind
  | |- calm _ _ (swallow _) => apply calm_swallow
  | |- calm _ _ (for_each _ _) => apply calm_for_each
  | |- calm _ _ (try_catch _ _) => apply calm_try_catch
  | |- calm _ _ (try_finally _ _ _) => apply calm_try_finally
  | |- calm _ _ (match ?x with _ => _ end) => destruct x
  | |- calm _ _ (if ?x then _ else _) => destruct x
  | |- Forall _ (_ :: _) => apply Forall_cons_2
  | |- Forall _ [] => apply Forall_nil_2
  | |- calm _ _ _ =>
      first
        [ solve [ eauto with calm ]
        | progress unfold launch, newPage, setViewport, setUserAgent, goto, waitForSelector,
            waitForNavigation, query, queryAll, click, typeText, press, uploadFile, content,
            close, textContentLower;
          apply calm_call ]
  end.

Ltac calm_walk := repeat first [ progress intros | progress cbv beta zeta | calm_leaf ].

Create HintDb calm discriminated.

Section CalmV1.

Variable w : World.
Variable jobId : string.
Variable others : nat -> gmap string V1.SessionData -> gmap string V1.SessionData.

Lemma calm_v1_fillCategory p c :
  calm jobId others (V1.fillCategory (R := among others) w p c).
Proof.
  unfold V1.fillCategory, query, click, typeText, press, queryAll, uploadFile,
    waitForNavigation. calm_walk.
Qed.

Lemma calm_v1_fillLocation p c :
  calm jobId others (V1.fillLocation (R := among others) w p c).
Proof.
  unfold V1.fillLocation, query, click, typeText, press, queryAll, uploadFile,
    waitForNavigation. calm_walk.
Qed.

Lemma calm_v1_clickGetQuotes p :
  calm jobId others (V1.clickGetQuotes (R := among others) w p).
Proof.
  unfold V1.clickGetQuotes, query, click, typeText, press, queryAll, uploadFile,
    waitForNavigation. calm_walk.
Qed.

Lemma calm_v1_answerFormQuestions p j :
  calm jobId others (V1.answerFormQuestions (R := among others) w p j).
Proof.
  unfold V1.answerFormQuestions, query, click, typeText, press, queryAll, uploadFile,
    waitForNavigation. calm_walk.
Qed.

Lemma calm_v1_fillDescription p d :
  calm jobId others (V1.fillDescription (R := among others) w p d).
Proof.
  unfold V1.fillDescription, query, click, typeText, press, queryAll, uploadFile,
    waitForNavigation. calm_walk.
Qed.

Lemma calm_v1_uploadPhotos p ph :
  calm jobId others (V1.uploadPhotos (R := among others) w p ph).
Proof.
  unfold V1.uploadPhotos, query, click, typeText, press, queryAll, uploadFile,
    waitForNavigation. calm_walk.
Qed.

Lemma calm_v1_fillContactDetails p c :
  calm jobId others (V1.fillContactDetails (R := among others) w p c).
Proof.
  unfold V1.fillContactDetails, query, click, typeText, press, queryAll, uploadFile,
    waitForNavigation. calm_walk.
Qed.

End CalmV1.

#[export] Hint Resolve calm_v1_fillCategory calm_v1_fillLocation calm_v1_clickGetQuotes
  calm_v1_answerFormQuestions calm_v1_fillDescription calm_v1_uploadPhotos
  calm_v1_fillContactDetails : calm.

Section CalmV2.

Variable w : World.
Variable jobId : string.
Variable others : nat -> gmap string V2.SessionData -> gmap string V2.SessionData.

Lemma calm_v2_clickFirstMatching p t l :
  calm jobId others (V2.clickFirstMatching (R := among others) w p t l).
Proof.
  induction l as [| b r IH]; simpl; unfold textContentLower, click; calm_walk.
Qed.

Lemma calm_v2_findAndClickButton p l :
  calm jobId others (V2.findAndClickButton (R := among others) w p l).
Proof.
  induction l as [| t r IH]; simpl; unfold queryAll; calm_walk.
  apply calm_v2_clickFirstMatching.
Qed.

#[local] Hint Resolve calm_v2_clickFirstMatching calm_v2_findAndClickButton : calm.

Lemma calm_v2_fillCategory p c :
  calm jobId others (V2.fillCategory (R := among others) w p c).
Proof.
  unfold V2.fillCategory, query, click, typeText, press, queryAll, uploadFile,
    waitForNavigation. calm_walk.
Qed.

Lemma calm_v2_fillLocation p c :
  calm jobId others (V2.fillLocation (R := among others) w p c).
Proof.
  unfold V2.fillLocation, query, click, typeText, press, queryAll, uploadFile,
    waitForNavigation. calm_walk.
Qed.

Lemma calm_v2_clickGetQuotes p :
  calm jobId others (V2.clickGetQuotes (R := among others) w p).
Proof.
  unfold V2.clickGetQuotes, query, click, typeText, press, queryAll, uploadFile,
    waitForNavigation. calm_walk.
Qed.

Lemma calm_v2_questionLoop n p :
  calm jobId others (V2.questionLoop (R := among others) w n p).
Proof.
  induction n as [| k IH]; simpl; unfold query, click, queryAll; calm_walk.
Qed.

#[local] Hint Resolve calm_v2_questionLoop : calm.

Lemma calm_v2_answerFormQuestions p :
  calm jobId others (V2.answerFormQuestions (R := among others) w p).
Proof.
  unfold V2.answerFormQuestions, query, click, typeText, press, queryAll, uploadFile,
    waitForNavigation. calm_walk.
Qed.

Lemma calm_v2_fillDescription p d :
  calm jobId others (V2.fillDescription (R := among others) w p d).
Proof.
  unfold V2.fillDescription, query, click, typeText, press, queryAll, uploadFile,
    waitForNavigation. calm_walk.
Qed.

Lemma calm_v2_uploadPhotos p ph :
  calm jobId others (V2.uploadPhotos (R := among others) w p ph).
Proof.
  unfold V2.uploadPhotos, query, click, typeText, press, queryAll, uploadFile,
    waitForNavigation. calm_walk.
Qed.

Lemma calm_v2_fillContactDetails p c :
  calm jobId others (V2.fillContactDetails (R := among others) w p c).
Proof.
  unfold V2.fillContactDetails, query, click, typeText, press, queryAll, uploadFile,
    waitForNavigation. calm_walk.
Qed.

End CalmV2.

#[export] Hint Resolve calm_v2_findAndClickButton calm_v2_fillCategory calm_v2_fillLocation
  calm_v2_clickGetQuotes calm_v2_answerFormQuestions calm_v2_fillDescription
  calm_v2_uploadPhotos calm_v2_fillContactDetails : calm.

(** ** submitOtp without a session *)

(** C3. For a job identifier with no session, [submitOtp] returns (it does
    not throw) a [failed] status whose message is "Session not found" and
    whose error detail names the missing session, and the whole state is
    left as it was: the session map is unchanged and no call reaches a
    browser. This holds in both listings. *)
Theorem submitOtp_unknown_job (w : World) (jobId otp : string) :
  (forall s : State V1.SessionData,
     activeSessions s !! jobId = None ->
     exists st, V1.submitOtp w jobId otp s = (Return st, s) /\
       js_jobId st = jobId /\ js_status st = failed /\
       js_message st = "Session not found" /\
       js_error st = Some "No active session for this job" /\
       js_hipagesJobId st = None /\ js_hipagesJobUrl st = None) /\
  (forall s : State V2.SessionData,
     activeSessions s !! jobId = None ->
     exists st, V2.submitOtp w jobId otp s = (Return st, s) /\
       js_jobId st = jobId /\ js_status st = failed /\
       js_message st = "Session not found" /\
       js_error st = Some "No active session for this job ID" /\
       js_hipagesJobId st = None /\ js_hipagesJobUrl st = None).
Proof.
  split; intros s Hs.
  - unfold V1.submitOtp, bind, sessions_get. rewrite Hs. simpl.
    eexists. split; [reflexivity | by repeat split].
  - unfold V2.submitOtp, bind, sessions_get. rewrite Hs. simpl.
    eexists. split; [reflexivity | by repeat split].
Qed.

Lemma submitOtp_unknown_job_witness :
  (exists st, V1.submitOtp bare_page "job-1" "123456" empty_state = (Return st, empty_state) /\
     js_status st = failed /\ js_message st = "Session not found") /\
  (exists st, V2.submitOtp bare_page "job-1" "123456" empty_state = (Return st, empty_state) /\
     js_status st = failed /\ js_message st = "Session not found").
Proof.
  destruct (submitOtp_unknown_job bare_page "job-1" "123456") as [H1 H2].
  split.
  - destruct (H1 empty_state) as (st & E & _ & F & G & _); [reflexivity |].
    exists st. by repeat split.
  - destruct (H2 empty_state) as (st & E & _ & F & G & _); [reflexivity |].
    exists st. by repeat split.
Defined.

(** ** Statuses handed to the callback *)

Section EmitsFacts.

Context {Session : Type}.

Implicit Types P Q R : gmap string Session -> Prop.

Lemma emits_quiet {A} P (m : M Session A) : quiet m -> emits P m [] P.
Proof.
  intros Hm s HP. destruct (Hm s) as [Hs Hu _]. exists [].
  split; [by rewrite Hu, app_nil_r |].
  destruct (m s).1; [by rewrite Hs | done | done].
Qed.

Lemma emits_calm {A} jobId others P (m : M Session A) :
  calm jobId others m -> entry_only jobId others P -> emits P m [] P.
Proof.
  intros Hm HP s Hs. destruct (Hm s) as [He Hu _]. exists [].
  split; [by rewrite Hu, app_nil_r |].
  destruct (m s).1; [| done | done]. split; [done |]. by eapply HP.
Qed.

Lemma entry_only_true jobId (others : nat -> gmap string Session -> gmap string Session) :
  entry_only jobId others (fun _ => True).
Proof. done. Qed.

Lemma emits_ret {A} P (a : A) : emits P (ret a) [] P.
Proof. apply emits_quiet, quiet_ret. Qed.

Lemma emits_notify P cb u : emits P (notify cb u) [js_status u] P.
Proof.
  intros s HP. exists [u]. split; [done |].
  simpl. by destruct (cb u).
Qed.

Lemma emits_sessions_get P jobId : emits P (sessions_get jobId) [] P.
Proof. intros s HP. exists []. split; [by rewrite app_nil_r | done]. Qed.

Lemma emits_sessions_set P Q jobId v :
  (forall m, P m -> Q (<[jobId := v]> m)) ->
  emits P (sessions_set jobId v) [] Q.
Proof. intros H s HP. exists []. split; [by rewrite app_nil_r | simpl; auto]. Qed.

Lemma emits_sessions_delete P jobId :
  emits P (sessions_delete jobId) [] (fun _ => True).
Proof. intros s HP. exists []. split; [by rewrite app_nil_r | done]. Qed.

Lemma emits_bind {A B} P R Q (m : M Session A) (f : A -> M Session B) p1 p2 :
  emits P m p1 R -> (forall a, emits R (f a) p2 Q) -> emits P (bind m f) (p1 ++ p2) Q.
Proof.
  intros Hm Hf s HP. destruct (Hm s HP) as (new1 & E1 & H1).
  unfold bind. destruct (m s) as [[a | e |] s1]; simpl in *.
  - destruct H1 as [H1 HR]. destruct (Hf a s1 HR) as (new2 & E2 & H2).
    exists (new1 ++ new2). split; [by rewrite E2, E1, app_assoc |].
    rewrite map_app, H1.
    destruct (f a s1).1; [by destruct H2 as [-> ?] | by apply prefix_app ..].
  - exists new1. split; [done | by apply prefix_app_r].
  - exists new1. split; [done | by apply prefix_app_r].
Qed.

Lemma emits_post {A} P Q (m : M Session A) p :
  emits P m p Q -> emits P m p (fun _ => True).
Proof.
  intros H s HP. destruct (H s HP) as (new & E & H1). exists new. split; [done |].
  destruct (m s).1; [by destruct H1 | done | done].
Qed.

(** The shape of what a [try]/[catch] whose handler reports [failed] hands
    to the callback: a prefix of the plan, then at most one [failed]. *)
Lemma emits_try_assign {A B} P R Q (m1 : M Session A) (m2 : A -> M Session B) h p1 p2 :
  emits P m1 p1 R ->
  (forall a, emits R (m2 a) p2 Q) ->
  (forall b e, emits (fun _ => True) (h b e) [failed] (fun _ => True)) ->
  forall s, P (activeSessions s) ->
    exists new pre,
      updates (try_assign m1 m2 h s).2 = updates s ++ new /\
      pre `prefix_of` (p1 ++ p2) /\
      (map js_status new = pre \/ map js_status new = pre ++ [failed]).
Proof.
  intros H1 H2 Hh s HP. destruct (H1 s HP) as (new1 & E1 & G1).
  assert (Hfail : forall b e s1 (pre : list HiPagesJobStatus),
    updates s1 = updates s ++ pre ->
    map js_status pre `prefix_of` (p1 ++ p2) ->
    exists new pre',
      updates (h b e s1).2 = updates s ++ new /\
      pre' `prefix_of` (p1 ++ p2) /\
      (map js_status new = pre' \/ map js_status new = pre' ++ [failed])).
  { intros b e s1 pre E Hpre.
    destruct (Hh b e s1 I) as (newh & Eh & Gh).
    exists (pre ++ newh), (map js_status pre).
    split; [by rewrite Eh, E, app_assoc |]. split; [done |].
    rewrite map_app.
    assert (map js_status newh `prefix_of` [failed]) as Hp.
    { destruct (h b e s1).1; [by destruct Gh as [-> _] | done | done]. }
    destruct (map js_status newh) as [| x r] eqn:Em.
    - left. by rewrite app_nil_r.
    - right. pose proof (prefix_cons_inv_1 _ _ _ _ Hp) as ->.
      apply prefix_cons_inv_2, prefix_nil_inv in Hp. by subst r. }
  unfold try_assign. destruct (m1 s) as [[a | e |] s1]; simpl in *.
  - destruct G1 as [G1 HR]. destruct (H2 a s1 HR) as (new2 & E2 & G2).
    unfold try_catch. destruct (m2 a s1) as [[b | e |] s2]; simpl in *.
    + exists (new1 ++ new2), (p1 ++ p2). split; [by rewrite E2, E1, app_assoc |].
      split; [done |]. left. rewrite map_app, G1. by destruct G2 as [-> _].
    + apply (Hfail (Some a) e s2 (new1 ++ new2)); [by rewrite E2, E1, app_assoc |].
      rewrite map_app, G1. by apply prefix_app.
    + exists (new1 ++ new2), (map js_status (new1 ++ new2)).
      split; [by rewrite E2, E1, app_assoc |].
      split; [| by left]. rewrite map_app, G1. by apply prefix_app.
  - apply (Hfail None e s1 new1); [done | by apply prefix_app_r].
  - exists new1, (map js_status new1). split; [done |].
    split; [by apply prefix_app_r | by left].
Qed.

End EmitsFacts.

(** *** Sequences that follow the stage order *)

Lemma follows_prefix path l1 l2 :
  follows path (l1 ++ l2) = true -> follows path l1 = true.
Proof.
  revert path. induction l1 as [| x r IH]; intros path H; [done |].
  simpl in *. destruct (decide (x = failed)).
  - destruct r; [done |]. simpl in H. discriminate.
  - destruct (seek x path); [eauto | done].
Qed.

Lemma follows_then_failed path l :
  failed ∉ l -> follows path l = true -> follows path (l ++ [failed]) = true.
Proof.
  revert path. induction l as [| x r IH]; intros path Hl H; [done |].
  apply not_elem_of_cons in Hl as [Hx Hr].
  simpl in *. destruct (decide (x = failed)); [congruence |].
  destruct (seek x path); [eauto | done].
Qed.

Lemma follows_failed_last path l pre post :
  follows path l = true -> l = pre ++ failed :: post -> post = [].
Proof.
  revert path l. induction pre as [| x r IH]; intros path l H ->; simpl in H.
  - by destruct post.
  - destruct (decide (x = failed)).
    + destruct r; discriminate.
    + destruct (seek x path); [eauto | done].
Qed.

Lemma plan_shape_monotonic plan pre l :
  monotonic plan = true -> failed ∉ plan -> pre `prefix_of` plan ->
  l = pre \/ l = pre ++ [failed] -> monotonic l = true.
Proof.
  intros Hm Hf [k ->] Hl.
  assert (monotonic pre = true) by (by eapply follows_prefix).
  destruct Hl as [-> | ->]; [done |].
  apply follows_then_failed; [| done].
  intros Hin. apply Hf. apply elem_of_app. by left.
Qed.

Lemma emits_sessions_set_any {Session} (P : gmap string Session -> Prop) jobId v :
  emits P (sessions_set jobId v) [] (fun _ => True).
Proof. by apply emits_sessions_set. Qed.

#[export] Hint Resolve entry_only_true : calm.

(** One step through a run of job [j] among the calls [o]. *)
Ltac emits_step j o :=
  lazymatch goal with
  | |- emits _ (notify _ _) _ _ => eapply emits_notify
  | |- emits _ (sessions_get _) _ _ => eapply emits_sessions_get
  | |- emits _ (sessions_delete _) _ _ => eapply emits_sessions_delete
  | |- emits _ (sessions_set _ _) _ _ => eapply emits_sessions_set_any
  | |- emits _ (ret _) _ _ => eapply emits_ret
  | |- emits _ (match ?x with _ => _ end) _ _ => destruct x
  | |- emits _ (bind _ _) _ _ => eapply emits_bind
  | |- emits _ _ _ _ =>
      eapply (emits_calm j o); [ solve [ calm_walk ] | solve [ eauto with calm ] ]
  end.

Ltac emits_walk j o := repeat first [ progress intros | emits_step j o ].

Lemma emits_plan_eq {Session A} (P Q : gmap string Session -> Prop) (m : M Session A)
    (p plan : list StatusName) :
  emits P m p Q -> p = plan -> emits P m plan Q.
Proof. by intros H <-. Qed.

(** Solves an [emits] goal whose plan is given. *)
Ltac emits_fixed j o := intros; eapply emits_plan_eq; [ emits_walk j o | reflexivity ].

Lemma try_assign_shape {Session A B} (P R Q : gmap string Session -> Prop)
    (m1 : M Session A) (m2 : A -> M Session B) (h : option A -> Thrown -> M Session B)
    (p1 p2 plan : list StatusName) (s : State Session) :
  emits P m1 p1 R ->
  (forall a, emits R (m2 a) p2 Q) ->
  (forall b e, emits (fun _ => True) (h b e) [failed] (fun _ => True)) ->
  p1 ++ p2 = plan ->
  P (activeSessions s) ->
  exists pre : list StatusName,
    pre `prefix_of` plan /\
    let l := map js_status (new_updates s (try_assign m1 m2 h s).2) in
    l = pre \/ l = pre ++ [failed].
Proof.
  intros H1 H2 Hh <- HP.
  destruct (emits_try_assign _ _ _ _ _ _ _ _ H1 H2 Hh s HP) as (new & pre & E & Hpre & Hl).
  exists pre. split; [exact Hpre |].
  unfold new_updates. simpl. rewrite E, drop_app_length. exact Hl.
Qed.

(** What [startJobPosting] of the first listing hands to the callback: a
    prefix of its plan, then [failed] if the run failed. *)
(** What [startJobPosting] of the first listing hands to the callback,
    whatever the other calls do meanwhile. *)
Lemma startJobPosting_v1_plan w others jobId jobData cb (s : State V1.SessionData) :
  exists pre : list StatusName,
    pre `prefix_of` plan_v1 (bool_decide (is_Some (V1.wantsPhotos jobData))) /\
    let l := map js_status
               (new_updates s
                  (V1.startJobPosting (R := among others) w jobId jobData cb s).2) in
    l = pre \/ l = pre ++ [failed].
Proof.
  unfold V1.startJobPosting.
  destruct (V1.wantsPhotos jobData) as [p |];
    (eapply (try_assign_shape (fun _ => True) (fun _ => True) (fun _ => True));
     [ emits_walk jobId others | emits_walk jobId others
     | intros [b |] e; emits_fixed jobId others | reflexivity | exact I ]).
Qed.

Section EmitsV2.

Variables (jobId : string) (cb : Callback).

Lemma entry_only_tracks others x : spares jobId others -> entry_only jobId others (tracks jobId x).
Proof.
  intros Hsp m m' Hm (session & Hs & Hx). exists session. by rewrite (Hm Hsp).
Qed.

Lemma emits_updateStatus_first x msg :
  emits (fun _ => True)
    (V2.updateStatus jobId cb {| V2.p_status := Some x; V2.p_message := msg |})
    [x] (fun _ => True).
Proof.
  intros s _. unfold V2.updateStatus, bind, sessions_get, sessions_set, notify.
  destruct (activeSessions s !! jobId) as [session |]; simpl;
    (eexists [_]; split; [reflexivity |]); by destruct (cb _).
Qed.

Lemma emits_updateStatus_some y x msg :
  emits (tracks jobId y)
    (V2.updateStatus jobId cb {| V2.p_status := Some x; V2.p_message := msg |})
    [x] (tracks jobId x).
Proof.
  intros s (session & Hs & _).
  unfold V2.updateStatus, bind, sessions_get, sessions_set, notify.
  rewrite Hs. simpl. eexists [_]. split; [reflexivity |].
  destruct (cb _); [done |]. simpl. split; [done |].
  eexists. by rewrite lookup_insert_eq.
Qed.

Lemma emits_updateStatus_none x msg :
  emits (tracks jobId x)
    (V2.updateStatus jobId cb {| V2.p_status := None; V2.p_message := msg |})
    [x] (tracks jobId x).
Proof.
  intros s (session & Hs & Hx).
  unfold V2.updateStatus, bind, sessions_get, sessions_set, notify.
  rewrite Hs. simpl. eexists [_]. split; [reflexivity |].
  destruct (cb _); simpl; [by rewrite Hx |]. split; [by rewrite Hx |].
  eexists. by rewrite lookup_insert_eq.
Qed.

Lemma emits_sessions_set_tracks (P : gmap string V2.SessionData -> Prop) v :
  emits P (sessions_set jobId v) [] (tracks jobId (js_status (V2.status v))).
Proof.
  apply emits_sessions_set. intros m _. exists v. by rewrite lookup_insert_eq.
Qed.

End EmitsV2.

#[export] Hint Resolve entry_only_tracks : calm.

Ltac emits_step_v2 j o :=
  lazymatch goal with
  | |- emits (tracks _ _) (V2.updateStatus _ _ {| V2.p_status := Some _; V2.p_message := _ |}) _ _ =>
      eapply emits_updateStatus_some
  | |- emits (tracks _ _) (V2.updateStatus _ _ {| V2.p_status := None; V2.p_message := _ |}) _ _ =>
      eapply emits_updateStatus_none
  | |- emits (fun _ => True) (V2.updateStatus _ _ _) _ _ => eapply emits_updateStatus_first
  | |- emits _ (sessions_set _ _) _ _ => eapply emits_sessions_set_tracks
  | |- _ => emits_step j o
  end.

Ltac emits_walk_v2 j o := repeat first [ progress intros | emits_step_v2 j o ].

(** What [startJobPosting] of the second listing hands to the callback
    when the other calls spare the session of the job. *)
Lemma startJobPosting_v2_plan w others jobId jobData cb (s : State V2.SessionData) :
  spares jobId others ->
  exists pre : list StatusName,
    pre `prefix_of` plan_v2 (bool_decide (is_Some (V2.wantsPhotos jobData))) /\
    let l := map js_status
               (new_updates s
                  (V2.startJobPosting (R := among others) w jobId jobData cb s).2) in
    l = pre \/ l = pre ++ [failed].
Proof.
  intros Hsp. unfold V2.startJobPosting. cbv zeta.
  destruct (V2.wantsPhotos jobData) as [p |];
    (eapply (try_assign_shape (fun _ => True) (fun _ => True));
     [ emits_walk_v2 jobId others | emits_walk_v2 jobId others
     | intros [b |] e; emits_fixed jobId others | reflexivity | exact I ]).
Qed.

Lemma plans_monotonic b :
  (monotonic (plan_v1 b) = true /\ failed ∉ plan_v1 b) /\
  (monotonic (plan_v2 b) = true /\ failed ∉ plan_v2 b).
Proof.
  destruct b; (split; (split; [reflexivity | apply (bool_decide_unpack _); reflexivity])).
Qed.

(** ** Order of the status updates *)

(** X24. The statuses that one run of [startJobPosting] hands to the
    callback follow the stage order pending, filling_form,
    uploading_photos, filling_form, awaiting_otp, submitting, completed:
    they can be placed on it at positions that never decrease, and a
    [failed] update, when there is one, is the last update of the run.
    In the first listing this holds whatever the other calls do to the
    session map while the run is suspended; in the second listing it
    holds when they leave the session of the job alone. *)
Theorem status_updates_monotonic (w : World) (jobId : string)
    (jobData : HiPagesJobRequest) (cb : Callback) :
  (forall others (s : State V1.SessionData),
     let l := map js_status
                (new_updates s
                   (V1.startJobPosting (R := among others) w jobId jobData cb s).2) in
     monotonic l = true /\
     (forall pre post, l = pre ++ failed :: post -> post = [])) /\
  (forall others (s : State V2.SessionData),
     spares jobId others ->
     let l := map js_status
                (new_updates s
                   (V2.startJobPosting (R := among others) w jobId jobData cb s).2) in
     monotonic l = true /\
     (forall pre post, l = pre ++ failed :: post -> post = [])).
Proof.
  split.
  - intros others s l.
    assert (monotonic l = true) as Hm.
    { destruct (startJobPosting_v1_plan w others jobId jobData cb s) as (pre & Hpre & Hl).
      destruct (plans_monotonic (bool_decide (is_Some (V1.wantsPhotos jobData))))
        as [[H1 H2] _].
      eapply plan_shape_monotonic; [exact H1 | exact H2 | exact Hpre | exact Hl]. }
    split; [exact Hm |]. intros pre post E. by eapply follows_failed_last.
  - intros others s Hsp l.
    assert (monotonic l = true) as Hm.
    { destruct (startJobPosting_v2_plan w others jobId jobData cb s Hsp) as (pre & Hpre & Hl).
      destruct (plans_monotonic (bool_decide (is_Some (V2.wantsPhotos jobData))))
        as [_ [H1 H2]].
      eapply plan_shape_monotonic; [exact H1 | exact H2 | exact Hpre | exact Hl]. }
    split; [exact Hm |]. intros pre post E. by eapply follows_failed_last.
Qed.

Lemma cancelled_during_spares {Session} (jobId j : string) n :
  j <> jobId -> spares (Session := Session) jobId (cancelled_during j n).
Proof.
  intros Hj k m. unfold cancelled_during. destruct (k =? n)%nat; [| done].
  by rewrite lookup_delete_ne.
Qed.

Lemma status_updates_monotonic_witness :
  let others := cancelled_during "job-2" 14 in
  let l1 := map js_status
              (new_updates empty_state
                 (V1.startJobPosting (R := among (cancelled_during "job-1" 14))
                    (closed_from 14 15) "job-1" (leaking_tap None) never_throws
                    empty_state).2) in
  let l2 := map js_status
              (new_updates empty_state
                 (V2.startJobPosting (R := among others) (closed_from 14 15) "job-1"
                    (leaking_tap None) never_throws empty_state).2) in
  spares "job-1" others /\
  monotonic l1 = true /\ monotonic l2 = true /\
  l2 = [pending; filling_form; filling_form; filling_form; failed].
Proof.
  cbv zeta.
  destruct (status_updates_monotonic (closed_from 14 15) "job-1" (leaking_tap None)
              never_throws) as [H1 H2].
  split; [by apply cancelled_during_spares |].
  split; [apply (H1 (cancelled_during "job-1" 14) empty_state) |].
  split; [apply (H2 (cancelled_during "job-2" 14) empty_state);
          by apply cancelled_during_spares |].
  vm_compute. reflexivity.
Defined.

(** C7. The claim fails on the second listing. A run of [startJobPosting]
    is suspended in the last [delay] of [fillCategory] (line 609) when a
    [cancelSession] for the same job, called meanwhile, closes the browser
    and removes the session (lines 578-579). The run resumes, and
    [updateStatus] with the message "Filling location..." (line 472) finds
    no session, falls back on the status [pending] (lines 419-423) and
    hands it to the callback, after two [filling_form] updates. The next
    call on the page is rejected and the run ends with [failed]. *)
Theorem status_update_reverts :
  let r := V2.startJobPosting (R := among (cancelled_during "job-1" 14))
             (closed_from 14 15) "job-1" (leaking_tap None) never_throws empty_state in
  r.1 = Return tt /\
  trace r.2 !! 13 = Some (Delay 500) /\
  map js_status (new_updates empty_state r.2)
    = [pending; filling_form; filling_form; pending; failed] /\
  map js_message (new_updates empty_state r.2)
    = ["Launching browser..."; "Navigating to HiPages..."; "Filling category...";
       "Filling location..."; "Failed to post job"] /\
  monotonic (map js_status (new_updates empty_state r.2)) = false.
Proof. vm_compute. repeat split. Qed.

(** ** Temporary files of the photo upload *)

Section PhotoFacts.

Context {Session : Type}.
Variable w : World.
Context {R : Resumption Session}.
Hypothesis R_trace : own_trace R.

Implicit Types s : State Session.

Lemma new_calls_app s (s' : State Session) evs :
  trace s' = trace s ++ evs -> new_calls s s' = evs.
Proof. intros E. unfold new_calls. by rewrite E, drop_app_length. Qed.

(** One round of the [finally] loop: the error of [unlinkSync] is
    swallowed; the file is gone when there was none or the call removed
    it. *)
Lemma unlink_round (f : string) s :
  let r := swallow (unlinkSync w f) s in
  r.1 = Return tt /\
  trace r.2 = trace s ++ [UnlinkSync f] /\
  files r.2 ⊆ files s /\
  (w_unlink w (length (trace s)) = None -> f ∉ files r.2).
Proof.
  unfold swallow, unlinkSync. case_bool_decide as Hf; simpl.
  - destruct (w_unlink w (length (trace s))) as [e |]; simpl.
    + repeat split; [done |]. discriminate.
    + repeat split; [set_solver | set_solver].
  - repeat split; [done |]. done.
Qed.

Lemma cleanup_runs (l : list string) s :
  let r := for_each l (fun f => swallow (unlinkSync w f)) s in
  r.1 = Return tt /\
  trace r.2 = trace s ++ map UnlinkSync l /\
  files r.2 ⊆ files s /\
  forall k p, l !! k = Some p -> w_unlink w (length (trace s) + k) = None -> p ∉ files r.2.
Proof.
  revert s. induction l as [| f r IH]; intros s.
  - simpl. repeat split; [by rewrite app_nil_r | done |]. intros k p Hk. by destruct k.
  - destruct (unlink_round f s) as (E1 & T1 & F1 & G1).
    cbv zeta. cbn [for_each]. unfold bind. destruct (swallow (unlinkSync w f) s) as [o s1]; simpl in *. subst o.
    destruct (IH s1) as (E2 & T2 & F2 & G2).
    split; [done |]. split; [by rewrite T2, T1, <- app_assoc |].
    split; [by etrans |].
    intros [| k] p Hk Hw; simpl in Hk.
    + injection Hk as <-. rewrite Nat.add_0_r in Hw. specialize (G1 Hw). set_solver.
    + apply (G2 k p Hk). rewrite T1, length_app. simpl.
      by replace (length (trace s) + 1 + k) with (length (trace s) + S k) by lia.
Qed.

Lemma try_steps_tidy (steps : list (list string -> M Session (list string))) :
  Forall (tidy_step w) steps ->
  forall l s, exists evs,
    trace (try_steps steps l s).2 = trace s ++ evs /\
    l ⊆ (try_steps steps l s).1.2 /\
    forall i p, evs !! i = Some (WriteFileSync p) ->
      w_write w (length (trace s) + i) = Written -> p ∈ (try_steps steps l s).1.2.
Proof.
  induction 1 as [| st rest Hst _ IH]; intros l s; simpl.
  - exists []. split; [by rewrite app_nil_r |]. split; [done |].
    intros i p Hi. by rewrite lookup_nil in Hi.
  - destruct (Hst l s) as (evs1 & E1 & H1).
    destruct (st l s) as [[l' | e |] s1]; simpl in *.
    + destruct H1 as [Hsub Hw].
      destruct (IH l' s1) as (evs2 & E2 & Hsub2 & Hw2).
      exists (evs1 ++ evs2). split; [by rewrite E2, E1, app_assoc |].
      split; [by etrans |].
      intros i p Hi Hp. apply lookup_app_Some in Hi as [Hi | [Hge Hi]].
      * by apply Hsub2, (Hw i p).
      * apply (Hw2 _ p Hi). rewrite E1, length_app.
        by replace (length (trace s) + length evs1 + (i - length evs1))
          with (length (trace s) + i) by lia.
    + exists evs1. split; [done |]. split; [done |]. intros i p Hi Hp. by destruct (H1 i p Hi).
    + exists evs1. split; [done |]. split; [done |]. intros i p Hi Hp. by destruct (H1 i p Hi).
Qed.

(** A [try] of tidy steps whose [finally] unlinks the listed files has
    cleaned up when it is left, however the [try] ended. *)
Lemma try_finally_cleans (steps : list (list string -> M Session (list string))) s :
  Forall (tidy_step w) steps ->
  let r := try_finally [] steps (fun l => for_each l (fun f => swallow (unlinkSync w f))) s in
  exists evs, trace r.2 = trace s ++ evs /\
    (r.1 <> Pending -> cleans_up w (length (trace s)) evs r.2).
Proof.
  intros Hs. destruct (try_steps_tidy steps Hs [] s) as (evs & E & _ & Hw).
  unfold try_finally. cbv zeta.
  destruct (try_steps steps [] s) as [[o l] s1]; simpl in *.
  destruct (cleanup_runs l s1) as (E2 & T2 & _ & G2).
  destruct (for_each l (fun f => swallow (unlinkSync w f)) s1) as [o2 s2]; simpl in *. subst o2.
  assert (cleans_up w (length (trace s)) (evs ++ map UnlinkSync l) s2) as Hc.
  { intros i p Hi Hp. apply lookup_app_Some in Hi as [Hi | [Hge Hi]].
    - pose proof (lookup_lt_Some _ _ _ Hi) as Hlt.
      apply (Hw i p Hi), list_elem_of_lookup in Hp as [k Hk].
      exists (length evs + k). split; [lia |]. split.
      + rewrite lookup_app_r by lia.
        replace (length evs + k - length evs) with k by lia.
        by rewrite list_lookup_fmap, Hk.
      + intros Hu. apply (G2 k p Hk). rewrite E, length_app.
        by rewrite <- Nat.add_assoc.
    - rewrite list_lookup_fmap in Hi. by destruct (l !! (i - length evs)). }
  destruct o as [[] | e |]; simpl.
  - exists (evs ++ map UnlinkSync l). split; [by rewrite T2, E, app_assoc | done].
  - exists (evs ++ map UnlinkSync l). split; [by rewrite T2, E, app_assoc | done].
  - exists evs. split; [done |]. intros Hr. by destruct Hr.
Qed.

Lemma photo_block_tidy fi (c1 c2 : bool) :
  Forall (tidy_step w)
    [ (fun tempFiles : list string =>
         if c1 then
           bind (now w) (fun t =>
             let tempPath := tmpPath w ("hipages_original_" +:+ pretty t +:+ ".jpg") in
             bind (writeFileSync w tempPath) (fun _ => ret (tempFiles ++ [tempPath])))
         else ret tempFiles);
      (fun tempFiles : list string =>
         if c2 then
           bind (now w) (fun t =>
             let tempPath := tmpPath w ("hipages_viz_" +:+ pretty t +:+ ".jpg") in
             bind (writeFileSync w tempPath) (fun _ => ret (tempFiles ++ [tempPath])))
         else ret tempFiles);
      (fun tempFiles : list string =>
         if (0 <? List.length tempFiles)%nat then
           bind (uploadFile w fi tempFiles) (fun _ =>
             bind (delay 2000) (fun _ => ret tempFiles))
         else ret tempFiles) ].
Proof.
  assert (forall name, tidy_step (Session := Session) w (fun tempFiles : list string =>
    bind (now w) (fun t =>
      let tempPath := tmpPath w (name t) in
      bind (writeFileSync w tempPath) (fun _ => ret (tempFiles ++ [tempPath])))))
    as Hwrite.
  { intros name l s. unfold bind, now, writeFileSync, ret. simpl.
    rewrite length_app. simpl.
    destruct (w_write w (length (trace s) + 1)) as [| e created] eqn:Ew; simpl;
      (eexists [_; _]; split; [by rewrite <- app_assoc |]).
    - split; [set_solver |]. intros [| [| i]] p Hi Hp; simpl in Hi; [done | | done].
      injection Hi as <-. set_solver.
    - intros [| [| i]] p Hi; simpl in Hi; [done | | done]. by rewrite Ew. }
  assert (forall (l : list string) (s : State Session), exists evs : list Call,
    trace s = trace s ++ evs /\ l ⊆ l /\
    forall i p, evs !! i = Some (WriteFileSync p) ->
      w_write w (length (trace s) + i) = Written -> p ∈ l) as Hskip.
  { intros l s. exists []. split; [by rewrite app_nil_r |]. split; [done |].
    intros i p Hi. by rewrite lookup_nil in Hi. }
  repeat apply Forall_cons_2; [| | | apply Forall_nil_2].
  - destruct c1; [apply Hwrite | intros l s; apply Hskip].
  - destruct c2; [apply Hwrite | intros l s; apply Hskip].
  - intros l s. destruct (0 <? List.length l)%nat; [| apply Hskip].
    unfold bind, uploadFile, call, delay, ret. cbn [fst snd].
    destruct (w_unit w (length (trace s))) as [[] | e |]; cbn [fst snd].
    + eexists [_; _]. split.
      { rewrite R_trace. cbn [trace add_call]. rewrite R_trace. cbn [trace add_call].
        by rewrite <- app_assoc. }
      split; [done |]. intros [| [| i]] p Hi; simpl in Hi; done.
    + eexists [_]. split; [by rewrite R_trace |].
      intros [| i] p Hi; simpl in Hi; done.
    + eexists [_]. split; [by rewrite R_trace |].
      intros [| i] p Hi; simpl in Hi; done.
Qed.

Lemma photo_block_cleans fi c1 c2 s :
  let r := photo_block w fi c1 c2 s in
  exists evs, trace r.2 = trace s ++ evs /\
    (r.1 <> Pending -> cleans_up w (length (trace s)) evs r.2).
Proof. apply try_finally_cleans, photo_block_tidy. Qed.

(** The stage: the file input is looked up, then the block runs. *)
Lemma upload_stage_cleans page (c1 c2 : bool) s :
  let r := bind (query w page "input[type='file']") (fun fileInput =>
             match fileInput with
             | None => ret tt
             | Some fileInput => photo_block w fileInput c1 c2
             end) s in
  r.1 <> Pending ->
  cleans_up w (length (trace s)) (new_calls s r.2) r.2.
Proof.
  unfold bind, query, call. cbn [fst snd].
  set (q := Query page "input[type='file']").
  set (s1 := resume (add_call q s)).
  assert (trace s1 = trace s ++ [q]) as T1 by (subst s1; by rewrite R_trace).
  destruct (w_elem w (length (trace s))) as [[fi |] | e |]; cbn [fst snd].
  - intros Hr. destruct (photo_block_cleans fi c1 c2 s1) as (evs & E2 & Hc).
    specialize (Hc Hr).
    erewrite new_calls_app; [| rewrite E2, T1, <- app_assoc; reflexivity].
    intros [| i] p Hi Hp; simpl in Hi; [done |].
    destruct (Hc i p Hi) as (j & Hlt & Hj & Hg).
    { rewrite T1, length_app. simpl.
      by replace (length (trace s) + 1 + i) with (length (trace s) + S i) by lia. }
    exists (S j). split; [lia |]. split; [done |].
    intros Hu. apply Hg. rewrite T1, length_app. simpl.
    by replace (length (trace s) + 1 + j) with (length (trace s) + S j) by lia.
  - intros _. erewrite new_calls_app; [| exact T1].
    intros [| i] p Hi; simpl in Hi; done.
  - intros _. erewrite new_calls_app; [| exact T1].
    intros [| i] p Hi; simpl in Hi; done.
  - intros Hr. by destruct Hr.
Qed.

End PhotoFacts.

Lemma uploadPhotos_v1_block {R : Resumption V1.SessionData} w page ph :
  V1.uploadPhotos w page ph =
  bind (query w page "input[type='file']") (fun fileInput =>
    match fileInput with
    | None => ret tt
    | Some fileInput =>
        photo_block w fileInput (V1.isDataUri (original ph)) (V1.isDataUri (visualization ph))
    end).
Proof. reflexivity. Qed.

Lemma uploadPhotos_v2_block {R : Resumption V2.SessionData} w page ph :
  V2.uploadPhotos w page ph =
  bind (query w page "input[type='file']") (fun fileInput =>
    match fileInput with
    | None => ret tt
    | Some fileInput =>
        photo_block w fileInput (truthy_opt (original ph)) (truthy_opt (visualization ph))
    end).
Proof. reflexivity. Qed.

(** C6, amended. In both listings, and whatever happens elsewhere while
    the stage is suspended (to the session map, to the callback log, to
    the filesystem): when the photo-upload stage is left, by a return or
    by a throw, every temporary file whose write completed has been
    passed to [unlinkSync] later in the stage, whether the upload step
    resolved or rejected, and is gone from the filesystem unless that
    [unlinkSync] itself threw (the stage ignores the error). Nothing is
    said of a file whose write threw. *)
Theorem uploadPhotos_unlinks_temp_files (w : World) (page : Page) (ph : Photos) :
  (forall (R : Resumption V1.SessionData) (s : State V1.SessionData),
     own_trace R ->
     let r := V1.uploadPhotos (R := R) w page ph s in
     r.1 <> Pending ->
     cleans_up w (length (trace s)) (new_calls s r.2) r.2) /\
  (forall (R : Resumption V2.SessionData) (s : State V2.SessionData),
     own_trace R ->
     let r := V2.uploadPhotos (R := R) w page ph s in
     r.1 <> Pending ->
     cleans_up w (length (trace s)) (new_calls s r.2) r.2).
Proof.
  split; intros R s HR.
  - rewrite uploadPhotos_v1_block. by apply upload_stage_cleans.
  - rewrite uploadPhotos_v2_block. by apply upload_stage_cleans.
Qed.

(** While the upload is awaited, the session of the job is removed and a
    file of the same name as the first temporary file is written again by
    another run. *)
Lemma uploadPhotos_unlinks_temp_files_witness :
  let R : Resumption V1.SessionData := fun s =>
    set_files ({["/tmp/hipages_original_1730000000000.jpg"]} ∪ files s)
      (set_sessions (delete "job-1" (activeSessions s)) s) in
  let r := V1.uploadPhotos (R := R) upload_rejected 1 two_photos empty_state in
  own_trace R /\
  r.1 = Throw (ErrorObj "Protocol error (DOM.setFileInputFiles): Target closed") /\
  ("/tmp/hipages_original_1730000000000.jpg" ∉ files r.2) /\
  ("/tmp/hipages_viz_1730000000000.jpg" ∉ files r.2).
Proof.
  cbv zeta.
  set (R := (fun s => set_files ({["/tmp/hipages_original_1730000000000.jpg"]} ∪ files s)
                        (set_sessions (delete "job-1" (activeSessions s)) s))
            : Resumption V1.SessionData).
  assert (own_trace R) as HR by (by intros s).
  pose proof (proj1 (uploadPhotos_unlinks_temp_files upload_rejected 1 two_photos)
                R empty_state HR) as H.
  cbv zeta in H.
  assert ((V1.uploadPhotos (R := R) upload_rejected 1 two_photos empty_state).1 <> Pending)
    as Hp by (vm_compute; discriminate).
  specialize (H Hp).
  split; [exact HR |].
  split; [vm_compute; reflexivity |]. split.
  - destruct (H 2 "/tmp/hipages_original_1730000000000.jpg") as (j & _ & _ & Hg);
      [vm_compute; reflexivity | reflexivity |].
    by apply Hg.
  - destruct (H 4 "/tmp/hipages_viz_1730000000000.jpg") as (j & _ & _ & Hg);
      [vm_compute; reflexivity | reflexivity |].
    by apply Hg.
Defined.

(** C6 as the spec states it, that no temporary file the stage created is
    left when the stage returns, fails when an [unlinkSync] throws: the
    upload resolves, the stage returns, and the file it wrote is still
    there. *)
Lemma uploadPhotos_leaves_temp_file :
  let r := V1.uploadPhotos unlink_refused 1 one_photo empty_state in
  r.1 = Return tt /\
  ~ (forall p, WriteFileSync p ∈ new_calls empty_state r.2 -> p ∉ files r.2).
Proof.
  cbv zeta. split; [vm_compute; reflexivity |].
  intros H. apply (H "/tmp/hipages_original_1730000000000.jpg");
    apply (bool_decide_unpack _); vm_compute; exact I.
Qed.

(** ** Runs in which every call resolves *)

Section WpFacts.

Context {Session : Type}.
Context {R : Resumption Session}.

Implicit Types s : State Session.

Lemma wp_ret {A} (a : A) (Q : Outcome A -> State Session -> Prop) s :
  Q (Return a) s -> wp (ret a) Q s.
Proof. done. Qed.

Lemma wp_bind {A B} (m : M Session A) (f : A -> M Session B) Q s :
  wp m (fun o s' =>
          match o with
          | Return a => wp (f a) Q s'
          | Throw e => Q (Throw e) s'
          | Pending => Q Pending s'
          end) s ->
  wp (bind m f) Q s.
Proof. unfold wp, bind. by destruct (m s) as [[a | e |] s1]. Qed.

Lemma wp_try_catch {A} (m : M Session A) h Q s :
  wp m (fun o s' =>
          match o with
          | Throw e => wp (h e) Q s'
          | _ => Q o s'
          end) s ->
  wp (try_catch m h) Q s.
Proof. unfold wp, try_catch. by destruct (m s) as [[a | e |] s1]. Qed.

Lemma wp_quiet_settled {A} (m : M Session A) (Q : Outcome A -> State Session -> Prop) s :
  quiet m -> settled m ->
  (forall a s', quiet_step s s' -> Q (Return a) s') ->
  wp m Q s.
Proof.
  intros Hq Hs HQ. unfold wp. destruct (Hs s) as [a Ha]. rewrite Ha.
  apply HQ, Hq.
Qed.

Lemma settled_ret {A} (a : A) : settled (Session := Session) (ret a).
Proof. intros s. by exists a. Qed.

Lemma settled_bind {A B} (m : M Session A) (f : A -> M Session B) :
  settled m -> (forall a, settled (f a)) -> settled (bind m f).
Proof.
  intros Hm Hf s. unfold bind. destruct (Hm s) as [a Ha].
  destruct (m s) as [o s1]; simpl in *; subst o. apply Hf.
Qed.

Lemma settled_swallow (m : M Session unit) : settled m -> settled (swallow m).
Proof.
  intros Hm s. unfold swallow. destruct (Hm s) as [a Ha].
  destruct (m s) as [o s1]; simpl in *; subst o. by exists a.
Qed.

Lemma settled_delay ms : settled (Session := Session) (delay ms).
Proof. intros s. by exists tt. Qed.

Lemma settled_url w p : settled (Session := Session) (url w p).
Proof. intros s. by eexists. Qed.

Section Settles.

Variable w : World.
Hypothesis Hw : settles w.

Lemma settled_call_unit c : settled (Session := Session) (call w c w_unit).
Proof. intros s. exists tt. unfold call. simpl. apply Hw. Qed.

Lemma settled_call_handle c : settled (Session := Session) (call w c w_handle).
Proof.
  intros s. destruct (Hw (length (trace s))) as (_ & [b Hb] & _).
  by exists b.
Qed.

Lemma settled_call_elem c : settled (Session := Session) (call w c w_elem).
Proof.
  intros s. destruct (Hw (length (trace s))) as (_ & _ & [b Hb] & _).
  by exists b.
Qed.

Lemma settled_call_elems c : settled (Session := Session) (call w c w_elems).
Proof.
  intros s. destruct (Hw (length (trace s))) as (_ & _ & _ & [b Hb] & _).
  by exists b.
Qed.

Lemma settled_call_text c : settled (Session := Session) (call w c w_text).
Proof.
  intros s. destruct (Hw (length (trace s))) as (_ & _ & _ & _ & [b Hb]).
  by exists b.
Qed.

End Settles.

End WpFacts.

Create HintDb settled discriminated.

#[export] Hint Resolve settled_ret settled_delay settled_url : settled.

Ltac settled_walk :=
  repeat first
    [ progress intros
    | solve [ eauto with settled ]
    | apply settled_bind
    | apply settled_swallow
    | apply settled_call_unit
    | apply settled_call_handle
    | apply settled_call_elem
    | apply settled_call_elems
    | apply settled_call_text
    | assumption
    | match goal with
      | |- settled (match ?x with _ => _ end) => destruct x
      | |- settled (if ?x then _ else _) => destruct x
      end ].

Section SettledV2.

Variable w : World.
Context {R : Resumption V2.SessionData}.
Hypothesis Hw : settles w.

Lemma settled_v2_clickFirstMatching p t l : settled (V2.clickFirstMatching w p t l).
Proof. induction l as [| b r IH]; simpl; settled_walk. Qed.

Lemma settled_v2_findAndClickButton p l : settled (V2.findAndClickButton w p l).
Proof.
  induction l as [| t r IH]; simpl; settled_walk.
  apply settled_v2_clickFirstMatching.
Qed.

End SettledV2.

(** * Further facts *)

(** ** More about call traces *)

Section TraceFacts.

Context {Session : Type}.

Implicit Types s : State Session.

Lemma new_calls_split s s' :
  trace s `prefix_of` trace s' -> trace s' = trace s ++ new_calls s s'.
Proof. intros [k Hk]. unfold new_calls. by rewrite Hk, drop_app_length. Qed.

Lemma new_calls_later s s1 s2 c :
  trace s `prefix_of` trace s1 -> trace s1 `prefix_of` trace s2 ->
  c ∈ new_calls s1 s2 -> c ∈ new_calls s s2.
Proof.
  intros [k1 H1] [k2 H2] Hc.
  erewrite new_calls_app in Hc; [| exact H2].
  erewrite new_calls_app; [| rewrite H2, H1, <- app_assoc; reflexivity].
  apply elem_of_app. by right.
Qed.

Lemma new_calls_last s s1 c :
  trace s `prefix_of` trace s1 -> c ∈ new_calls s (add_call c s1).
Proof.
  intros [k Hk]. erewrite new_calls_app; [| simpl; rewrite Hk, <- app_assoc; reflexivity].
  apply elem_of_app. right. by apply list_elem_of_singleton.
Qed.


End TraceFacts.

Arguments V2.findAndClickButton : simpl never.
Arguments V2.clickFirstMatching : simpl never.
Arguments V2.questionLoop : simpl never.


(** ** submitOtp with a session: first listing *)




(** ** submitOtp with a session: second listing *)




(** ** submitOtp when nothing fails *)

Lemma digits1_truthy l d : digits1 l = Some d -> truthy d = true.
Proof.
  unfold digits1. destruct (span is_digit l) as [[| c r] rest]; [done |].
  intros [= <-]. done.
Qed.

Lemma search_here here l g : search here l = Some g -> exists l', here l' = Some g.
Proof.
  induction l as [| c r IH]; simpl.
  - destruct (here []) eqn:E; [intros [= <-]; eauto | done].
  - destruct (here (c :: r)) eqn:E; [intros [= <-]; eauto | exact IH].
Qed.

Lemma url_v2_match_truthy u id : match_group1 url_v2_here u = Some id -> truthy id = true.
Proof.
  intros H. apply search_here in H as [l' H]. unfold url_v2_here in H.
  destruct l' as [| j [| o [| b [| sl r]]]]; try done.
  destruct (_ && _); [| done]. by eapply digits1_truthy.
Qed.

Section SubmitOtpSettled.

Variable w : World.
Hypothesis Hw : settles w.

(** X3. In a world where every call resolves, [submitOtp] of the first
    listing returns [completed] for a stored session. The identifier is
    what the two patterns find in the URL the page reports and, failing
    that, in the page content; identifier and URL are both set when there
    is a match and both absent when there is none. *)
Theorem submitOtp_v1_settled jobId otp (s : State V1.SessionData) session :
  activeSessions s !! jobId = Some session ->
  exists n pageContent st,
    (V1.submitOtp w jobId otp s).1 = Return st /\
    trace (V1.submitOtp w jobId otp s).2 !! n = Some (Url (V1.page session)) /\
    w_text w (S n) = Return pageContent /\
    js_jobId st = jobId /\ js_status st = completed /\ js_error st = None /\
    match V1.jobIdMatch (w_url w n) pageContent with
    | Some id =>
        js_hipagesJobId st = Some id /\
        js_hipagesJobUrl st = Some ("https://hipages.com.au/jobs/" +:+ id)
    | None => js_hipagesJobId st = None /\ js_hipagesJobUrl st = None
    end.
Proof.
  intros Hs.
  change (wp (V1.submitOtp w jobId otp) (fun o s' =>
    exists n pageContent st, o = Return st /\
      trace s' !! n = Some (Url (V1.page session)) /\
      w_text w (S n) = Return pageContent /\
      js_jobId st = jobId /\ js_status st = completed /\ js_error st = None /\
      match V1.jobIdMatch (w_url w n) pageContent with
      | Some id =>
          js_hipagesJobId st = Some id /\
          js_hipagesJobUrl st = Some ("https://hipages.com.au/jobs/" +:+ id)
      | None => js_hipagesJobId st = None /\ js_hipagesJobUrl st = None
      end) s).
  unfold V1.submitOtp. apply wp_bind. unfold wp at 1, sessions_get. simpl. rewrite Hs.
  apply wp_try_catch.
  apply wp_bind, wp_quiet_settled; [quiet_walk | settled_walk |]. intros o1 s1 H1.
  apply wp_bind, wp_quiet_settled; [quiet_walk | settled_walk |]. intros [] s2 H2.
  apply wp_bind, wp_quiet_settled; [quiet_walk | settled_walk |]. intros o3 s3 H3.
  apply wp_bind, wp_quiet_settled; [quiet_walk | settled_walk |]. intros [] s4 H4.
  apply wp_bind, wp_quiet_settled; [quiet_walk | settled_walk |]. intros [] s5 H5.
  apply wp_bind. unfold wp at 1, url. simpl.
  apply wp_bind. unfold wp at 1, content, call. simpl.
  destruct (Hw (length (trace s5 ++ [Url (V1.page session)]))) as (_ & _ & _ & _ & [c Hc]).
  rewrite Hc.
  apply wp_bind. unfold wp at 1, close, call. simpl.
  rewrite (proj1 (Hw _)).
  apply wp_bind. unfold wp at 1, sessions_delete. simpl.
  apply wp_ret.
  exists (length (trace s5)), c. eexists. split; [reflexivity |].
  split; [simpl; rewrite <- !app_assoc; by apply list_lookup_middle |].
  split; [by rewrite length_app, Nat.add_1_r in Hc |].
  simpl. repeat (split; [done |]).
  by destruct (V1.jobIdMatch _ _).
Qed.

(** X4. In a world where every call resolves, [submitOtp] of the second
    listing returns [completed] for a stored session. The identifier is
    looked for in the URL only; identifier and URL are both set when the
    pattern matches and both absent when it does not. *)
Theorem submitOtp_v2_settled jobId otp (s : State V2.SessionData) session :
  activeSessions s !! jobId = Some session ->
  exists n st,
    (V2.submitOtp w jobId otp s).1 = Return st /\
    trace (V2.submitOtp w jobId otp s).2 !! n = Some (Url (V2.page session)) /\
    js_jobId st = jobId /\ js_status st = completed /\ js_error st = None /\
    match match_group1 url_v2_here (w_url w n) with
    | Some id =>
        js_hipagesJobId st = Some id /\
        js_hipagesJobUrl st =
          Some ("https://www.hipages.com.au/account/job/" +:+ id +:+ "/interested-businesses")
    | None => js_hipagesJobId st = None /\ js_hipagesJobUrl st = None
    end.
Proof.
  intros Hs.
  change (wp (V2.submitOtp w jobId otp) (fun o s' =>
    exists n st, o = Return st /\
      trace s' !! n = Some (Url (V2.page session)) /\
      js_jobId st = jobId /\ js_status st = completed /\ js_error st = None /\
      match match_group1 url_v2_here (w_url w n) with
      | Some id =>
          js_hipagesJobId st = Some id /\
          js_hipagesJobUrl st =
            Some ("https://www.hipages.com.au/account/job/" +:+ id +:+ "/interested-businesses")
      | None => js_hipagesJobId st = None /\ js_hipagesJobUrl st = None
      end) s).
  unfold V2.submitOtp. apply wp_bind. unfold wp at 1, sessions_get. simpl. rewrite Hs.
  apply wp_try_catch.
  apply wp_bind. unfold wp at 1, sessions_set. simpl.
  apply wp_bind, wp_quiet_settled; [quiet_walk | settled_walk |]. intros o1 s1 H1.
  apply wp_bind, wp_quiet_settled; [quiet_walk | settled_walk |]. intros [] s2 H2.
  apply wp_bind, wp_quiet_settled;
    [apply quiet_v2_findAndClickButton | by apply settled_v2_findAndClickButton |].
  intros b3 s3 H3.
  apply wp_bind, wp_quiet_settled; [quiet_walk | settled_walk |]. intros [] s4 H4.
  apply wp_bind. unfold wp at 1, url. simpl.
  apply wp_bind. unfold wp at 1, close, call. simpl.
  rewrite (proj1 (Hw _)).
  apply wp_bind. unfold wp at 1, sessions_delete. simpl.
  apply wp_ret.
  exists (length (trace s4)). eexists. split; [reflexivity |].
  split; [simpl; rewrite <- !app_assoc; by apply list_lookup_middle |].
  simpl. repeat (split; [done |]).
  destruct (match_group1 url_v2_here _) as [id |] eqn:E; [| done].
  by rewrite (url_v2_match_truthy _ _ E).
Qed.

End SubmitOtpSettled.

Lemma confirmation_page_settles : settles confirmation_page.
Proof. intros n. repeat split; eauto. Qed.

Lemma submitOtp_v1_settled_witness :
  exists st,
    (V1.submitOtp confirmation_page "job-1" "123456" waiting_v1).1 = Return st /\
    js_status st = completed /\
    js_hipagesJobId st = Some "4711" /\
    js_hipagesJobUrl st = Some "https://hipages.com.au/jobs/4711".
Proof.
  destruct (submitOtp_v1_settled confirmation_page confirmation_page_settles
              "job-1" "123456" waiting_v1 _ eq_refl)
    as (n & pageContent & st & E & _ & _ & _ & Hst & _ & Hid).
  exists st. split; [exact E |]. split; [exact Hst |]. exact Hid.
Defined.

Lemma submitOtp_v2_settled_witness :
  exists st,
    (V2.submitOtp confirmation_page "job-1" "123456" waiting_v2).1 = Return st /\
    js_status st = completed /\
    js_hipagesJobId st = Some "4711" /\
    js_hipagesJobUrl st
      = Some "https://www.hipages.com.au/account/job/4711/interested-businesses".
Proof.
  destruct (submitOtp_v2_settled confirmation_page confirmation_page_settles
              "job-1" "123456" waiting_v2 _ eq_refl)
    as (n & st & E & _ & _ & Hst & _ & Hid).
  exists st. split; [exact E |]. split; [exact Hst |]. exact Hid.
Defined.

(** ** cancelSession *)

(** X5. [cancelSession] of the first listing, whatever the other calls do
    to the session map while it is suspended. It never throws and never
    touches the callback log or the filesystem. Without a session it does
    nothing at all. With one it makes exactly one call, [close] on the
    browser of the session, and ends as that call allows: it stays
    suspended exactly when [close] does not settle, and otherwise
    returns, whether [close] resolved or was rejected. While it is
    suspended it has removed nothing. When it returns it has removed the
    entry of the job from the map the other calls left, so that the job
    has no session, and a second [cancelSession] changes nothing and makes
    no call. *)
Theorem cancelSession_v1_idempotent (w : World) (jobId : string) (s : State V1.SessionData)
    (others : nat -> gmap string V1.SessionData -> gmap string V1.SessionData) :
  let r := V1.cancelSession (R := among others) w jobId s in
  let left := others (S (length (trace s))) (activeSessions s) in
  (forall e, r.1 <> Throw e) /\
  updates r.2 = updates s /\ files r.2 = files s /\
  (activeSessions s !! jobId = None -> r = (Return tt, s)) /\
  (forall session, activeSessions s !! jobId = Some session ->
     new_calls s r.2 = [Close (V1.browser session)] /\
     r.1 = match w_unit w (length (trace s)) with
           | Pending => Pending
           | _ => Return tt
           end /\
     activeSessions r.2 = match w_unit w (length (trace s)) with
                          | Pending => left
                          | _ => delete jobId left
                          end) /\
  (r.1 = Return tt ->
     activeSessions r.2 !! jobId = None /\
     forall w' others', V1.cancelSession (R := among others') w' jobId r.2 = (Return tt, r.2)).
Proof.
  assert (forall s' : State V1.SessionData,
    activeSessions s' !! jobId = None ->
    forall w' others', V1.cancelSession (R := among others') w' jobId s' = (Return tt, s'))
    as Hagain.
  { intros s' Hd w' others'. unfold V1.cancelSession, bind, sessions_get. simpl.
    by rewrite Hd. }
  cbv zeta. destruct (activeSessions s !! jobId) as [session |] eqn:Hs.
  - assert (V1.cancelSession (R := among others) w jobId s =
      match w_unit w (length (trace s)) with
      | Pending => (Pending, @resume _ (among others) (add_call (Close (V1.browser session)) s))
      | _ => (Return tt,
              set_sessions
                (delete jobId
                   (activeSessions
                      (@resume _ (among others) (add_call (Close (V1.browser session)) s))))
                (@resume _ (among others) (add_call (Close (V1.browser session)) s)))
      end) as ->.
    { unfold V1.cancelSession, bind, sessions_get, swallow, close, call, sessions_delete.
      cbn [fst snd]. rewrite Hs.
      by destruct (w_unit w (length (trace s))) as [[] | e |]. }
    assert (length (trace s ++ [Close (V1.browser session)]) = S (length (trace s))) as Hlen
      by (rewrite length_app; simpl; lia).
    destruct (w_unit w (length (trace s))) as [[] | e |]; simpl; rewrite ?Hlen;
      (split; [done |]); (split; [done |]); (split; [done |]); (split; [done |]);
      (split; [intros ? [= <-]; split; [by erewrite new_calls_app | done] |]);
      try done; intros _; (split; [apply lookup_delete_eq |]);
      apply Hagain; simpl; apply lookup_delete_eq.
  - rewrite (Hagain s Hs w others). simpl. repeat split; try done.
    by apply Hagain.
Qed.

Lemma cancelSession_v1_idempotent_witness :
  let r := V1.cancelSession (R := among (cancelled_during "job-2" 1)) browser_gone "job-1"
             waiting_v1 in
  r.1 = Return tt /\
  activeSessions r.2 !! "job-1" = None /\
  new_calls waiting_v1 r.2 = [Close 0].
Proof.
  cbv zeta.
  destruct (cancelSession_v1_idempotent browser_gone "job-1" waiting_v1
              (cancelled_during "job-2" 1)) as (_ & _ & _ & _ & Hc & Hr).
  split; [reflexivity |]. split.
  - exact (proj1 (Hr eq_refl)).
  - exact (proj1 (Hc _ eq_refl)).
Defined.



(** ** findAndClickButton *)

Lemma no_click_nil : no_click [].
Proof. intros e n H. by apply elem_of_nil in H. Qed.

Lemma no_click_app l1 l2 : no_click l1 -> no_click l2 -> no_click (l1 ++ l2).
Proof.
  intros H1 H2 e n H. apply elem_of_app in H as [H | H]; [by apply H1 in H | by apply H2 in H].
Qed.

Lemma no_click_one c : (forall e n, c <> Click e n) -> no_click [c].
Proof. intros Hc e n H. apply list_elem_of_singleton in H. by apply (Hc e n). Qed.

Lemma click_report_shift w page texts base pre0 o evs :
  no_click pre0 ->
  click_report w page texts (base + length pre0) o evs ->
  click_report w page texts base o (pre0 ++ evs).
Proof.
  intros H0. destruct o as [[] | e |]; simpl.
  - intros (pre & b & t & text & -> & Hp & Ht & Hw & Hi).
    exists (pre0 ++ pre), b, t, text. split; [by rewrite app_assoc |].
    split; [by apply no_click_app |]. split; [done |].
    split; [| done]. by rewrite length_app, Nat.add_assoc.
  - by apply no_click_app.
  - intros (pre & [-> | [b ->]] & Hp); exists (pre0 ++ pre);
      (split; [| by apply no_click_app]); [by left | right; exists b; by rewrite app_assoc].
  - intros (pre & [-> | [b ->]] & Hp); exists (pre0 ++ pre);
      (split; [| by apply no_click_app]); [by left | right; exists b; by rewrite app_assoc].
Qed.

Lemma click_report_more w page texts texts' base o evs :
  texts ⊆ texts' ->
  click_report w page texts base o evs -> click_report w page texts' base o evs.
Proof.
  intros Hsub. destruct o as [[] | e |]; simpl; try done.
  intros (pre & b & t & text & H1 & H2 & H3 & H4). exists pre, b, t, text.
  split; [done |]. split; [done |]. split; [by apply Hsub | done].
Qed.

Lemma clickFirstMatching_report w page text buttons (s : State V2.SessionData) :
  exists evs,
    trace (V2.clickFirstMatching w page text buttons s).2 = trace s ++ evs /\
    click_report w page [text] (length (trace s))
      (V2.clickFirstMatching w page text buttons s).1 evs.
Proof.
  revert s. induction buttons as [| b rest IH]; intros s.
  - exists []. split; [by rewrite app_nil_r | apply no_click_nil].
  - change (V2.clickFirstMatching w page text (b :: rest)) with
      (bind (textContentLower w page b) (fun buttonText =>
         if includes buttonText (toLowerCase text)
         then bind (click w b 1) (fun _ => ret true)
         else V2.clickFirstMatching w page text rest)).
    unfold bind, textContentLower, click, call, ret. simpl.
    destruct (w_text w (length (trace s))) as [t | e |] eqn:Et.
    + destruct (includes t (toLowerCase text)) eqn:Ei.
      * destruct (w_unit w _) as [[] | e |]; simpl.
        -- exists [TextContent page b; Click b 1].
           split; [by rewrite <- app_assoc |].
           simpl. exists [], b, t, text. split; [done |]. split; [apply no_click_nil |].
           split; [by apply list_elem_of_singleton |].
           split; [by rewrite Nat.add_0_r | done].
        -- exists [TextContent page b; Click b 1].
           split; [by rewrite <- app_assoc |].
           simpl. exists [TextContent page b]. split; [right; by exists b |].
           by apply no_click_one.
        -- exists [TextContent page b; Click b 1].
           split; [by rewrite <- app_assoc |].
           simpl. exists [TextContent page b]. split; [right; by exists b |].
           by apply no_click_one.
      * destruct (IH (add_call (TextContent page b) s)) as (evs & E & Hr).
        exists ([TextContent page b] ++ evs).
        split; [by rewrite E; simpl; rewrite <- app_assoc |].
        apply click_report_shift; [by apply no_click_one |].
        simpl in Hr. by rewrite length_app in Hr.
    + exists [TextContent page b]. split; [done |].
      simpl. exists [TextContent page b]. split; [by left | by apply no_click_one].
    + exists [TextContent page b]. split; [done |].
      simpl. exists [TextContent page b]. split; [by left | by apply no_click_one].
Qed.

Lemma findAndClickButton_report w page texts (s : State V2.SessionData) :
  exists evs,
    trace (V2.findAndClickButton w page texts s).2 = trace s ++ evs /\
    click_report w page texts (length (trace s))
      (V2.findAndClickButton w page texts s).1 evs.
Proof.
  revert s. induction texts as [| text rest IH]; intros s.
  - exists []. split; [by rewrite app_nil_r | apply no_click_nil].
  - change (V2.findAndClickButton w page (text :: rest)) with
      (bind (queryAll w page "button, input[type='submit'], a") (fun buttons =>
         bind (V2.clickFirstMatching w page text buttons) (fun clicked =>
           if clicked then ret true else V2.findAndClickButton w page rest))).
    set (q := QueryAll page "button, input[type='submit'], a").
    unfold bind, queryAll, call, ret. simpl. fold q.
    destruct (w_elems w (length (trace s))) as [buttons | e |].
    + destruct (clickFirstMatching_report w page text buttons (add_call q s))
        as (evs1 & E1 & R1).
      simpl in E1, R1. rewrite length_app in R1. simpl in R1.
      destruct (V2.clickFirstMatching w page text buttons (add_call q s))
        as [[[] | e |] s1]; cbn [fst snd] in *.
      * exists ([q] ++ evs1). split; [by rewrite E1, <- app_assoc |].
        apply click_report_shift; [by apply no_click_one |].
        eapply click_report_more; [| exact R1]. set_solver.
      * destruct (IH s1) as (evs2 & E2 & R2).
        exists (([q] ++ evs1) ++ evs2).
        split; [by rewrite E2, E1, <- !app_assoc |].
        apply click_report_shift;
          [apply no_click_app; [by apply no_click_one | exact R1] |].
        rewrite E1 in R2. rewrite !length_app in R2. simpl in R2.
        rewrite length_app. simpl.
        eapply click_report_more; [| by rewrite <- Nat.add_assoc in R2]. set_solver.
      * exists ([q] ++ evs1). split; [by rewrite E1, <- app_assoc |].
        apply click_report_shift; [by apply no_click_one |].
        eapply click_report_more; [| exact R1]. set_solver.
      * exists ([q] ++ evs1). split; [by rewrite E1, <- app_assoc |].
        apply click_report_shift; [by apply no_click_one |].
        eapply click_report_more; [| exact R1]. set_solver.
    + exists [q]. split; [done |]. simpl. exists [q]. split; [by left | by apply no_click_one].
    + exists [q]. split; [done |]. simpl. exists [q]. split; [by left | by apply no_click_one].
Qed.

(** X7. [findAndClickButton] returns [true] exactly when it has clicked:
    the run then ends with one click, its only one, on a button whose
    lower-cased text (read by the call just before) includes one of the
    given labels; a run that returns [false] has clicked nothing; a run
    that throws or is suspended has clicked at most once, in its last call. *)
Theorem findAndClickButton_clicks_once (w : World) (page : Page) (texts : list string)
    (s : State V2.SessionData) :
  let r := V2.findAndClickButton w page texts s in
  click_report w page texts (length (trace s)) r.1 (new_calls s r.2).
Proof.
  cbv zeta. destruct (findAndClickButton_report w page texts s) as (evs & E & R).
  by erewrite new_calls_app.
Qed.

(** ** The calls a computation adds *)

Section AddsFacts.

Context {Session : Type}.

Variable C : Call -> Prop.

Lemma adds_ret {A} (a : A) : adds (Session := Session) C (ret a).
Proof. intros s. exists []. split; [by rewrite app_nil_r | constructor]. Qed.

Lemma adds_bind {A B} (m : M Session A) (f : A -> M Session B) :
  adds C m -> (forall a, adds C (f a)) -> adds C (bind m f).
Proof.
  intros Hm Hf s. destruct (Hm s) as (evs1 & E1 & F1). unfold bind.
  destruct (m s) as [[a | e |] s1]; simpl in *; [| by exists evs1 ..].
  destruct (Hf a s1) as (evs2 & E2 & F2). exists (evs1 ++ evs2).
  split; [by rewrite E2, E1, app_assoc | by apply Forall_app].
Qed.

Lemma adds_call {A} w c (answer : World -> nat -> Outcome A) :
  C c -> adds (Session := Session) C (call w c answer).
Proof. intros Hc s. exists [c]. split; [done | by repeat constructor]. Qed.

Lemma adds_delay ms : C (Delay ms) -> adds (Session := Session) C (delay ms).
Proof. intros Hc s. exists [Delay ms]. split; [done | by repeat constructor]. Qed.

Lemma adds_now w : C Now -> adds (Session := Session) C (now w).
Proof. intros Hc s. exists [Now]. split; [done | by repeat constructor]. Qed.

Lemma adds_writeFileSync w path :
  C (WriteFileSync path) -> adds (Session := Session) C (writeFileSync w path).
Proof.
  intros Hc s. exists [WriteFileSync path]. unfold writeFileSync.
  destruct (w_write w (length (trace s))); (split; [done | by repeat constructor]).
Qed.

Lemma adds_unlinkSync w path :
  C (UnlinkSync path) -> adds (Session := Session) C (unlinkSync w path).
Proof.
  intros Hc s. exists [UnlinkSync path]. unfold unlinkSync.
  case_bool_decide; [destruct (w_unlink w (length (trace s))) |];
    (split; [done | by repeat constructor]).
Qed.

Lemma adds_swallow (m : M Session unit) : adds C m -> adds C (swallow m).
Proof.
  intros Hm s. destruct (Hm s) as (evs & E & F). exists evs.
  unfold swallow. by destruct (m s) as [[[] | e |] s1].
Qed.

Lemma adds_for_each {A} (l : list A) (body : A -> M Session unit) :
  (forall x, adds C (body x)) -> adds C (for_each l body).
Proof.
  intros Hb. induction l as [| x r IH]; simpl.
  - apply adds_ret.
  - apply adds_bind; [apply Hb | intros _; exact IH].
Qed.

Lemma adds_try_steps {L} (steps : list (L -> M Session L)) :
  Forall (fun st => forall l, adds C (st l)) steps ->
  forall l s, exists evs, trace (try_steps steps l s).2 = trace s ++ evs /\ Forall C evs.
Proof.
  induction 1 as [| st rest Hst _ IH]; intros l s; simpl.
  - exists []. split; [by rewrite app_nil_r | constructor].
  - destruct (Hst l s) as (evs1 & E1 & F1).
    destruct (st l s) as [[l' | e |] s1]; simpl in *; [| by exists evs1 ..].
    destruct (IH l' s1) as (evs2 & E2 & F2). exists (evs1 ++ evs2).
    split; [by rewrite E2, E1, app_assoc | by apply Forall_app].
Qed.

Lemma adds_try_finally {L} (init : L) steps (fin : L -> M Session unit) :
  Forall (fun st => forall l, adds C (st l)) steps ->
  (forall l, adds C (fin l)) ->
  adds C (try_finally init steps fin).
Proof.
  intros Hs Hf s. unfold try_finally.
  destruct (adds_try_steps steps Hs init s) as (evs1 & E1 & F1).
  destruct (try_steps steps init s) as [[o l] s1]; simpl in *.
  destruct (Hf l s1) as (evs2 & E2 & F2).
  assert (exists evs, trace (fin l s1).2 = trace s ++ evs /\ Forall C evs) as Hboth.
  { exists (evs1 ++ evs2). split; [by rewrite E2, E1, app_assoc | by apply Forall_app]. }
  destruct o as [[] | e |]; [| | by exists evs1];
    by destruct (fin l s1) as [[[] | e' |] s2].
Qed.

End AddsFacts.

Ltac adds_walk side :=
  repeat first
    [ progress intros
    | assumption
    | apply adds_ret
    | apply adds_bind
    | apply adds_swallow
    | apply adds_for_each
    | apply adds_try_finally
    | apply Forall_cons_2
    | apply Forall_nil_2
    | apply adds_delay; side
    | apply adds_now; side
    | apply adds_writeFileSync; side
    | apply adds_unlinkSync; side
    | apply adds_call; side
    | match goal with
      | |- adds _ (match ?x with _ => _ end) => destruct x
      | |- adds _ (if ?x then _ else _) => destruct x
      end ].

Section AddsV2.

Variable w : World.
Variable C : Call -> Prop.
Variable p : Page.
Hypothesis C_queryAll : forall sel, C (QueryAll p sel).
Hypothesis C_text : forall e, C (TextContent p e).
Hypothesis C_click : forall e n, C (Click e n).

Lemma adds_v2_clickFirstMatching t l : adds C (V2.clickFirstMatching w p t l).
Proof.
  induction l as [| b r IH].
  - apply adds_ret.
  - change (V2.clickFirstMatching w p t (b :: r)) with
      (bind (textContentLower w p b) (fun buttonText =>
         if includes buttonText (toLowerCase t)
         then bind (click w b 1) (fun _ => ret true)
         else V2.clickFirstMatching w p t r)).
    adds_walk ltac:(auto).
Qed.

Lemma adds_v2_findAndClickButton l : adds C (V2.findAndClickButton w p l).
Proof.
  induction l as [| t r IH].
  - apply adds_ret.
  - change (V2.findAndClickButton w p (t :: r)) with
      (bind (queryAll w p "button, input[type='submit'], a") (fun buttons =>
         bind (V2.clickFirstMatching w p t buttons) (fun clicked =>
           if clicked then ret true else V2.findAndClickButton w p r))).
    adds_walk ltac:(auto). apply adds_v2_clickFirstMatching.
Qed.

End AddsV2.

(** ** The question loop of the second listing *)

Section QuestionLoop.

Variable w : World.
Variable page : Page.

Let other := non_probe page.

Ltac other_side := unfold other, non_probe, probe; discriminate.

Lemma filter_other evs : Forall other evs -> filter (fun c => c = probe page) evs = [].
Proof.
  induction 1 as [| c r Hc _ IH]; [done |].
  rewrite filter_cons. by destruct (decide (c = probe page)).
Qed.

Lemma loop_report_other n base o evs :
  Forall other evs -> loop_report w page n base o evs.
Proof.
  intros H. split; [rewrite (filter_other _ H); simpl; lia |].
  intros i h Hi _. by destruct (Forall_lookup_1 _ _ _ _ H Hi).
Qed.

Lemma loop_report_shift n base pre o evs :
  Forall other pre ->
  loop_report w page n (base + length pre) o evs ->
  loop_report w page n base o (pre ++ evs).
Proof.
  intros Hpre [Hn Hstop]. split.
  - by rewrite filter_app, (filter_other _ Hpre).
  - intros i h Hi Hw.
    destruct (decide (i < length pre)) as [Hlt | Hge].
    + rewrite lookup_app_l in Hi by done.
      by destruct (Forall_lookup_1 _ _ _ _ Hpre Hi).
    + rewrite lookup_app_r in Hi by lia.
      destruct (Hstop (i - length pre) h Hi) as [-> Hlen].
      * by replace (base + length pre + (i - length pre)) with (base + i) by lia.
      * split; [done |]. rewrite length_app. lia.
Qed.

Lemma loop_report_bind {A} n (m : M V2.SessionData A) (f : A -> M V2.SessionData unit) :
  adds other m ->
  (forall a s1, exists evs,
     trace (f a s1).2 = trace s1 ++ evs /\
     loop_report w page n (length (trace s1)) (f a s1).1 evs) ->
  forall s, exists evs,
    trace (bind m f s).2 = trace s ++ evs /\
    loop_report w page n (length (trace s)) (bind m f s).1 evs.
Proof.
  intros Hm Hf s. destruct (Hm s) as (evs1 & E1 & F1). unfold bind.
  destruct (m s) as [[a | e |] s1]; simpl in *.
  - destruct (Hf a s1) as (evs2 & E2 & R2). exists (evs1 ++ evs2).
    split; [by rewrite E2, E1, app_assoc |].
    apply loop_report_shift; [done |]. by rewrite E1, length_app in R2.
  - exists evs1. split; [done | by apply loop_report_other].
  - exists evs1. split; [done | by apply loop_report_other].
Qed.

Lemma questionLoop_report n (s : State V2.SessionData) :
  exists evs,
    trace (V2.questionLoop w n page s).2 = trace s ++ evs /\
    loop_report w page n (length (trace s)) (V2.questionLoop w n page s).1 evs.
Proof.
  revert s. induction n as [| k IH]; intros s.
  - exists []. split; [by rewrite app_nil_r | by apply loop_report_other].
  - pose (rest :=
      bind (queryAll w page "input[type='radio']:not(:checked)") (fun radioButtons =>
        bind (match radioButtons with
              | first :: _ => bind (click w first 1) (fun _ => delay 500)
              | [] => ret tt
              end) (fun _ =>
          bind (V2.findAndClickButton w page ["next"; "continue"]) (fun clicked =>
            if clicked then bind (delay 1000) (fun _ => V2.questionLoop w k page)
            else ret tt)))).
    assert (forall s1, exists evs,
      trace (rest s1).2 = trace s1 ++ evs /\
      loop_report w page k (length (trace s1)) (rest s1).1 evs) as Hrest.
    { unfold rest.
      apply loop_report_bind; [adds_walk other_side |]. intros radioButtons s2.
      apply loop_report_bind; [adds_walk other_side |]. intros _ s3.
      apply loop_report_bind; [apply adds_v2_findAndClickButton; intros; other_side |].
      intros [] s4.
      - apply loop_report_bind; [adds_walk other_side |]. intros _ s5. apply IH.
      - exists []. split; [by rewrite app_nil_r | by apply loop_report_other]. }
    change (V2.questionLoop w (S k) page) with
      (bind (query w page "textarea") (fun textarea =>
         match textarea with
         | Some _ => ret tt
         | None => rest
         end)).
    clearbody rest.
    unfold bind, query, call, ret, resume, alone. cbn [fst snd].
    assert (length (filter (fun c => c = probe page) [probe page]) <= S k) as Hone.
    { rewrite filter_cons. destruct (decide (probe page = probe page)); simpl; lia. }
    destruct (w_elem w (length (trace s))) as [[h |] | e |] eqn:Ew.
    + exists [probe page]. split; [done |]. split; [exact Hone |].
      intros [| i] h' Hi _; [by split |]. by rewrite lookup_cons, lookup_nil in Hi.
    + destruct (Hrest (add_call (Query page "textarea") s)) as (evs & E & [Hn Hstop]).
      exists ([probe page] ++ evs). split; [by rewrite E; simpl; rewrite <- app_assoc |].
      split.
      * simpl. rewrite filter_cons.
        destruct (decide (probe page = probe page)); simpl; lia.
      * intros [| i] h' Hi Hw'.
        -- rewrite Nat.add_0_r, Ew in Hw'. discriminate.
        -- simpl in Hi. destruct (Hstop i h' Hi) as [-> Hlen].
           ++ simpl. rewrite length_app. simpl.
              by replace (length (trace s) + 1 + i) with (length (trace s) + S i) by lia.
           ++ split; [done |]. simpl. lia.
    + exists [probe page]. split; [done |]. split; [exact Hone |].
      intros [| i] h' Hi Hw'.
      * rewrite Nat.add_0_r, Ew in Hw'. discriminate.
      * by rewrite lookup_cons, lookup_nil in Hi.
    + exists [probe page]. split; [done |]. split; [exact Hone |].
      intros [| i] h' Hi Hw'.
      * rewrite Nat.add_0_r, Ew in Hw'. discriminate.
      * by rewrite lookup_cons, lookup_nil in Hi.
Qed.

End QuestionLoop.

(** X8. [answerFormQuestions] of the second listing looks for a free-text
    area at most ten times, and stops as soon as it finds one: a probe
    that the page answers with an element is the last call of the stage,
    and the stage has then returned. *)
Theorem answerFormQuestions_v2_bounded (w : World) (page : Page) (s : State V2.SessionData) :
  let r := V2.answerFormQuestions w page s in
  let evs := new_calls s r.2 in
  length (filter (fun c => c = probe page) evs) <= 10 /\
  forall i h, evs !! i = Some (probe page) ->
    w_elem w (length (trace s) + i) = Return (Some h) ->
    r.1 = Return tt /\ S i = length evs.
Proof.
  cbv zeta.
  replace (V2.answerFormQuestions w page s)
    with (V2.questionLoop w 10 page (add_call (Delay 1000) s)) by reflexivity.
  destruct (questionLoop_report w page 10 (add_call (Delay 1000) s)) as (evs & E & R).
  erewrite new_calls_app; [| rewrite E; simpl; rewrite <- app_assoc; reflexivity].
  apply (loop_report_shift w page 10 (length (trace s)) [Delay 1000]);
    [by repeat constructor |].
  simpl in R. by rewrite length_app in R.
Qed.

Lemma answerFormQuestions_v2_bounded_witness :
  (V2.answerFormQuestions one_question 1 empty_state).1 = Return tt /\
  length (new_calls empty_state (V2.answerFormQuestions one_question 1 empty_state).2) = 10.
Proof.
  destruct (answerFormQuestions_v2_bounded one_question 1 empty_state) as [_ H].
  destruct (H 9 9) as [E L]; [reflexivity | reflexivity |].
  split; [exact E | by rewrite <- L].
Defined.

(** ** The cached status in the second listing *)

Section CacheV2.

Variables (w : World) (jobId : string) (cb : Callback).

Lemma sets_keeps {A} (m : M V2.SessionData A) : sets_cache jobId m -> keeps_cache jobId m.
Proof. intros H s _. apply H. Qed.

Lemma keeps_quiet {A} (m : M V2.SessionData A) : quiet m -> keeps_cache jobId m.
Proof.
  intros Hm s Hs session. destruct (Hm s) as [Ha Hu _]. rewrite Ha, Hu. apply Hs.
Qed.

Lemma keeps_bind {A B} (m : M V2.SessionData A) (f : A -> M V2.SessionData B) :
  keeps_cache jobId m -> (forall a, keeps_cache jobId (f a)) -> keeps_cache jobId (bind m f).
Proof.
  intros Hm Hf s Hs. specialize (Hm s Hs). unfold bind.
  destruct (m s) as [[a | e |] s1]; simpl in *; [by apply Hf | done | done].
Qed.

Lemma sets_bind {A B} (m : M V2.SessionData A) (f : A -> M V2.SessionData B) :
  sets_cache jobId m -> (forall a, keeps_cache jobId (f a)) -> sets_cache jobId (bind m f).
Proof.
  intros Hm Hf s. specialize (Hm s). unfold bind.
  destruct (m s) as [[a | e |] s1]; simpl in *; [by apply Hf | done | done].
Qed.

Lemma sets_updateStatus p : sets_cache jobId (V2.updateStatus jobId cb p).
Proof.
  intros s. unfold V2.updateStatus, bind, sessions_get, sessions_set, notify.
  destruct (activeSessions s !! jobId) as [session |] eqn:Hs; simpl;
    intros session'; simpl; rewrite last_snoc.
  - rewrite lookup_insert_eq. by intros [= <-].
  - by rewrite Hs.
Qed.

(** Storing the session breaks the agreement, and the [updateStatus] that
    follows at once restores it. *)
Lemma sets_store_then_update {B} v p (f : unit -> M V2.SessionData B) :
  (forall a, keeps_cache jobId (f a)) ->
  sets_cache jobId
    (bind (sessions_set jobId v) (fun _ => bind (V2.updateStatus jobId cb p) f)).
Proof.
  intros Hf s. unfold bind at 1, sessions_set. simpl.
  by apply sets_bind; [apply sets_updateStatus |].
Qed.

Lemma sets_delete_then_notify u :
  sets_cache jobId (bind (sessions_delete jobId) (fun _ => notify cb u)).
Proof. intros s session. simpl. by rewrite lookup_delete_eq. Qed.

Lemma keeps_try_catch {A} (m : M V2.SessionData A) h :
  keeps_cache jobId m -> (forall e, keeps_cache jobId (h e)) ->
  keeps_cache jobId (try_catch m h).
Proof.
  intros Hm Hh s Hs. specialize (Hm s Hs). unfold try_catch.
  destruct (m s) as [[a | e |] s1]; simpl in *; [done | by apply Hh | done].
Qed.

Lemma sets_try_assign {A B} (m1 : M V2.SessionData A) (m2 : A -> M V2.SessionData B) h :
  sets_cache jobId m1 ->
  (forall a, keeps_cache jobId (m2 a)) ->
  (forall b e, keeps_cache jobId (h b e)) ->
  sets_cache jobId (try_assign m1 m2 h).
Proof.
  intros H1 H2 Hh s. specialize (H1 s). unfold try_assign.
  destruct (m1 s) as [[a | e |] s1]; simpl in *; [| by apply Hh | done].
  by apply keeps_try_catch.
Qed.

End CacheV2.

Ltac cache_walk :=
  repeat first
    [ progress intros
    | apply sets_updateStatus
    | apply sets_keeps, sets_updateStatus
    | apply sets_delete_then_notify
    | apply sets_keeps, sets_delete_then_notify
    | apply sets_keeps, sets_store_then_update
    | apply keeps_quiet; solve [ quiet_walk ]
    | apply sets_bind
    | apply keeps_bind
    | match goal with
      | |- keeps_cache _ (match ?x with _ => _ end) => destruct x
      | |- keeps_cache _ (bind (match ?x with _ => _ end) _) => destruct x
      end ].

Lemma sets_v2_startJobPosting (w : World) (jobId : string)
    (jobData : HiPagesJobRequest) (cb : Callback) :
  sets_cache jobId (V2.startJobPosting w jobId jobData cb).
Proof.
  unfold V2.startJobPosting. cbv zeta.
  apply sets_try_assign; cache_walk.
Qed.

(** X9. In the second listing the session caches what the callback saw
    last: however a run of [startJobPosting] ends or wherever it is
    suspended, when a session is stored for the job its cached status is
    the status most recently handed to the callback. *)
Theorem startJobPosting_v2_cache_is_latest (w : World) (jobId : string)
    (jobData : HiPagesJobRequest) (cb : Callback) (s : State V2.SessionData) :
  cache_is_latest jobId (V2.startJobPosting w jobId jobData cb s).2.
Proof. apply sets_v2_startJobPosting. Qed.

Lemma startJobPosting_v2_cache_is_latest_witness :
  exists session,
    activeSessions (V2.startJobPosting bare_page "job-1" (leaking_tap None) never_throws
                      empty_state).2 !! "job-1" = Some session /\
    last (updates (V2.startJobPosting bare_page "job-1" (leaking_tap None) never_throws
                     empty_state).2) = Some (V2.status session) /\
    js_status (V2.status session) = awaiting_otp.
Proof.
  pose proof (startJobPosting_v2_cache_is_latest bare_page "job-1" (leaking_tap None)
                never_throws empty_state) as H.
  eexists. split; [vm_compute; reflexivity |]. split; [| reflexivity].
  apply H. vm_compute. reflexivity.
Defined.


(** ** Stepping through a run with a fixed stop condition *)

Section EndsFacts.

Context {Session : Type}.

Variable jobId : string.
Variable others : nat -> gmap string Session -> gmap string Session.

Implicit Types (G : option Thrown -> State Session -> Prop) (P : State Session -> Prop).

Lemma ends_ret {A} G P (a : A) : ends G P (ret a) (fun _ => P).
Proof. by intros s Hs. Qed.

Lemma ends_bind {A B} G P (R : A -> State Session -> Prop) Q
    (m : M Session A) (f : A -> M Session B) :
  ends G P m R -> (forall a, ends G (R a) (f a) Q) -> ends G P (bind m f) Q.
Proof.
  intros Hm Hf s Hs. specialize (Hm s Hs). unfold bind.
  destruct (m s) as [[a | e |] s1]; simpl in *; [by apply Hf | done | done].
Qed.

Lemma ends_pre {A} G P P' (m : M Session A) R :
  (forall s, P s -> P' s) -> ends G P' m R -> ends G P m R.
Proof. intros HP Hm s Hs. by apply Hm, HP. Qed.

Lemma ends_calm {A} G P (m : M Session A) :
  calm jobId others m -> calm_stable jobId others P -> (forall o s, P s -> G o s) ->
  ends G P m (fun _ => P).
Proof.
  intros Hm HP HG s Hs. pose proof (HP _ _ (Hm s) Hs) as H1.
  destruct (m s).1; auto.
Qed.

Lemma ends_calm_bind {A B} G P Q (m : M Session A) (f : A -> M Session B) :
  calm jobId others m -> calm_stable jobId others P -> (forall o s, P s -> G o s) ->
  (forall a, ends G P (f a) Q) -> ends G P (bind m f) Q.
Proof. intros Hm HP HG Hf. eapply ends_bind; [by apply ends_calm | exact Hf]. Qed.

Lemma ends_notify_bind {B} G P Q cb u (f : unit -> M Session B) :
  cb u = None -> (forall s, P s -> P (add_update u s)) ->
  ends G P (f tt) Q -> ends G P (bind (notify cb u) f) Q.
Proof.
  intros Hcb HP Hf s Hs. unfold bind, notify. rewrite Hcb. by apply Hf, HP.
Qed.

Lemma ends_set_bind {B} G P P' Q v (f : unit -> M Session B) :
  (forall s, P s -> P' (set_sessions (<[jobId := v]> (activeSessions s)) s)) ->
  ends G P' (f tt) Q -> ends G P (bind (sessions_set jobId v) f) Q.
Proof. intros HP Hf s Hs. unfold bind, sessions_set. by apply Hf, HP. Qed.

(** The last step: a [try] whose body stops under [Gb] and whose handler,
    started under [Gb], ends under [Q]. *)
Lemma ends_try_assign {A B} (Gb : State Session -> Prop) P (R1 : A -> State Session -> Prop)
    (Q : Outcome B -> State Session -> Prop)
    (m1 : M Session A) (m2 : A -> M Session B) h s :
  ends (fun _ => Gb) P m1 R1 ->
  (forall a, ends (fun _ => Gb) (R1 a) (m2 a) (fun b s' => Q (Return b) s')) ->
  (forall s', Gb s' -> Q Pending s') ->
  (forall b e s', Gb s' ->
     (b = None /\ (m1 s).1 = Throw e) \/ (exists a, b = Some a /\ (m1 s).1 = Return a) ->
     wp (h b e) Q s') ->
  P s -> wp (try_assign m1 m2 h) Q s.
Proof.
  intros H1 H2 Hp Hh Hs. specialize (H1 s Hs). unfold wp, try_assign, try_catch.
  assert (forall a, (m1 s).1 = Return a ->
    forall b e s', Gb s' -> b = Some a -> wp (h b e) Q s') as Hh'.
  { intros a Ha b e s' Hg ->. apply Hh; [done |]. right. by exists a. }
  destruct (m1 s) as [[a | e |] s1]; simpl in *.
  - specialize (H2 a s1 H1).
    destruct (m2 a s1) as [[b | e |] s2]; simpl in *; [done | | by apply Hp].
    by apply (Hh' a eq_refl (Some a)).
  - apply Hh; [done | by left].
  - by apply Hp.
Qed.

Lemma under_way_refl (s0 : State Session) : under_way s0 s0.
Proof. split; [done |]. exists []. split; [by rewrite app_nil_r | constructor]. Qed.

Lemma under_way_stable (s0 : State Session) : calm_stable jobId others (under_way s0).
Proof.
  intros s s' [Ha Hu Ht] [H1 (new & E & F)]. split; [by etrans |].
  exists new. by rewrite Hu.
Qed.

Lemma under_way_update (s0 s : State Session) u :
  js_status u <> failed -> js_status u <> awaiting_otp ->
  under_way s0 s -> under_way s0 (add_update u s).
Proof.
  intros Hf Ha [H1 (new & E & F)]. split; [done |]. exists (new ++ [u]).
  split; [by simpl; rewrite E, app_assoc |]. apply Forall_app. split; [done |].
  by repeat constructor.
Qed.

Lemma under_way_last (s0 s : State Session) u :
  under_way s0 s -> last (new_updates s0 s) = Some u ->
  js_status u <> failed /\ js_status u <> awaiting_otp.
Proof.
  intros [_ (new & E & F)] Hl. unfold new_updates in Hl.
  rewrite E, drop_app_length in Hl.
  apply last_Some in Hl as [l' ->]. apply Forall_app in F as [_ F].
  by inversion F.
Qed.

End EndsFacts.

(** ** How startJobPosting of the first listing ends *)

Section EndV1.

Variables (w : World) (jobId : string) (jobData : HiPagesJobRequest) (cb : Callback).
Variable others : nat -> gmap string V1.SessionData -> gmap string V1.SessionData.
Variable s0 : State V1.SessionData.
Hypothesis cb_total : forall u, cb u = None.

(** The state a run has reached by its last update: after [failed] the
    job has no session and the launched browser was closed; after
    [awaiting_otp] the session is stored, caches its own waiting status
    and owns the launched browser, when the other calls spare it. *)
Let settled_state (s : State V1.SessionData) : Prop :=
  forall u, last (new_updates s0 s) = Some u ->
    (js_status u = failed ->
       activeSessions s !! jobId = None /\
       forall b, w_handle w (length (trace s0)) = Return b -> Close b ∈ new_calls s0 s) /\
    (js_status u = awaiting_otp -> spares jobId others ->
       exists session, activeSessions s !! jobId = Some session /\
         V1.status session = mkStatus jobId awaiting_otp "Waiting for OTP verification" /\
         V1.jobData session = jobData /\
         w_handle w (length (trace s0)) = Return (V1.browser session)).

Let Q (o : Outcome unit) (s : State V1.SessionData) : Prop :=
  (forall e, o <> Throw e) /\ settled_state s.

Let launched (b : Browser) (s : State V1.SessionData) : Prop :=
  under_way s0 s /\ w_handle w (length (trace s0)) = Return b.

Let stored (b : Browser) (s : State V1.SessionData) : Prop :=
  launched b s /\
  (spares jobId others ->
   exists session, activeSessions s !! jobId = Some session /\
     V1.browser session = b /\ V1.jobData session = jobData).

Lemma under_way_settled s : under_way s0 s -> settled_state s.
Proof.
  intros H u Hu. destruct (under_way_last _ _ _ H Hu) as [Hf Ha]. by split.
Qed.

Lemma launched_stable b : calm_stable jobId others (launched b).
Proof. intros s s' Hq [H Hl]. split; [by eapply under_way_stable | done]. Qed.

Lemma stored_stable b : calm_stable jobId others (stored b).
Proof.
  intros s s' Hq [H Hs]. split; [by eapply launched_stable |].
  intros Hsp. destruct (Hs Hsp) as (session & Hl & Hb). exists session.
  by rewrite (c_entry _ _ _ _ Hq Hsp).
Qed.

Lemma stored_update b s u :
  js_status u <> failed -> js_status u <> awaiting_otp ->
  stored b s -> stored b (add_update u s).
Proof. intros Hf Ha [[H Hl] Hs]. split; [split; [by apply under_way_update | done] | done]. Qed.

Lemma stored_under_way b (o : option Thrown) s : stored b s -> under_way s0 s.
Proof. by intros [[H _] _]. Qed.

Lemma launched_under_way b (o : option Thrown) s : launched b s -> under_way s0 s.
Proof. by intros [H _]. Qed.

Lemma finish_v1_ends b U :
  js_status U = awaiting_otp ->
  ends (fun _ => under_way s0) (stored b)
    (bind (notify cb U) (fun _ =>
       bind (sessions_get jobId) (fun session =>
         match session with
         | Some session =>
             sessions_set jobId
               (V1.with_status (mkStatus jobId awaiting_otp "Waiting for OTP verification")
                  session)
         | None => ret tt
         end)))
    (fun r s' => Q (Return r) s').
Proof.
  intros HU s [[[Ht (new & E & F)] Hl] Hs].
  unfold bind, notify, sessions_get, sessions_set. rewrite cb_total. simpl.
  assert (forall s' : State V1.SessionData,
    updates s' = updates s ++ [U] ->
    (spares jobId others ->
     exists session, activeSessions s' !! jobId = Some session /\
       V1.status session = mkStatus jobId awaiting_otp "Waiting for OTP verification" /\
       V1.jobData session = jobData /\
       w_handle w (length (trace s0)) = Return (V1.browser session)) ->
    Q (Return tt) s') as Hend.
  { intros s' Hu' Hs'. split; [done |]. intros u Hu.
    unfold new_updates in Hu.
    rewrite Hu', E, <- app_assoc, drop_app_length, last_snoc in Hu. injection Hu as <-.
    split; [by rewrite HU |]. intros _. exact Hs'. }
  destruct (activeSessions s !! jobId) as [session |] eqn:Hget; simpl.
  - apply Hend; [done |]. intros Hsp. destruct (Hs Hsp) as (session' & Hs' & Hb & Hj).
    rewrite ?Hget in Hs'. injection Hs' as <-.
    exists (V1.with_status (mkStatus jobId awaiting_otp "Waiting for OTP verification")
              session).
    simpl. rewrite lookup_insert_eq. repeat split; [done |]. by rewrite Hb.
  - apply Hend; [done |]. intros Hsp. destruct (Hs Hsp) as (session' & Hs' & _).
    simpl in Hs'. congruence.
Qed.

Lemma handler_v1_ends (b : option Browser) e (s : State V1.SessionData) :
  under_way s0 s ->
  (b = None /\ w_handle w (length (trace s0)) = Throw e) \/
  (exists a, b = Some a /\ w_handle w (length (trace s0)) = Return a) ->
  wp (bind (match b with
            | Some browser => swallow (close (R := among others) w browser)
            | None => ret tt
            end)
        (fun _ => bind (sessions_delete jobId) (fun _ =>
           notify cb {| js_jobId := jobId; js_status := failed;
                        js_message := "Job posting failed";
                        js_hipagesJobId := None; js_hipagesJobUrl := None;
                        js_error := Some (errorText e) |}))) Q s.
Proof.
  intros [Ht (new & E & F)] Hb.
  assert (forall s1 : State V1.SessionData,
    trace s `prefix_of` trace s1 -> updates s1 = updates s ->
    (forall a, b = Some a -> Close a ∈ new_calls s0 s1) ->
    Q (Return tt)
      (add_update {| js_jobId := jobId; js_status := failed;
                     js_message := "Job posting failed";
                     js_hipagesJobId := None; js_hipagesJobUrl := None;
                     js_error := Some (errorText e) |}
         (set_sessions (delete jobId (activeSessions s1)) s1))) as Hend.
  { intros s1 Ht1 Hu1 Hc. split; [done |]. intros u Hu.
    unfold new_updates in Hu. simpl in Hu.
    rewrite Hu1, E, <- app_assoc, drop_app_length, last_snoc in Hu.
    injection Hu as <-. simpl. split; [| done]. intros _.
    split; [apply lookup_delete_eq |]. intros a Ha.
    destruct Hb as [[-> Hb] | (a' & -> & Ha')].
    - congruence.
    - apply Hc. congruence. }
  unfold wp, bind, sessions_delete, notify. rewrite cb_total.
  destruct b as [a |]; simpl.
  - unfold swallow, close, call. cbn [fst snd].
    set (s1 := @resume _ (among others) (add_call (Close a) s)).
    assert (Close a ∈ new_calls s0 s1) as Hca by (by apply new_calls_last).
    assert (trace s `prefix_of` trace s1) as Hp1 by (by apply prefix_app_r).
    destruct (w_unit w (length (trace s))) as [[] | e' |]; cbn [fst snd].
    + apply (Hend s1); [done | done | by intros ? [= <-]].
    + apply (Hend s1); [done | done | by intros ? [= <-]].
    + split; [done |]. apply under_way_settled. split.
      * by etrans.
      * by exists new.
  - apply (Hend s); [done | done | done].
Qed.

Lemma startJobPosting_v1_stops :
  wp (V1.startJobPosting (R := among others) w jobId jobData cb) Q s0.
Proof.
  unfold V1.startJobPosting.
  apply (ends_try_assign (under_way s0) (fun s => s = s0) launched).
  - intros s ->. unfold bind, notify, launch, call. rewrite cb_total. cbn [fst snd].
    assert (under_way s0
      (@resume _ (among others)
         (add_call Launch (add_update (mkStatus jobId pending "Launching browser...") s0))))
      as H.
    { apply (under_way_stable jobId others s0
               (add_update (mkStatus jobId pending "Launching browser...") s0));
        [apply calm_step_resume |].
      by apply under_way_update; [| | apply under_way_refl]. }
    cbn [trace add_update].
    by destruct (w_handle w (length (trace s0))) as [b | e |].
  - intros b.
    pose proof (launched_stable b) as Hst1. pose proof (launched_under_way b) as Hg1.
    pose proof (stored_stable b) as Hst2. pose proof (stored_under_way b) as Hg2.
    apply (ends_calm_bind jobId others); [calm_walk | done | done |]. intros page.
    apply (ends_calm_bind jobId others); [calm_walk | done | done |]. intros _.
    apply (ends_set_bind _ _ _ (stored b)).
    { intros s Hs. split; [done |]. intros _. eexists.
      split; [apply lookup_insert_eq | done]. }
    destruct (V1.wantsPhotos jobData) as [p |];
      repeat first
        [ progress intros
        | apply finish_v1_ends; reflexivity
        | apply ends_notify_bind;
            [ apply cb_total | intros; apply stored_update; [done | done | assumption] | ]
        | apply (ends_calm_bind jobId others);
            [ solve [ calm_walk ] | assumption | assumption | ]
        | apply (ends_bind _ _ (fun _ => stored b))
        | apply (ends_calm jobId others); [ solve [ calm_walk ] | assumption | assumption ]
        | apply ends_ret ].
  - intros s' H. split; [done | by apply under_way_settled].
  - intros b e s' H Hb. apply handler_v1_ends; [done |].
    assert ((bind (notify cb (mkStatus jobId pending "Launching browser..."))
               (fun _ => launch (R := among others) w) s0).1
            = w_handle w (length (trace s0))) as Hm.
    { unfold bind, notify, launch, call. rewrite cb_total. cbn [fst snd trace add_update].
      by destruct (w_handle w (length (trace s0))). }
    by rewrite Hm in Hb.
  - done.
Qed.

(** X10. [startJobPosting] of the first listing, given a callback that
    does not throw, and whatever the other calls do to the session map
    while the run is suspended. It never throws. After a last update
    [failed] no session is stored for the job and [close] was called on
    the browser that was launched. After a last update [awaiting_otp],
    and when the other calls have left the session of the job alone, the
    session is stored, with the request, the launched browser, and the
    cached status [awaiting_otp], "Waiting for OTP verification". *)
Theorem startJobPosting_v1_ends :
  let r := V1.startJobPosting (R := among others) w jobId jobData cb s0 in
  (forall e, r.1 <> Throw e) /\
  forall u, last (new_updates s0 r.2) = Some u ->
    (js_status u = failed ->
       activeSessions r.2 !! jobId = None /\
       forall b, w_handle w (length (trace s0)) = Return b ->
         Close b ∈ new_calls s0 r.2) /\
    (js_status u = awaiting_otp -> spares jobId others ->
       exists session, activeSessions r.2 !! jobId = Some session /\
         V1.status session = mkStatus jobId awaiting_otp "Waiting for OTP verification" /\
         V1.jobData session = jobData /\
         w_handle w (length (trace s0)) = Return (V1.browser session)).
Proof. exact startJobPosting_v1_stops. Qed.

End EndV1.

Lemma startJobPosting_v1_ends_witness :
  let r := V1.startJobPosting (R := among (cancelled_during "job-1" 7)) (navigation_timeout 3)
             "job-1" (leaking_tap None) never_throws empty_state in
  r.1 = Return tt /\
  (exists u, last (updates r.2) = Some u /\ js_status u = failed /\
     js_error u = Some "Navigation timeout of 30000 ms exceeded") /\
  activeSessions r.2 !! "job-1" = None /\
  Close 0 ∈ new_calls empty_state r.2.
Proof.
  cbv zeta.
  destruct (startJobPosting_v1_ends (navigation_timeout 3) "job-1" (leaking_tap None)
              never_throws (cancelled_during "job-1" 7) empty_state (fun _ => eq_refl))
    as [_ H].
  split; [vm_compute; reflexivity |].
  split; [eexists; vm_compute; repeat split |].
  edestruct H as [Hf _]; [vm_compute; reflexivity |].
  destruct (Hf eq_refl) as [Habs Hclose].
  split; [exact Habs | apply Hclose; reflexivity].
Defined.

(** ** How startJobPosting of the second listing ends *)

Section EndV2.

Variables (w : World) (jobId : string) (jobData : HiPagesJobRequest) (cb : Callback).
Variable others : nat -> gmap string V2.SessionData -> gmap string V2.SessionData.
Variable s0 : State V2.SessionData.
Hypothesis cb_total : forall u, cb u = None.
Hypothesis others_spare : spares jobId others.

Let settled_state (s : State V2.SessionData) : Prop :=
  forall u, last (new_updates s0 s) = Some u ->
    (js_status u = failed ->
       activeSessions s !! jobId = None /\
       forall b, w_handle w (length (trace s0)) = Return b -> Close b ∈ new_calls s0 s) /\
    (js_status u = awaiting_otp ->
       exists session, activeSessions s !! jobId = Some session /\
         V2.status session = u /\
         w_handle w (length (trace s0)) = Return (V2.browser session)).

Let Q (o : Outcome unit) (s : State V2.SessionData) : Prop :=
  settled_state s /\
  forall e, o = Throw e ->
    Forall (fun u => js_status u <> failed) (new_updates s0 s) /\
    exists b, w_handle w (length (trace s0)) = Return b /\ Close b ∈ new_calls s0 s.

Let launched (b : Browser) (s : State V2.SessionData) : Prop :=
  under_way s0 s /\ w_handle w (length (trace s0)) = Return b.

Let stored (b : Browser) (s : State V2.SessionData) : Prop :=
  launched b s /\
  exists session, activeSessions s !! jobId = Some session /\
    V2.browser session = b /\
    js_status (V2.status session) <> failed /\
    js_status (V2.status session) <> awaiting_otp.

Lemma under_way_settled_v2 s : under_way s0 s -> settled_state s.
Proof.
  intros H u Hu. destruct (under_way_last _ _ _ H Hu) as [Hf Ha]. by split.
Qed.

Lemma under_way_not_failed s :
  under_way s0 s -> Forall (fun u => js_status u <> failed) (new_updates s0 s).
Proof.
  intros [_ (new & E & F)]. unfold new_updates. rewrite E, drop_app_length.
  eapply Forall_impl; [exact F |]. by intros u [Hf _].
Qed.

Lemma launched_stable_v2 b : calm_stable jobId others (launched b).
Proof. intros s s' Hq [H Hl]. split; [by eapply under_way_stable | done]. Qed.

Lemma stored_stable_v2 b : calm_stable jobId others (stored b).
Proof.
  intros s s' Hq [H (session & Hs & Hb)]. split; [by eapply launched_stable_v2 |].
  exists session. by rewrite (c_entry _ _ _ _ Hq others_spare).
Qed.

Lemma stored_under_way_v2 b (o : option Thrown) s : stored b s -> under_way s0 s.
Proof. by intros [[H _] _]. Qed.

Lemma launched_under_way_v2 b (o : option Thrown) s : launched b s -> under_way s0 s.
Proof. by intros [H _]. Qed.

(** An [updateStatus] in mid-run: it keeps the status of the session or
    sets one that is neither [failed] nor [awaiting_otp]. *)
Lemma ends_updateStatus_bind {B} G b p (f : unit -> M V2.SessionData B) R :
  (forall x, V2.p_status p = Some x -> x <> failed /\ x <> awaiting_otp) ->
  ends G (stored b) (f tt) R ->
  ends G (stored b) (bind (V2.updateStatus jobId cb p) f) R.
Proof.
  intros Hp Hf s [[Hu Hl] (session & Hs & Hb & Hnf & Hna)].
  unfold V2.updateStatus, bind, sessions_get, sessions_set, notify.
  rewrite ?cb_total. simpl. rewrite Hs. simpl. rewrite ?cb_total.
  assert (js_status (V2.spread (V2.status session) p) <> failed /\
          js_status (V2.spread (V2.status session) p) <> awaiting_otp) as [H1 H2].
  { simpl. destruct (V2.p_status p) as [x |]; simpl; [by apply Hp | done]. }
  apply Hf. split; [split; [by apply under_way_update | done] |].
  eexists. split; [apply lookup_insert_eq |]. by repeat split.
Qed.

Lemma finish_v2_ends b msg :
  ends (fun _ => under_way s0) (stored b)
    (V2.updateStatus jobId cb {| V2.p_status := Some awaiting_otp; V2.p_message := msg |})
    (fun r s' => Q (Return r) s').
Proof.
  intros s [[[Ht (new & E & F)] Hl] (session & Hs & Hb & _)].
  unfold V2.updateStatus, bind, sessions_get, sessions_set, notify.
  rewrite ?cb_total. simpl. rewrite Hs. simpl. rewrite ?cb_total.
  split; [| done]. intros u Hu.
  unfold new_updates in Hu. simpl in Hu.
  rewrite E, <- app_assoc, drop_app_length, last_snoc in Hu. injection Hu as <-.
  split; [done |]. intros _.
  eexists. split; [simpl; apply lookup_insert_eq |]. split; [done |]. simpl.
  by rewrite Hb.
Qed.

Lemma handler_v2_ends (b : option Browser) e (s : State V2.SessionData) :
  under_way s0 s ->
  (b = None /\ w_handle w (length (trace s0)) = Throw e) \/
  (exists a, b = Some a /\ w_handle w (length (trace s0)) = Return a) ->
  wp (bind (match b with
            | Some browser => close (R := among others) w browser
            | None => ret tt
            end)
        (fun _ => bind (sessions_delete jobId) (fun _ =>
           notify cb {| js_jobId := jobId; js_status := failed;
                        js_message := "Failed to post job";
                        js_hipagesJobId := None; js_hipagesJobUrl := None;
                        js_error := Some (errorText e) |}))) Q s.
Proof.
  intros Hway Hb. pose proof Hway as [Ht (new & E & F)].
  assert (forall s1 : State V2.SessionData,
    trace s `prefix_of` trace s1 -> updates s1 = updates s ->
    (forall a, b = Some a -> Close a ∈ new_calls s0 s1) ->
    Q (Return tt)
      (add_update {| js_jobId := jobId; js_status := failed;
                     js_message := "Failed to post job";
                     js_hipagesJobId := None; js_hipagesJobUrl := None;
                     js_error := Some (errorText e) |}
         (set_sessions (delete jobId (activeSessions s1)) s1))) as Hend.
  { intros s1 Ht1 Hu1 Hc. split; [| done]. intros u Hu.
    unfold new_updates in Hu. simpl in Hu.
    rewrite Hu1, E, <- app_assoc, drop_app_length, last_snoc in Hu.
    injection Hu as <-. simpl. split; [| done]. intros _.
    split; [apply lookup_delete_eq |]. intros a Ha.
    destruct Hb as [[-> Hb] | (a' & -> & Ha')].
    - congruence.
    - apply Hc. congruence. }
  unfold wp, bind, sessions_delete, notify. rewrite cb_total.
  destruct b as [a |]; simpl.
  - unfold close, call. cbn [fst snd].
    set (s1 := @resume _ (among others) (add_call (Close a) s)).
    assert (under_way s0 s1) as Hway'
      by (eapply (under_way_stable jobId others); [apply calm_step_resume | done]).
    assert (Close a ∈ new_calls s0 s1) as Hca by (by apply new_calls_last).
    destruct (w_unit w (length (trace s))) as [[] | e' |]; cbn [fst snd].
    + apply (Hend s1); [by apply prefix_app_r | done | by intros ? [= <-]].
    + split; [by apply under_way_settled_v2 |]. intros _ _.
      split; [by apply under_way_not_failed |].
      destruct Hb as [[? _] | (a' & [= <-] & Ha')]; [done |].
      by exists a.
    + split; [by apply under_way_settled_v2 | done].
  - apply (Hend s); [done | done | done].
Qed.

Lemma startJobPosting_v2_stops :
  wp (V2.startJobPosting (R := among others) w jobId jobData cb) Q s0.
Proof.
  unfold V2.startJobPosting. cbv zeta.
  assert ((bind (V2.updateStatus jobId cb
                   {| V2.p_status := Some pending;
                      V2.p_message := Some "Launching browser..." |})
             (fun _ => launch (R := among others) w) s0).1
          = w_handle w (length (trace s0))) as Hm.
  { unfold V2.updateStatus, bind, sessions_get, sessions_set, notify, launch, call.
    rewrite ?cb_total. simpl.
    destruct (activeSessions s0 !! jobId); simpl; rewrite ?cb_total;
      by destruct (w_handle w (length (trace s0))). }
  apply (ends_try_assign (under_way s0) (fun s => s = s0) launched).
  - intros s ->. rewrite Hm.
    assert (under_way s0
      (bind (V2.updateStatus jobId cb
               {| V2.p_status := Some pending;
                  V2.p_message := Some "Launching browser..." |})
         (fun _ => launch (R := among others) w) s0).2) as H.
    { unfold V2.updateStatus, bind, sessions_get, sessions_set, notify, launch, call.
      rewrite ?cb_total. simpl.
      destruct (activeSessions s0 !! jobId); simpl; rewrite ?cb_total; simpl;
        (split; [by apply prefix_app_r |]); eexists [_];
        (split; [reflexivity |]); by repeat constructor. }
    by destruct (w_handle w (length (trace s0))) as [b | e |].
  - intros b.
    pose proof (launched_stable_v2 b) as Hst1. pose proof (launched_under_way_v2 b) as Hg1.
    pose proof (stored_stable_v2 b) as Hst2. pose proof (stored_under_way_v2 b) as Hg2.
    apply (ends_calm_bind jobId others); [calm_walk | done | done |]. intros page.
    apply (ends_calm_bind jobId others); [calm_walk | done | done |]. intros _.
    apply (ends_calm_bind jobId others); [calm_walk | done | done |]. intros _.
    apply (ends_set_bind _ _ _ (stored b)).
    { intros s Hs. split; [done |]. eexists. split; [apply lookup_insert_eq | done]. }
    destruct (V2.wantsPhotos jobData) as [p |];
      repeat first
        [ progress intros
        | apply finish_v2_ends
        | apply ends_updateStatus_bind; [ by intros x [= <-] | ]
        | apply (ends_calm_bind jobId others);
            [ solve [ calm_walk ] | assumption | assumption | ]
        | apply (ends_bind _ _ (fun _ => stored b))
        | apply (ends_calm jobId others); [ solve [ calm_walk ] | assumption | assumption ]
        | apply ends_ret ].
  - intros s' H. split; [by apply under_way_settled_v2 | done].
  - intros b e s' H Hb. apply handler_v2_ends; [done |]. by rewrite Hm in Hb.
  - done.
Qed.

(** X11. [startJobPosting] of the second listing, given a callback that
    does not throw and other calls that leave the session of the job
    alone while the run is suspended. After a last update [failed] no
    session is stored for the job and [close] was called on the launched
    browser; after a last update [awaiting_otp] the session is stored,
    owns the launched browser and caches that very status. The function
    can throw: then the launched browser has been asked to close and no
    [failed] status has been handed to the callback. *)
Theorem startJobPosting_v2_ends :
  let r := V2.startJobPosting (R := among others) w jobId jobData cb s0 in
  (forall u, last (new_updates s0 r.2) = Some u ->
     (js_status u = failed ->
        activeSessions r.2 !! jobId = None /\
        forall b, w_handle w (length (trace s0)) = Return b ->
          Close b ∈ new_calls s0 r.2) /\
     (js_status u = awaiting_otp ->
        exists session, activeSessions r.2 !! jobId = Some session /\
          V2.status session = u /\
          w_handle w (length (trace s0)) = Return (V2.browser session))) /\
  forall e, r.1 = Throw e ->
    Forall (fun u => js_status u <> failed) (new_updates s0 r.2) /\
    exists b, w_handle w (length (trace s0)) = Return b /\ Close b ∈ new_calls s0 r.2.
Proof. exact startJobPosting_v2_stops. Qed.

End EndV2.

Lemma startJobPosting_v2_ends_witness :
  let others := cancelled_during "job-2" 3 in
  let r := V2.startJobPosting (R := among others) timeout_then_stuck "job-1"
             (leaking_tap None) never_throws empty_state in
  spares "job-1" others /\
  r.1 = Throw (ErrorObj "Protocol error (Browser.close): Target closed") /\
  Forall (fun u => js_status u <> failed) (new_updates empty_state r.2) /\
  Close 0 ∈ new_calls empty_state r.2 /\
  is_Some (activeSessions r.2 !! "job-1").
Proof.
  cbv zeta.
  assert (spares (Session := V2.SessionData) "job-1" (cancelled_during "job-2" 3)) as Hsp
    by (by apply cancelled_during_spares).
  destruct (startJobPosting_v2_ends timeout_then_stuck "job-1" (leaking_tap None)
              never_throws (cancelled_during "job-2" 3) empty_state (fun _ => eq_refl) Hsp)
    as [_ H].
  destruct (H _ eq_refl) as [Hnf (b & Hb & Hc)].
  split; [exact Hsp |].
  split; [vm_compute; reflexivity |]. split; [exact Hnf |].
  split; [by injection Hb as <- |]. vm_compute. by eexists.
Defined.

(** The [cancelSession] that the guards of lines 136 and 419 are there
    for. Every call resolves, and while the run awaits its last [delay] a
    [cancelSession] elsewhere removes the session of the job: both
    listings hand [awaiting_otp] to the callback and return with no
    session stored. *)
Lemma startJobPosting_cancelled_late :
  (let r := V1.startJobPosting (R := among (cancelled_during "job-1" 21)) bare_page "job-1"
              (leaking_tap None) never_throws empty_state in
   r.1 = Return tt /\ length (trace r.2) = 21 /\
   last (trace r.2) = Some (Delay 3000) /\
   (js_status <$> last (updates r.2)) = Some awaiting_otp /\
   activeSessions r.2 !! "job-1" = None) /\
  (let r := V2.startJobPosting (R := among (cancelled_during "job-1" 28)) bare_page "job-1"
              (leaking_tap None) never_throws empty_state in
   r.1 = Return tt /\ length (trace r.2) = 28 /\
   last (trace r.2) = Some (Delay 2000) /\
   (js_status <$> last (updates r.2)) = Some awaiting_otp /\
   activeSessions r.2 !! "job-1" = None).
Proof. vm_compute. repeat split. Qed.

(** ** When every call resolves *)

Section MoreSettled.

Context {Session : Type}.

Lemma settled_now w : settled (Session := Session) (now w).
Proof. intros s. by eexists. Qed.

Lemma settled_writeFileSync w path :
  writes w -> settled (Session := Session) (writeFileSync w path).
Proof. intros Hw s. exists tt. unfold writeFileSync. by rewrite Hw. Qed.

Lemma settled_swallow_unlinkSync w path :
  settled (Session := Session) (swallow (unlinkSync w path)).
Proof.
  intros s. exists tt. unfold swallow, unlinkSync. case_bool_decide; [| done].
  by destruct (w_unlink w (length (trace s))).
Qed.

Lemma settled_for_each {A} (l : list A) (body : A -> M Session unit) :
  (forall x, settled (body x)) -> settled (for_each l body).
Proof.
  intros Hb. induction l as [| x r IH]; simpl.
  - apply settled_ret.
  - apply settled_bind; [apply Hb | intros _; exact IH].
Qed.

Lemma settled_try_steps {L} (steps : list (L -> M Session L)) :
  Forall (fun st => forall l, settled (st l)) steps ->
  forall l s, (try_steps steps l s).1.1 = Return tt.
Proof.
  induction 1 as [| st rest Hst _ IH]; intros l s; simpl; [done |].
  destruct (Hst l s) as [l' Hl]. destruct (st l s) as [o s1]; simpl in *; subst o.
  apply IH.
Qed.

Lemma settled_try_finally {L} (init : L) steps (fin : L -> M Session unit) :
  Forall (fun st => forall l, settled (st l)) steps ->
  (forall l, settled (fin l)) ->
  settled (try_finally init steps fin).
Proof.
  intros Hs Hf s. exists tt. unfold try_finally.
  pose proof (settled_try_steps steps Hs init s) as H1.
  destruct (try_steps steps init s) as [[o l] s1]; simpl in *; subst o.
  destruct (Hf l s1) as [[] Hl]. by destruct (fin l s1) as [o s2]; simpl in *; subst o.
Qed.

Lemma settled_notify cb u : cb u = None -> settled (Session := Session) (notify cb u).
Proof. intros H s. exists tt. unfold notify. by rewrite H. Qed.

Lemma settled_sessions_get jobId : settled (Session := Session) (sessions_get jobId).
Proof. intros s. by eexists. Qed.

Lemma settled_sessions_set jobId v : settled (Session := Session) (sessions_set jobId v).
Proof. intros s. by exists tt. Qed.

Lemma settled_try_assign {A B} (m1 : M Session A) (m2 : A -> M Session B) h :
  settled m1 -> (forall a, settled (m2 a)) -> settled (try_assign m1 m2 h).
Proof.
  intros H1 H2 s. unfold try_assign, try_catch. destruct (H1 s) as [a Ha].
  destruct (m1 s) as [o s1]; simpl in *; subst o.
  destruct (H2 a s1) as [b Hb]. exists b.
  by destruct (m2 a s1) as [o s2]; simpl in *; subst o.
Qed.

(** A [try] that nothing interrupts hands the callback its whole plan. *)
Lemma emits_try_assign_settled {A B} (P R Q : gmap string Session -> Prop)
    (m1 : M Session A) (m2 : A -> M Session B) h p1 p2 s :
  settled m1 -> (forall a, settled (m2 a)) ->
  emits P m1 p1 R -> (forall a, emits R (m2 a) p2 Q) ->
  P (activeSessions s) ->
  map js_status (new_updates s (try_assign m1 m2 h s).2) = p1 ++ p2.
Proof.
  intros S1 S2 E1 E2 HP. unfold try_assign, try_catch, new_updates.
  destruct (S1 s) as [a Ha]. destruct (E1 s HP) as (new1 & U1 & G1).
  destruct (m1 s) as [o s1]; simpl in *; subst o. destruct G1 as [G1 HR].
  destruct (S2 a s1) as [b Hb]. destruct (E2 a s1 HR) as (new2 & U2 & G2).
  destruct (m2 a s1) as [o s2]; simpl in *; subst o. destruct G2 as [G2 _].
  simpl. by rewrite U2, U1, <- app_assoc, drop_app_length, map_app, G1, G2.
Qed.

End MoreSettled.

#[export] Hint Resolve settled_now settled_writeFileSync settled_swallow_unlinkSync
  settled_sessions_get settled_sessions_set : settled.

Ltac settled_more :=
  repeat first
    [ progress intros
    | assumption
    | solve [ eauto with settled ]
    | apply settled_notify; solve [ auto ]
    | apply settled_for_each
    | apply settled_try_finally
    | apply Forall_cons_2
    | apply Forall_nil_2
    | apply settled_bind
    | apply settled_swallow
    | apply settled_call_unit
    | apply settled_call_handle
    | apply settled_call_elem
    | apply settled_call_elems
    | apply settled_call_text
    | match goal with
      | |- settled (match ?x with _ => _ end) => destruct x
      | |- settled (if ?x then _ else _) => destruct x
      end ].

Section SettledV1.

Variable w : World.
Context {R : Resumption V1.SessionData}.
Hypothesis Hw : settles w.
Hypothesis Hwr : writes w.

Variables (jobId : string) (jobData : HiPagesJobRequest) (cb : Callback).
Hypothesis cb_total : forall u, cb u = None.

Lemma settled_v1_startJobPosting : settled (V1.startJobPosting w jobId jobData cb).
Proof.
  unfold V1.startJobPosting, V1.fillCategory, V1.fillLocation, V1.clickGetQuotes,
    V1.answerFormQuestions, V1.fillDescription, V1.uploadPhotos, V1.fillContactDetails.
  apply settled_try_assign; settled_more.
Qed.

End SettledV1.

Section SettledRuns.

Variable w : World.
Context {R : Resumption V2.SessionData}.
Hypothesis Hw : settles w.
Hypothesis Hwr : writes w.

Lemma settled_v2_questionLoop n p : settled (V2.questionLoop w n p).
Proof.
  induction n as [| k IH]; [apply settled_ret |].
  change (V2.questionLoop w (S k) p) with
    (bind (query w p "textarea") (fun textarea =>
       match textarea with
       | Some _ => ret tt
       | None =>
           bind (queryAll w p "input[type='radio']:not(:checked)") (fun radioButtons =>
             bind (match radioButtons with
                   | first :: _ => bind (click w first 1) (fun _ => delay 500)
                   | [] => ret tt
                   end) (fun _ =>
               bind (V2.findAndClickButton w p ["next"; "continue"]) (fun clicked =>
                 if clicked then bind (delay 1000) (fun _ => V2.questionLoop w k p)
                 else ret tt)))
       end)).
  pose proof (settled_v2_findAndClickButton w Hw p) as Hf.
  settled_more.
Qed.

Variables (jobId : string) (jobData : HiPagesJobRequest) (cb : Callback).
Hypothesis cb_total : forall u, cb u = None.

Lemma settled_v2_startJobPosting : settled (V2.startJobPosting w jobId jobData cb).
Proof.
  pose proof (settled_v2_findAndClickButton w Hw) as Hf.
  pose proof settled_v2_questionLoop as Hq.
  unfold V2.startJobPosting, V2.updateStatus, V2.fillCategory, V2.fillLocation,
    V2.clickGetQuotes, V2.answerFormQuestions, V2.fillDescription, V2.uploadPhotos,
    V2.fillContactDetails.
  cbv zeta. apply settled_try_assign; settled_more.
Qed.

End SettledRuns.

Lemma last_of_map {A B} (f : A -> B) (l : list A) (l' : list B) (x : B) :
  map f l = l' ++ [x] -> exists u, last l = Some u /\ f u = x.
Proof.
  intros H. destruct (last l) as [u |] eqn:Hl.
  - exists u. split; [done |]. apply last_Some in Hl as [k ->].
    rewrite map_app in H. simpl in H. by apply app_inj_tail in H as [_ ->].
  - apply last_None in Hl as ->. by destruct l'.
Qed.

Section Success.

Variable w : World.
Hypothesis Hw : settles w.
Hypothesis Hwr : writes w.
Variables (jobId : string) (jobData : HiPagesJobRequest) (cb : Callback).
Hypothesis cb_total : forall u, cb u = None.

(** X12. When every call resolves, every temporary file can be written
    and the callback does not throw, [startJobPosting] of the first
    listing returns and hands the callback exactly the statuses of its
    plan (pending, six times filling_form, uploading_photos if the
    request has a photo, filling_form, awaiting_otp), whatever the other
    calls do to the session map meanwhile. When they leave the session of
    the job alone, the run leaves it stored with the request, the
    launched browser and the cached status [awaiting_otp]. *)
Theorem startJobPosting_v1_succeeds
    (others : nat -> gmap string V1.SessionData -> gmap string V1.SessionData)
    (s : State V1.SessionData) :
  let r := V1.startJobPosting (R := among others) w jobId jobData cb s in
  r.1 = Return tt /\
  map js_status (new_updates s r.2)
    = plan_v1 (bool_decide (is_Some (V1.wantsPhotos jobData))) /\
  (spares jobId others ->
   exists session, activeSessions r.2 !! jobId = Some session /\
     V1.status session = mkStatus jobId awaiting_otp "Waiting for OTP verification" /\
     V1.jobData session = jobData /\
     w_handle w (length (trace s)) = Return (V1.browser session)).
Proof.
  cbv zeta.
  assert (map js_status
            (new_updates s (V1.startJobPosting (R := among others) w jobId jobData cb s).2)
          = plan_v1 (bool_decide (is_Some (V1.wantsPhotos jobData)))) as Hplan.
  { unfold V1.startJobPosting.
    destruct (V1.wantsPhotos jobData) as [p |];
      (etrans;
         [ eapply (emits_try_assign_settled (fun _ => True) (fun _ => True) (fun _ => True));
             [ unfold V1.fillCategory, V1.fillLocation, V1.clickGetQuotes,
                 V1.answerFormQuestions, V1.fillDescription, V1.uploadPhotos,
                 V1.fillContactDetails; settled_more ..
             | emits_walk jobId others | emits_walk jobId others | exact I ]
         | reflexivity ]). }
  split; [| split; [exact Hplan |]].
  - destruct (settled_v1_startJobPosting w (R := among others) Hw Hwr jobId jobData cb
                cb_total s) as [[] H].
    exact H.
  - intros Hsp.
    destruct (last_of_map js_status
                (new_updates s
                   (V1.startJobPosting (R := among others) w jobId jobData cb s).2)
                ([pending; filling_form; filling_form; filling_form; filling_form;
                  filling_form; filling_form]
                 ++ (if bool_decide (is_Some (V1.wantsPhotos jobData))
                     then [uploading_photos] else []) ++ [filling_form])
                awaiting_otp) as (u & Hl & Hu).
    { rewrite Hplan. unfold plan_v1. by rewrite <- !app_assoc. }
    destruct (startJobPosting_v1_stops w jobId jobData cb others s cb_total) as [_ H].
    destruct (H u Hl) as [_ Ha]. by apply Ha.
Qed.

(** X13. The same for the second listing, when the other calls leave the
    session of the job alone: the run returns, hands the callback exactly
    the statuses of its plan (after uploading_photos the status stays
    uploading_photos until awaiting_otp), and leaves the session stored
    with the launched browser; the cached status is the last status
    handed to the callback, [awaiting_otp]. *)
Theorem startJobPosting_v2_succeeds
    (others : nat -> gmap string V2.SessionData -> gmap string V2.SessionData)
    (s : State V2.SessionData) :
  spares jobId others ->
  let r := V2.startJobPosting (R := among others) w jobId jobData cb s in
  r.1 = Return tt /\
  map js_status (new_updates s r.2)
    = plan_v2 (bool_decide (is_Some (V2.wantsPhotos jobData))) /\
  exists session, activeSessions r.2 !! jobId = Some session /\
    js_status (V2.status session) = awaiting_otp /\
    last (new_updates s r.2) = Some (V2.status session) /\
    w_handle w (length (trace s)) = Return (V2.browser session).
Proof.
  intros Hsp. cbv zeta.
  pose proof (settled_v2_findAndClickButton w (R := among others) Hw) as Hf.
  pose proof (settled_v2_questionLoop w (R := among others) Hw) as Hq.
  assert (map js_status
            (new_updates s (V2.startJobPosting (R := among others) w jobId jobData cb s).2)
          = plan_v2 (bool_decide (is_Some (V2.wantsPhotos jobData)))) as Hplan.
  { unfold V2.startJobPosting. cbv zeta.
    destruct (V2.wantsPhotos jobData) as [p |];
      (etrans;
         [ eapply (emits_try_assign_settled (fun _ => True) (fun _ => True));
             [ unfold V2.updateStatus, V2.fillCategory, V2.fillLocation, V2.clickGetQuotes,
                 V2.answerFormQuestions, V2.fillDescription, V2.uploadPhotos,
                 V2.fillContactDetails; settled_more ..
             | emits_walk_v2 jobId others | emits_walk_v2 jobId others | exact I ]
         | reflexivity ]). }
  split; [| split; [exact Hplan |]].
  - destruct (settled_v2_startJobPosting w (R := among others) Hw Hwr jobId jobData cb
                cb_total s) as [[] H].
    exact H.
  - destruct (last_of_map js_status
                (new_updates s
                   (V2.startJobPosting (R := among others) w jobId jobData cb s).2)
                ([pending; filling_form; filling_form; filling_form; filling_form;
                  filling_form]
                 ++ (if bool_decide (is_Some (V2.wantsPhotos jobData))
                     then [uploading_photos; uploading_photos] else [filling_form]))
                awaiting_otp) as (u & Hl & Hu).
    { rewrite Hplan. unfold plan_v2. by rewrite <- !app_assoc. }
    destruct (startJobPosting_v2_stops w jobId jobData cb others s cb_total Hsp) as [H _].
    destruct (H u Hl) as [_ Ha]. destruct (Ha Hu) as (session & Hs & Hst & Hb).
    exists session. split; [done |]. split; [by rewrite Hst |]. split; [| done].
    by rewrite Hst.
Qed.

End Success.

Lemma bare_page_settles : settles bare_page.
Proof. intros n. repeat split; eauto. Qed.

Lemma bare_page_writes : writes bare_page.
Proof. by intros n. Qed.

Lemma startJobPosting_v1_succeeds_witness :
  let others := cancelled_during "job-2" 9 in
  let r := V1.startJobPosting (R := among others) bare_page "job-1"
             (leaking_tap (Some one_photo)) never_throws empty_state in
  r.1 = Return tt /\
  map js_status (new_updates empty_state r.2) = plan_v1 true /\
  exists session, activeSessions r.2 !! "job-1" = Some session /\
    V1.browser session = 0.
Proof.
  destruct (startJobPosting_v1_succeeds bare_page bare_page_settles bare_page_writes "job-1"
              (leaking_tap (Some one_photo)) never_throws (fun _ => eq_refl)
              (cancelled_during "job-2" 9) empty_state)
    as (H1 & H2 & H3).
  destruct H3 as (session & Hs & _ & _ & Hb); [by apply cancelled_during_spares |].
  split; [exact H1 |]. split; [exact H2 |].
  exists session. split; [exact Hs |]. by injection Hb.
Defined.

Lemma startJobPosting_v2_succeeds_witness :
  let others := cancelled_during "job-2" 9 in
  let r := V2.startJobPosting (R := among others) bare_page "job-1" (leaking_tap None)
             never_throws empty_state in
  spares "job-1" others /\
  r.1 = Return tt /\
  map js_status (new_updates empty_state r.2) = plan_v2 false /\
  exists session, activeSessions r.2 !! "job-1" = Some session /\
    js_status (V2.status session) = awaiting_otp /\
    V2.browser session = 0.
Proof.
  cbv zeta.
  assert (spares (Session := V2.SessionData) "job-1" (cancelled_during "job-2" 9)) as Hsp
    by (by apply cancelled_during_spares).
  destruct (startJobPosting_v2_succeeds bare_page bare_page_settles bare_page_writes "job-1"
              (leaking_tap None) never_throws (fun _ => eq_refl)
              (cancelled_during "job-2" 9) empty_state Hsp)
    as (H1 & H2 & session & Hs & Hst & _ & Hb).
  split; [exact Hsp |]. split; [exact H1 |]. split; [exact H2 |].
  exists session. split; [exact Hs |]. split; [exact Hst |]. by injection Hb.
Defined.

(** ** The cached status in the first listing *)

Section Preserves.

Context {Session : Type}.
Variable P : gmap string Session -> Prop.

Lemma preserves_quiet {A} (m : M Session A) : quiet m -> preserves P m.
Proof. intros Hq s HP. by rewrite (q_sessions _ _ (Hq s)). Qed.

Lemma preserves_notify cb u : preserves P (notify (Session := Session) cb u).
Proof. by intros s HP. Qed.

Lemma preserves_bind {A B} (m : M Session A) (f : A -> M Session B) :
  preserves P m -> (forall a, preserves P (f a)) -> preserves P (bind m f).
Proof.
  intros Hm Hf s HP. specialize (Hm s HP). unfold bind.
  destruct (m s) as [[a | e |] s1]; simpl in *; [by apply Hf | done | done].
Qed.

Lemma preserves_sessions_get jobId (f : option Session -> M Session unit) :
  (forall session s, activeSessions s !! jobId = Some session ->
     P (activeSessions s) -> P (activeSessions (f (Some session) s).2)) ->
  preserves P (f None) ->
  preserves P (bind (sessions_get jobId) f).
Proof.
  intros Hs Hn s HP. unfold bind, sessions_get. simpl.
  destruct (activeSessions s !! jobId) as [session |] eqn:E; [by apply Hs | by apply Hn].
Qed.

Lemma preserves_try_assign {A B} (m1 : M Session A) (m2 : A -> M Session B) h :
  preserves P m1 -> (forall a, preserves P (m2 a)) -> (forall b e, preserves P (h b e)) ->
  preserves P (try_assign m1 m2 h).
Proof.
  intros H1 H2 Hh s HP. specialize (H1 s HP). unfold try_assign, try_catch.
  destruct (m1 s) as [[a | e |] s1]; simpl in *; [| by apply Hh | done].
  specialize (H2 a s1 H1).
  destruct (m2 a s1) as [[b | e |] s2]; simpl in *; [done | by apply Hh | done].
Qed.

End Preserves.

Section CacheV1.

Variables (w : World) (jobId : string) (jobData : HiPagesJobRequest) (cb : Callback).

Lemma coarse_insert m (session : V1.SessionData) :
  coarse_status jobId (V1.status session) -> coarse_cache jobId (<[jobId := session]> m).
Proof. intros H session'. rewrite lookup_insert_eq. by intros [= <-]. Qed.

Lemma coarse_delete m : coarse_cache jobId (delete jobId m).
Proof. intros session. by rewrite lookup_delete_eq. Qed.

Lemma preserves_v1_startJobPosting :
  preserves (coarse_cache jobId) (V1.startJobPosting w jobId jobData cb).
Proof.
  unfold V1.startJobPosting.
  apply preserves_try_assign; intros;
    repeat first
      [ progress intros
      | lazymatch goal with
        | |- preserves _ (notify _ _) => apply preserves_notify
        | |- preserves _ (bind (sessions_get _) _) =>
            apply preserves_sessions_get;
            [ intros ? ? _ _; apply coarse_insert; by right
            | apply preserves_quiet, quiet_ret ]
        | |- preserves _ (bind (sessions_set _ _) _) =>
            apply preserves_bind; [ intros ? _; apply coarse_insert; by left | ]
        | |- preserves _ (bind (sessions_delete _) _) =>
            apply preserves_bind; [ intros ? _; apply coarse_delete | ]
        | |- preserves _ (bind _ _) => apply preserves_bind
        | |- preserves _ (match ?x with _ => _ end) => destruct x
        | |- preserves _ _ => apply preserves_quiet; solve [ quiet_walk ]
        end ].
Qed.

End CacheV1.

(** X14. In the first listing the cached status of a job does not follow
    the updates. Started for a job that has no session, [startJobPosting]
    leaves the session, whenever there is one, caching one of two
    statuses: [filling_form], "Starting...", stored with the session, or
    [awaiting_otp], "Waiting for OTP verification", written at the end.
    So [getJobStatus] answers one of these two, a miss apart, whatever the
    callback was handed last. *)
Theorem startJobPosting_v1_cache_is_coarse (w : World) (jobId : string)
    (jobData : HiPagesJobRequest) (cb : Callback) (s : State V1.SessionData) :
  activeSessions s !! jobId = None ->
  match V1.getJobStatus jobId (V1.startJobPosting w jobId jobData cb s).2 with
  | Some st => coarse_status jobId st
  | None => True
  end.
Proof.
  intros Hs. unfold V1.getJobStatus.
  destruct (activeSessions (V1.startJobPosting w jobId jobData cb s).2 !! jobId)
    as [session |] eqn:E; [| done].
  assert (coarse_cache jobId (activeSessions s)) as H0
    by (intros session'; by rewrite Hs).
  exact (preserves_v1_startJobPosting w jobId jobData cb s H0 session E).
Qed.

Lemma startJobPosting_v1_cache_is_coarse_witness :
  let r := V1.startJobPosting (upload_hangs 29) "job-1" (leaking_tap (Some one_photo))
             never_throws empty_state in
  r.1 = Pending /\
  last (map js_status (updates r.2)) = Some uploading_photos /\
  V1.getJobStatus "job-1" r.2 = Some (mkStatus "job-1" filling_form "Starting...").
Proof.
  cbv zeta.
  pose proof (startJobPosting_v1_cache_is_coarse (upload_hangs 29) "job-1"
                (leaking_tap (Some one_photo)) never_throws empty_state eq_refl) as H.
  split; [vm_compute; reflexivity |]. split; [vm_compute; reflexivity |].
  destruct (V1.getJobStatus "job-1" _) as [st |] eqn:E; [| discriminate E].
  destruct H as [-> | ->]; [reflexivity | discriminate E].
Defined.

(** ** The server *)

(** *** DELETE /api/jobs/:jobId *)

Lemma meanwhile_next {E : Server.Elsewhere} n m :
  Server.meanwhile n (S n) m = Server.elsewhere n (S n) m.
Proof.
  unfold Server.meanwhile. by destruct (Nat.eqb_spec n (S n)) as [H |]; [lia |].
Qed.

Lemma meanwhile_same {E : Server.Elsewhere} n m : Server.meanwhile n n m = m.
Proof. unfold Server.meanwhile. by rewrite Nat.eqb_refl. Qed.


(** X15. The DELETE handler over the first listing, whatever the other
    calls and requests do while it is suspended. When no session is stored
    for the job it answers 200 "Job cancelled" at once, having removed the
    status the server held for the job and nothing else. When one is
    stored it makes one call, [close] on the browser of that session, and
    it has not answered exactly while that call is unsettled; then it has
    removed nothing from what the others left. When [close] has settled,
    resolved or rejected, it answers 200 "Job cancelled", and has removed
    the entries of the job from the session map and from the status map
    as the others left them. So it never answers 500, and in the state in
    which it answers the server holds no status and no session for the
    job. *)
Theorem deleteJob_v1_forgets_job (w : World)
    (others : nat -> gmap string V1.SessionData -> gmap string V1.SessionData)
    (E : Server.Elsewhere) (jobId : string) (sv : Server.ServerState V1.SessionData) :
  let r := server_v1_deleteJob (R := among others) (E := E) w jobId sv in
  let a := Server.automation sv in
  let n := length (trace a) in
  let cancelled := {| Server.code := 200; Server.body := Server.Cancelled |} in
  match activeSessions a !! jobId with
  | None =>
      r = (Some cancelled,
           {| Server.jobStatuses := delete jobId (Server.jobStatuses sv);
              Server.automation := a |})
  | Some session =>
      new_calls a (Server.automation r.2) = [Close (V1.browser session)] /\
      match w_unit w n with
      | Pending =>
          r.1 = None /\
          activeSessions (Server.automation r.2) = others (S n) (activeSessions a) /\
          Server.jobStatuses r.2 = Server.elsewhere n (S n) (Server.jobStatuses sv)
      | _ =>
          r.1 = Some cancelled /\
          activeSessions (Server.automation r.2)
            = delete jobId (others (S n) (activeSessions a)) /\
          Server.jobStatuses r.2
            = delete jobId (Server.elsewhere n (S n) (Server.jobStatuses sv))
      end
  end /\
  (forall rsp, r.1 = Some rsp ->
     rsp = cancelled /\
     Server.jobStatuses r.2 !! jobId = None /\
     activeSessions (Server.automation r.2) !! jobId = None).
Proof.
  cbv zeta.
  remember (server_v1_deleteJob (R := among others) (E := E) w jobId sv) as r eqn:Er.
  unfold server_v1_deleteJob, Server.deleteJob, V1.cancelSession, bind, sessions_get in Er.
  cbn [fst snd] in Er.
  destruct (activeSessions (Server.automation sv) !! jobId) as [session |] eqn:Hs.
  - unfold swallow, close, call, sessions_delete in Er. cbn [fst snd] in Er.
    destruct (w_unit w (length (trace (Server.automation sv)))) as [[] | e |];
      unfold among in Er; cbn in Er;
      rewrite ?length_app, ?Nat.add_1_r, ?meanwhile_next in Er; subst r; cbn;
      (split; [split; [by apply new_calls_app | done] |]);
      try (intros rsp [= <-]; split; [done |]; split; apply lookup_delete_eq).
    by intros rsp [=].
  - cbn in Er. rewrite meanwhile_same in Er. subst r. split; [done |].
    intros rsp [= <-]. cbn. split; [done |]. split; [apply lookup_delete_eq | done].
Qed.

(** X16. The DELETE handler over the second listing, whatever the other
    calls and requests do while it is suspended. When no session is stored
    for the job it answers 200 at once, having removed the status held for
    the job and nothing else. When one is stored it makes one call,
    [close] on the browser of that session. It answers 200 when [close]
    resolves, and has then removed the entries of the job from the
    session map and the status map as the others left them. It answers
    500, with the message of the error, exactly when a session is stored
    and [close] is rejected, and it has then removed nothing: both maps
    are as the others left them, so that the session is still stored when
    they have left it alone. It has not answered while [close] is
    unsettled. *)
Theorem deleteJob_v2_failure_keeps_job (w : World)
    (others : nat -> gmap string V2.SessionData -> gmap string V2.SessionData)
    (E : Server.Elsewhere) (jobId : string) (sv : Server.ServerState V2.SessionData) :
  let r := server_v2_deleteJob (R := among others) (E := E) w jobId sv in
  let a := Server.automation sv in
  let n := length (trace a) in
  let cancelled := {| Server.code := 200; Server.body := Server.Cancelled |} in
  match activeSessions a !! jobId with
  | None =>
      r = (Some cancelled,
           {| Server.jobStatuses := delete jobId (Server.jobStatuses sv);
              Server.automation := a |})
  | Some session =>
      new_calls a (Server.automation r.2) = [Close (V2.browser session)] /\
      match w_unit w n with
      | Return _ =>
          r.1 = Some cancelled /\
          activeSessions (Server.automation r.2)
            = delete jobId (others (S n) (activeSessions a)) /\
          Server.jobStatuses r.2
            = delete jobId (Server.elsewhere n (S n) (Server.jobStatuses sv))
      | Throw e =>
          r.1 = Some {| Server.code := 500;
                        Server.body := Server.Failure "Failed to cancel job" (errorText e) |} /\
          activeSessions (Server.automation r.2) = others (S n) (activeSessions a) /\
          Server.jobStatuses r.2 = Server.elsewhere n (S n) (Server.jobStatuses sv)
      | Pending =>
          r.1 = None /\
          activeSessions (Server.automation r.2) = others (S n) (activeSessions a) /\
          Server.jobStatuses r.2 = Server.elsewhere n (S n) (Server.jobStatuses sv)
      end
  end /\
  (forall rsp, r.1 = Some rsp ->
     (Server.code rsp = 500 <->
      exists session e, activeSessions a !! jobId = Some session /\ w_unit w n = Throw e) /\
     (Server.code rsp = 500 -> spares jobId others ->
      activeSessions (Server.automation r.2) !! jobId = activeSessions a !! jobId)).
Proof.
  cbv zeta.
  remember (server_v2_deleteJob (R := among others) (E := E) w jobId sv) as r eqn:Er.
  unfold server_v2_deleteJob, Server.deleteJob, V2.cancelSession, bind, sessions_get in Er.
  cbn [fst snd] in Er.
  destruct (activeSessions (Server.automation sv) !! jobId) as [session |] eqn:Hs.
  - unfold close, call, sessions_delete in Er. cbn [fst snd] in Er.
    destruct (w_unit w (length (trace (Server.automation sv)))) as [[] | e |];
      unfold among in Er; cbn in Er;
      rewrite ?length_app, ?Nat.add_1_r, ?meanwhile_next in Er; subst r; cbn;
      (split; [split; [by apply new_calls_app | done] |]).
    + intros rsp [= <-]. cbn. split; [| done].
      split; [done |]. by intros (? & ? & _ & ?).
    + intros rsp [= <-]. cbn. split; [split; [by eauto | done] |].
      intros _ Hsp. by rewrite Hsp.
    + by intros rsp [=].
  - cbn in Er. rewrite meanwhile_same in Er. subst r. split; [done |].
    intros rsp [= <-]. cbn. split; [| done].
    split; [done |]. by intros (? & ? & ? & _).
Qed.

Lemma deleteJob_v2_failure_keeps_job_witness :
  let others := cancelled_during "job-2" 1 in
  let r := server_v2_deleteJob (R := among others) (E := Server.nowhere) browser_gone "job-1"
             waiting_server_v2 in
  exists rsp,
    r.1 = Some rsp /\ Server.code rsp = 500 /\
    is_Some (activeSessions (Server.automation r.2) !! "job-1") /\
    server_v2_getJob "job-1" r.2 = server_v2_getJob "job-1" waiting_server_v2.
Proof.
  cbv zeta.
  destruct (deleteJob_v2_failure_keeps_job browser_gone (cancelled_during "job-2" 1)
              Server.nowhere "job-1" waiting_server_v2) as [_ H].
  eexists. split; [reflexivity |].
  destruct (H _ eq_refl) as [_ Hk]. split; [reflexivity |].
  split; [| reflexivity].
  rewrite (Hk eq_refl); [by eexists |]. by apply cancelled_during_spares.
Defined.

(** *** POST /api/jobs/:jobId/otp *)

Lemma wp_calm {Session A} jobId others (m : M Session A)
    (Q : Outcome A -> State Session -> Prop) s :
  calm jobId others m -> (forall o s', calm_step jobId others s s' -> Q o s') -> wp m Q s.
Proof. intros Hq HQ. apply HQ, Hq. Qed.

(** One step of a run among other calls; the three ways it can end are
    left as goals. *)
Ltac wp_calm_step j o Hq :=
  apply wp_bind, (wp_calm j o); [ solve [ calm_walk ] | ];
  let out := fresh "o" in let s' := fresh "s" in
  intros out s' Hq.

(** [submitOtp] of the first listing with a session, whatever the other
    calls do meanwhile: it never throws, and when it returns the job has
    no session. *)
Lemma submitOtp_v1_among (w : World) others (jobId otp : string)
    (s : State V1.SessionData) (session : V1.SessionData) :
  activeSessions s !! jobId = Some session ->
  let r := V1.submitOtp (R := among others) w jobId otp s in
  (forall e, r.1 <> Throw e) /\
  forall st, r.1 = Return st ->
    (js_status st = completed \/ js_status st = failed) /\
    js_jobId st = jobId /\
    activeSessions r.2 !! jobId = None /\
    Close (V1.browser session) ∈ new_calls s r.2 /\
    updates r.2 = updates s.
Proof.
  intros Hs.
  set (Q := fun (o : Outcome HiPagesJobStatus) (s' : State V1.SessionData) =>
    (forall e, o <> Throw e) /\
    forall st, o = Return st ->
      (js_status st = completed \/ js_status st = failed) /\
      js_jobId st = jobId /\
      activeSessions s' !! jobId = None /\
      Close (V1.browser session) ∈ new_calls s s' /\
      updates s' = updates s).
  change (wp (V1.submitOtp (R := among others) w jobId otp) Q s).
  assert (HP : forall s', Q Pending s') by (by split).
  unfold V1.submitOtp. apply wp_bind. unfold wp at 1, sessions_get. simpl. rewrite Hs.
  assert (Hh : forall e s', calm_step jobId others s s' ->
    wp (bind (swallow (close (R := among others) w (V1.browser session)))
          (fun _ => bind (sessions_delete jobId)
             (fun _ => ret {| js_jobId := jobId; js_status := failed;
                              js_message := "Failed to verify OTP";
                              js_hipagesJobId := None; js_hipagesJobUrl := None;
                              js_error := Some (errorText e) |}))) Q s').
  { intros e s' [Ha Hu Ht]. unfold wp, bind, swallow, close, call, sessions_delete, ret.
    cbn [fst snd].
    destruct (w_unit w (length (trace s'))) as [[] | e' |]; cbn [fst snd]; [| | done];
      (split; [done |]; intros st [= <-]);
      (repeat split; [by right | apply lookup_delete_eq | by apply new_calls_last | done]). }
  apply wp_try_catch.
  wp_calm_step jobId others H1. destruct o as [a | e |]; [| by apply Hh | done].
  wp_calm_step jobId others H2. pose proof (calm_step_trans _ _ _ _ _ H1 H2) as H2'.
  destruct o as [[] | e |]; [| by apply Hh | done].
  wp_calm_step jobId others H3. pose proof (calm_step_trans _ _ _ _ _ H2' H3) as H3'.
  destruct o as [a3 | e |]; [| by apply Hh | done].
  wp_calm_step jobId others H4. pose proof (calm_step_trans _ _ _ _ _ H3' H4) as H4'.
  destruct o as [[] | e |]; [| by apply Hh | done].
  wp_calm_step jobId others H5. pose proof (calm_step_trans _ _ _ _ _ H4' H5) as H5'.
  destruct o as [[] | e |]; [| by apply Hh | done].
  wp_calm_step jobId others H6. pose proof (calm_step_trans _ _ _ _ _ H5' H6) as H6'.
  destruct o as [currentUrl | e |]; [| by apply Hh | done].
  wp_calm_step jobId others H7. pose proof (calm_step_trans _ _ _ _ _ H6' H7) as H7'.
  destruct o as [pageContent | e |]; [| by apply Hh | done].
  apply wp_bind. unfold wp at 1, close, call. cbn [fst snd].
  match goal with
  | |- context [add_call (Close (V1.browser session)) ?x] =>
      assert (calm_step jobId others x
                (@resume _ (among others) (add_call (Close (V1.browser session)) x))) as H8
        by apply calm_step_resume;
      pose proof (calm_step_trans _ _ _ _ _ H7' H8) as H8';
      destruct (w_unit w (length (trace x))) as [[] | e |]; cbn [fst snd]
  end; [| by apply Hh | done].
  destruct H7' as [_ Hu Ht].
  unfold wp, bind, sessions_delete, ret. cbn [fst snd].
  split; [done |]. intros st [= <-].
  repeat split; [by left | apply lookup_delete_eq | by apply new_calls_last | done].
Qed.

(** [submitOtp] of the first listing without a session. *)
Lemma submitOtp_v1_no_session w {R : Resumption V1.SessionData} jobId otp
    (s : State V1.SessionData) :
  activeSessions s !! jobId = None ->
  exists st, V1.submitOtp w jobId otp s = (Return st, s) /\ js_status st = failed.
Proof.
  intros Hs. unfold V1.submitOtp, bind, sessions_get. simpl. rewrite Hs. by eexists.
Qed.

(** X17. The OTP handler over the first listing, whatever the other calls
    and requests do while it is suspended. It never answers 500, and an
    answer other than 200 leaves the server as it was. It answers 200 only
    to a request that carries a code, for a job whose current status was
    [awaiting_otp] when the request came in. The answer 200 carries the
    final status, [completed] or [failed]; in the state in which it is
    sent that status is the one the server holds for the job, and no
    session is stored for the job. *)
Theorem postOtp_v1_answers (w : World)
    (others : nat -> gmap string V1.SessionData -> gmap string V1.SessionData)
    (E : Server.Elsewhere) (jobId : string) (otp : option string)
    (sv : Server.ServerState V1.SessionData) (rsp : Server.Response) :
  let r := server_v1_postOtp (R := among others) (E := E) w jobId otp sv in
  r.1 = Some rsp ->
  Server.code rsp <> 500 /\
  (Server.code rsp <> 200 -> r.2 = sv) /\
  (Server.code rsp = 200 ->
     (exists code current, otp = Some code /\ truthy code = true /\
        Server.currentStatus V1.getJobStatus jobId sv = Some current /\
        js_status current = awaiting_otp) /\
     exists st, Server.body rsp = Server.StatusBody st /\
       (js_status st = completed \/ js_status st = failed) /\
       Server.jobStatuses r.2 !! jobId = Some st /\
       activeSessions (Server.automation r.2) !! jobId = None).
Proof.
  cbv zeta.
  remember (server_v1_postOtp (R := among others) (E := E) w jobId otp sv) as r eqn:Er.
  unfold server_v1_postOtp, Server.postOtp in Er.
  destruct otp as [otp |]; [| subst r; by intros [= <-]].
  destruct (truthy otp) eqn:Hotp; [| subst r; by intros [= <-]].
  destruct (Server.currentStatus V1.getJobStatus jobId sv) as [current |] eqn:Hcur;
    [| subst r; by intros [= <-]].
  case_bool_decide as Hgate; [| subst r; by intros [= <-]].
  cbv zeta in Er.
  destruct (activeSessions (Server.automation sv) !! jobId) as [session |] eqn:Hs.
  - destruct (submitOtp_v1_among w others jobId otp (Server.automation sv) session Hs)
      as [Hnt H].
    destruct (V1.submitOtp (R := among others) w jobId otp (Server.automation sv))
      as [[st | e |] a]; cbn [fst snd] in Hnt, H, Er; subst r;
      [| by destruct (Hnt e) | done].
    intros [= <-]. cbn. split; [done |]. split; [done |]. intros _.
    destruct (H st eq_refl) as (Hst & _ & Hd & _).
    split; [by eauto 6 |].
    exists st. split; [done |]. split; [done |]. split; [by rewrite lookup_insert_eq | done].
  - destruct (submitOtp_v1_no_session w (R := among others) jobId otp (Server.automation sv) Hs)
      as (st & Est & Hst).
    rewrite Est in Er. cbn [fst snd] in Er. subst r.
    intros [= <-]. cbn. split; [done |]. split; [done |]. intros _.
    split; [by eauto 6 |].
    exists st. split; [done |]. split; [by right |].
    split; [by rewrite lookup_insert_eq | done].
Qed.

Lemma postOtp_v1_answers_witness :
  let r := server_v1_postOtp (R := among (cancelled_during "job-2" 3))
             (E := fun _ _ m => delete "job-2" m) confirmation_page "job-1" (Some "123456")
             waiting_server_v1 in
  exists rsp st,
    r.1 = Some rsp /\
    Server.body rsp = Server.StatusBody st /\
    Server.jobStatuses r.2 !! "job-1" = Some st /\
    activeSessions (Server.automation r.2) !! "job-1" = None.
Proof.
  cbv zeta. eexists.
  destruct (postOtp_v1_answers confirmation_page (cancelled_during "job-2" 3)
              (fun _ _ m => delete "job-2" m) "job-1" (Some "123456")
              waiting_server_v1 _ eq_refl) as (_ & _ & H).
  destruct (H eq_refl) as (_ & st & Hb & _ & Hj & Hn).
  exists st. split; [reflexivity |]. split; [exact Hb |]. split; [exact Hj | exact Hn].
Defined.




(** *** POST /api/jobs *)

(** A [try] whose handler reports [failed], once it has returned, has
    handed the callback its whole plan or ended on [failed]. *)
Lemma emits_try_assign_returned {Session A B} (P R Q : gmap string Session -> Prop)
    (m1 : M Session A) (m2 : A -> M Session B) h p1 p2 plan s b :
  emits P m1 p1 R -> (forall a, emits R (m2 a) p2 Q) ->
  (forall x e, emits (fun _ => True) (h x e) [failed] (fun _ => True)) ->
  p1 ++ p2 = plan ->
  P (activeSessions s) ->
  (try_assign m1 m2 h s).1 = Return b ->
  let l := map js_status (new_updates s (try_assign m1 m2 h s).2) in
  l = plan \/ exists pre, l = pre ++ [failed].
Proof.
  intros E1 E2 Eh <- HP. unfold try_assign, try_catch, new_updates.
  destruct (E1 s HP) as (new1 & U1 & G1).
  destruct (m1 s) as [[a | e |] s1]; simpl in *; [| | done].
  - destruct G1 as [G1 HR]. destruct (E2 a s1 HR) as (new2 & U2 & G2).
    destruct (m2 a s1) as [[b' | e |] s2]; simpl in *; [| | done].
    + intros _. left. destruct G2 as [G2 _].
      by rewrite U2, U1, <- app_assoc, drop_app_length, map_app, G1, G2.
    + destruct (Eh (Some a) e s2 I) as (newh & Uh & Gh).
      destruct (h (Some a) e s2) as [[b' | e' |] s3]; simpl in *; [| done | done].
      intros _. right. destruct Gh as [Gh _]. exists (map js_status (new1 ++ new2)).
      by rewrite Uh, U2, U1, <- !app_assoc, drop_app_length, app_assoc, map_app, Gh.
  - destruct (Eh None e s1 I) as (newh & Uh & Gh).
    destruct (h None e s1) as [[b' | e' |] s3]; simpl in *; [| done | done].
    intros _. right. destruct Gh as [Gh _]. exists (map js_status new1).
    by rewrite Uh, U1, <- !app_assoc, drop_app_length, map_app, Gh.
Qed.

Lemma last_status_of_map (l : list HiPagesJobStatus) (p : list StatusName) :
  (map js_status l = p ++ [awaiting_otp] \/ exists pre, map js_status l = pre ++ [failed]) ->
  exists u, last l = Some u /\ (js_status u = awaiting_otp \/ js_status u = failed).
Proof.
  intros [H | [pre H]]; apply last_of_map in H as (u & Hl & Hu); eauto.
Qed.

(** Once [startJobPosting] has returned, the last status it handed to
    the callback is [awaiting_otp] or [failed]. *)
Lemma startJobPosting_v1_returned w others jobId jobData cb (s : State V1.SessionData) :
  let r := V1.startJobPosting (R := among others) w jobId jobData cb s in
  r.1 = Return tt ->
  exists u, last (new_updates s r.2) = Some u /\
    (js_status u = awaiting_otp \/ js_status u = failed).
Proof.
  cbv zeta. intros Hr.
  apply (last_status_of_map _
    ([pending; filling_form; filling_form; filling_form; filling_form;
      filling_form; filling_form]
     ++ (if bool_decide (is_Some (V1.wantsPhotos jobData))
         then [uploading_photos] else []) ++ [filling_form])).
  revert Hr. unfold V1.startJobPosting.
  destruct (V1.wantsPhotos jobData) as [p |]; intros Hr;
    (eapply (emits_try_assign_returned (fun _ => True) (fun _ => True) (fun _ => True));
     [ emits_walk jobId others | emits_walk jobId others
     | intros [x |] e; emits_fixed jobId others | reflexivity | exact I | exact Hr ]).
Qed.

Lemma startJobPosting_v2_returned w others jobId jobData cb (s : State V2.SessionData) :
  spares jobId others ->
  let r := V2.startJobPosting (R := among others) w jobId jobData cb s in
  r.1 = Return tt ->
  exists u, last (new_updates s r.2) = Some u /\
    (js_status u = awaiting_otp \/ js_status u = failed).
Proof.
  cbv zeta. intros Hsp Hr.
  apply (last_status_of_map _
    ([pending; filling_form; filling_form; filling_form; filling_form; filling_form]
     ++ (if bool_decide (is_Some (V2.wantsPhotos jobData))
         then [uploading_photos; uploading_photos] else [filling_form]))).
  revert Hr. unfold V2.startJobPosting. cbv zeta.
  destruct (V2.wantsPhotos jobData) as [p |]; intros Hr;
    (eapply (emits_try_assign_returned (fun _ => True) (fun _ => True));
     [ emits_walk_v2 jobId others | emits_walk_v2 jobId others
     | intros [x |] e; emits_fixed jobId others | reflexivity | exact I | exact Hr ]).
Qed.

Section PostJob.

Context {Session : Type}.
Variable started : string -> HiPagesJobRequest -> Callback -> M Session unit.

(** A request that leaves a required field empty is answered 400 and
    starts nothing. *)
Lemma postJob_incomplete jobId jobData (sv : Server.ServerState Session) :
  complete jobData = false ->
  let r := Server.postJob started jobId jobData sv in
  Server.code r.1 = 400 /\ r.2 = sv.
Proof.
  unfold complete, Server.postJob.
  destruct (truthy (categoryName jobData)); [| done].
  destruct (truthy (postcode jobData)); [| done].
  destruct (truthy (description jobData)); [| done].
  destruct (truthy (c_name (contact jobData))); [| done].
  destruct (truthy (c_email (contact jobData))); [| done].
  by destruct (truthy (c_phone (contact jobData))).
Qed.

(** A complete request is answered 202 with the queued status, in the
    state the run has reached when it first awaits. *)
Lemma postJob_complete jobId jobData (sv : Server.ServerState Session) :
  complete jobData = true ->
  let first := started jobId jobData (fun _ => None) (Server.automation sv) in
  Server.postJob started jobId jobData sv
  = ({| Server.code := 202;
        Server.body := Server.StatusBody (mkStatus jobId pending "Job queued for processing") |},
     {| Server.jobStatuses :=
          Server.record_updates jobId (new_updates (Server.automation sv) first.2)
            (<[jobId := mkStatus jobId pending "Job queued for processing"]>
               (Server.jobStatuses sv));
        Server.automation := first.2 |}).
Proof.
  unfold complete, Server.postJob.
  destruct (truthy (categoryName jobData)); [| done].
  destruct (truthy (postcode jobData)); [| done].
  destruct (truthy (description jobData)); [| done].
  destruct (truthy (c_name (contact jobData))); [| done].
  destruct (truthy (c_email (contact jobData))); [| done].
  by destruct (truthy (c_phone (contact jobData))).
Qed.

End PostJob.

(** X19. POST /api/jobs over the first listing. A request that leaves a
    required field empty is answered 400 and starts nothing. A complete
    one is answered 202 with the status "Job queued for processing"; when
    the answer is sent the run has handed over its first status, so that
    the server holds [pending], "Launching browser..." for the job, the
    statuses of the other jobs and the session map are as before, and the
    one call made is the launch of the browser. The run goes on among the
    other calls, whatever they do to the session map: it never rejects,
    so the statuses stored for the job are the ones the run hands over;
    once it has returned the last of them is [awaiting_otp] or [failed];
    after [failed] no session is stored for the job; after [awaiting_otp]
    the session is stored and caches [awaiting_otp], when the other calls
    have left it alone. *)
Theorem postJob_v1_outcome (w : World)
    (others : nat -> gmap string V1.SessionData -> gmap string V1.SessionData)
    (jobId : string) (jobData : HiPagesJobRequest) (sv : Server.ServerState V1.SessionData) :
  let r := server_v1_postJob w jobId jobData sv in
  let a := Server.automation sv in
  let run := V1.startJobPosting (R := among others) w jobId jobData (fun _ => None) a in
  let stored := server_v1_jobRun (R := among others) w jobId jobData a in
  if complete jobData then
    r.1 = {| Server.code := 202;
             Server.body :=
               Server.StatusBody (mkStatus jobId pending "Job queued for processing") |} /\
    Server.jobStatuses r.2 !! jobId = Some (mkStatus jobId pending "Launching browser...") /\
    (forall j, j <> jobId -> Server.jobStatuses r.2 !! j = Server.jobStatuses sv !! j) /\
    activeSessions (Server.automation r.2) = activeSessions a /\
    new_calls a (Server.automation r.2) = [Launch] /\
    (forall e, run.1 <> Throw e) /\
    stored = (new_updates a run.2, run.2) /\
    (run.1 = Return tt ->
       exists u, last stored.1 = Some u /\
         (js_status u = awaiting_otp \/ js_status u = failed)) /\
    (forall u, last stored.1 = Some u ->
       (js_status u = failed -> activeSessions stored.2 !! jobId = None) /\
       (js_status u = awaiting_otp -> spares jobId others ->
          exists session,
            activeSessions stored.2 !! jobId = Some session /\
            V1.status session = mkStatus jobId awaiting_otp "Waiting for OTP verification"))
  else Server.code r.1 = 400 /\ r.2 = sv.
Proof.
  cbv zeta. destruct (complete jobData) eqn:Hc;
    [| exact (postJob_incomplete _ jobId jobData sv Hc)].
  unfold server_v1_postJob. rewrite (postJob_complete _ jobId jobData sv Hc). cbv zeta.
  assert (V1.startJobPosting (R := alone) (silent w) jobId jobData (fun _ => None)
            (Server.automation sv)
          = (Pending,
             add_call Launch
               (add_update (mkStatus jobId pending "Launching browser...")
                  (Server.automation sv)))) as ->.
  { reflexivity. }
  cbn [fst snd Server.jobStatuses Server.automation].
  destruct (startJobPosting_v1_stops w jobId jobData (fun _ => None) others
              (Server.automation sv) (fun _ => eq_refl)) as [Hnt Hend].
  assert (server_v1_jobRun (R := among others) w jobId jobData (Server.automation sv)
          = (new_updates (Server.automation sv)
               (V1.startJobPosting (R := among others) w jobId jobData (fun _ => None)
                  (Server.automation sv)).2,
             (V1.startJobPosting (R := among others) w jobId jobData (fun _ => None)
                (Server.automation sv)).2)) as Hrun.
  { unfold server_v1_jobRun, Server.jobRun. cbv zeta.
    destruct (V1.startJobPosting (R := among others) w jobId jobData (fun _ => None)
                (Server.automation sv)).1 as [[] | e |] eqn:E;
      [by rewrite app_nil_r | by destruct (Hnt e) | by rewrite app_nil_r]. }
  rewrite Hrun. cbn [fst snd].
  split; [done |].
  split.
  { unfold new_updates. cbn. rewrite drop_app_length. cbn. by rewrite lookup_insert_eq. }
  split.
  { intros j Hj. unfold new_updates. cbn. rewrite drop_app_length. cbn.
    by rewrite !lookup_insert_ne. }
  split; [done |].
  split; [by apply new_calls_app |].
  split; [exact Hnt |]. split; [done |].
  split; [exact (startJobPosting_v1_returned w others jobId jobData _ _) |].
  intros u Hu. destruct (Hend u Hu) as [Hf Ha]. split.
  - intros H. by destruct (Hf H).
  - intros H Hsp. destruct (Ha H Hsp) as (session & ? & ? & _). by exists session.
Qed.

(** X20. POST /api/jobs over the second listing. A complete request is
    answered 202 with the status "Job queued for processing"; when the
    answer is sent the server holds for the job the first status of the
    run, [pending], "Launching browser...", the statuses of the other jobs
    are as before, the session map is as before when it had no session
    for the job, and the one call made is the launch of the browser. The
    run goes on among the other calls; when these leave the session of
    the job alone, it ends in one of three ways. It returns after
    [awaiting_otp], with the session stored and caching that very status;
    it returns after [failed], with no session left; or it rejects: the
    status then stored for the job is [failed], "Job processing failed",
    which the run itself never handed over, and the launched browser has
    been asked to close. *)
Theorem postJob_v2_outcome (w : World)
    (others : nat -> gmap string V2.SessionData -> gmap string V2.SessionData)
    (jobId : string) (jobData : HiPagesJobRequest) (sv : Server.ServerState V2.SessionData) :
  let r := server_v2_postJob w jobId jobData sv in
  let a := Server.automation sv in
  let run := V2.startJobPosting (R := among others) w jobId jobData (fun _ => None) a in
  let stored := server_v2_jobRun (R := among others) w jobId jobData a in
  if complete jobData then
    r.1 = {| Server.code := 202;
             Server.body :=
               Server.StatusBody (mkStatus jobId pending "Job queued for processing") |} /\
    (exists u, Server.jobStatuses r.2 !! jobId = Some u /\
       js_status u = pending /\ js_message u = "Launching browser...") /\
    (forall j, j <> jobId -> Server.jobStatuses r.2 !! j = Server.jobStatuses sv !! j) /\
    (activeSessions a !! jobId = None ->
       activeSessions (Server.automation r.2) = activeSessions a) /\
    new_calls a (Server.automation r.2) = [Launch] /\
    stored.2 = run.2 /\
    (spares jobId others ->
     (run.1 = Return tt ->
        stored.1 = new_updates a run.2 /\
        exists u, last stored.1 = Some u /\
          ((js_status u = awaiting_otp /\
            exists session,
              activeSessions stored.2 !! jobId = Some session /\ V2.status session = u) \/
           (js_status u = failed /\ activeSessions stored.2 !! jobId = None))) /\
     (forall e, run.1 = Throw e ->
        exists st, last stored.1 = Some st /\
          js_status st = failed /\ js_message st = "Job processing failed" /\
          js_error st = Some (errorText e) /\
          Forall (fun u => js_status u <> failed) (new_updates a run.2) /\
          exists b, w_handle w (length (trace a)) = Return b /\
            Close b ∈ new_calls a run.2))
  else Server.code r.1 = 400 /\ r.2 = sv.
Proof.
  cbv zeta. destruct (complete jobData) eqn:Hc;
    [| exact (postJob_incomplete _ jobId jobData sv Hc)].
  unfold server_v2_postJob. rewrite (postJob_complete _ jobId jobData sv Hc). cbv zeta.
  cbn [fst snd Server.jobStatuses Server.automation].
  split; [done |].
  assert (exists u a',
    V2.startJobPosting (R := alone) (silent w) jobId jobData (fun _ => None)
      (Server.automation sv) = (Pending, a') /\
    updates a' = updates (Server.automation sv) ++ [u] /\
    trace a' = trace (Server.automation sv) ++ [Launch] /\
    js_status u = pending /\ js_message u = "Launching browser..." /\
    (activeSessions (Server.automation sv) !! jobId = None ->
     activeSessions a' = activeSessions (Server.automation sv)))
    as (u & a' & -> & Hu & Ht & Hst & Hmsg & Hsame).
  { unfold V2.startJobPosting, try_assign, V2.updateStatus, bind, sessions_get, sessions_set,
      notify, launch, call. cbn.
    destruct (activeSessions (Server.automation sv) !! jobId) as [session |]; cbn;
      do 2 eexists; (split; [reflexivity |]); cbn; by repeat split. }
  cbn [fst snd]. unfold new_updates at 1 2. rewrite Hu, drop_app_length. cbn.
  split; [exists u; by rewrite lookup_insert_eq |].
  split; [intros j Hj; by rewrite !lookup_insert_ne |].
  split; [exact Hsame |].
  split; [by apply new_calls_app |].
  split; [done |].
  intros Hsp.
  destruct (startJobPosting_v2_stops w jobId jobData (fun _ => None) others
              (Server.automation sv) (fun _ => eq_refl) Hsp) as [Hend Hth].
  unfold server_v2_jobRun, Server.jobRun. cbv zeta. cbn [fst snd].
  split.
  - intros Hrun. rewrite Hrun, app_nil_r. split; [done |].
    destruct (startJobPosting_v2_returned w others jobId jobData (fun _ => None)
                (Server.automation sv) Hsp Hrun) as (v & Hv & Hs).
    exists v. split; [done |]. destruct (Hend v Hv) as [Hf Ha].
    destruct Hs as [Hs | Hs].
    + left. split; [done |]. destruct (Ha Hs) as (session & ? & ? & _). by exists session.
    + right. split; [done |]. by destruct (Hf Hs).
  - intros e He. rewrite He. eexists. split; [apply last_snoc |].
    cbn. do 3 (split; [done |]). exact (Hth e He).
Qed.

Lemma postJob_v2_outcome_witness :
  let others := cancelled_during "job-2" 3 in
  let r := server_v2_postJob timeout_then_stuck "job-1" (leaking_tap None) idle_server in
  let stored := server_v2_jobRun (R := among others) timeout_then_stuck "job-1"
                  (leaking_tap None) empty_state in
  Server.code r.1 = 202 /\
  new_calls empty_state (Server.automation r.2) = [Launch] /\
  exists st,
    last stored.1 = Some st /\
    js_status st = failed /\ js_message st = "Job processing failed" /\
    is_Some (activeSessions stored.2 !! "job-1").
Proof.
  cbv zeta.
  destruct (postJob_v2_outcome timeout_then_stuck (cancelled_during "job-2" 3) "job-1"
              (leaking_tap None) idle_server) as (Hc & _ & _ & _ & Hl & _ & H).
  split; [by rewrite Hc |]. split; [exact Hl |].
  destruct H as [_ Ht]; [by apply cancelled_during_spares |].
  destruct (Ht (ErrorObj "Protocol error (Browser.close): Target closed"))
    as (st & H0 & H1 & H2 & _); [vm_compute; reflexivity |].
  exists st. split; [exact H0 |]. split; [exact H1 |]. split; [exact H2 |].
  vm_compute. by eexists.
Defined.

Lemma postJob_v1_outcome_witness :
  let others := cancelled_during "job-2" 3 in
  let r := server_v1_postJob bare_page "job-1" (leaking_tap None) idle_server in
  let stored := server_v1_jobRun (R := among others) bare_page "job-1" (leaking_tap None)
                  empty_state in
  Server.code r.1 = 202 /\
  Server.jobStatuses r.2 !! "job-1" = Some (mkStatus "job-1" pending "Launching browser...") /\
  exists u session,
    last stored.1 = Some u /\ js_status u = awaiting_otp /\
    activeSessions stored.2 !! "job-1" = Some session /\
    js_status (V1.status session) = awaiting_otp.
Proof.
  cbv zeta.
  destruct (postJob_v1_outcome bare_page (cancelled_during "job-2" 3) "job-1"
              (leaking_tap None) idle_server)
    as (Hc & Hj & _ & _ & _ & _ & _ & Hr & Hend).
  split; [by rewrite Hc |]. split; [exact Hj |].
  destruct Hr as (u & Hu & Hs); [vm_compute; reflexivity |].
  assert (js_status u = awaiting_otp) as Hw.
  { destruct Hs as [Hs | Hs]; [exact Hs |]. exfalso.
    destruct (Hend u Hu) as [Hf _]. specialize (Hf Hs). revert Hf. vm_compute. discriminate. }
  destruct (Hend u Hu) as [_ Ha].
  destruct (Ha Hw) as (session & Hget & Hst); [by apply cancelled_during_spares |].
  exists u, session. split; [exact Hu |]. split; [exact Hw |]. split; [exact Hget |].
  by rewrite Hst.
Defined.

(** ** The identifier of the posted job *)

Lemma span_spec (p : ascii -> bool) (l : list ascii) :
  l = (span p l).1 ++ (span p l).2 /\
  Forall (fun c => p c = true) (span p l).1 /\
  match (span p l).2 with
  | c :: _ => p c = false
  | [] => True
  end.
Proof.
  induction l as [| c r IH]; simpl; [done |].
  destruct (p c) eqn:Hc; simpl; [| done].
  destruct (span p r) as [a b]; simpl in *. destruct IH as (-> & Ha & Hb).
  split; [done |]. split; [by constructor | done].
Qed.

Lemma digits1_spec (l : list ascii) (d : string) :
  digits1 l = Some d ->
  numeric d /\
  exists rest, l = list_ascii_of_string d ++ rest /\
    match rest with
    | c :: _ => is_digit c = false
    | [] => True
    end.
Proof.
  unfold digits1. pose proof (span_spec is_digit l) as (Hl & Ha & Hb).
  destruct (span is_digit l) as [[| c a] b]; [done |].
  cbn [fst snd] in Hl, Ha, Hb. intros H.
  assert (d = string_of_list_ascii (c :: a)) as -> by (by injection H).
  unfold numeric. rewrite list_ascii_of_string_of_list_ascii.
  split; [by split |]. by exists b.
Qed.

Lemma search_spec here (l : list ascii) (g : string) :
  search here l = Some g -> exists pre l', l = pre ++ l' /\ here l' = Some g.
Proof.
  induction l as [| c r IH]; simpl.
  - destruct (here []) eqn:E; [| done]. intros [= <-]. by exists [], [].
  - destruct (here (c :: r)) eqn:E.
    + intros [= <-]. by exists [], (c :: r).
    + intros H. destruct (IH H) as (pre & l' & -> & Hl). by exists (c :: pre), l'.
Qed.

Lemma job_id_ci_spec (l r : list ascii) : job_id_ci l = Some r -> exists k, l = k ++ r.
Proof.
  unfold job_id_ci. destruct l as [| j [| o [| b r0]]]; try done.
  destruct (_ && _); [| done].
  destruct r0 as [| c r1]; [done |].
  destruct (bool_decide (c = "_"%char) || bool_decide (c = "-"%char)).
  - destruct r1 as [| i [| d r2]]; try done.
    destruct (_ && _); [| done]. intros [= <-]. by exists [j; o; b; c; i; d].
  - destruct r1 as [| d r2]; [done |].
    destruct (_ && _); [| done]. intros [= <-]. by exists [j; o; b; c; d].
Qed.

(** What a match found at the head of [l'], inside a text, gives. *)
Lemma taken_from_here (text id : string) (pre l' k r : list ascii) :
  list_ascii_of_string text = pre ++ l' -> l' = k ++ r -> digits1 r = Some id ->
  numeric id /\ taken_from id text.
Proof.
  intros Ht -> Hd. apply digits1_spec in Hd as (Hn & rest & -> & Hrest).
  split; [done |]. exists (pre ++ k), rest. by rewrite Ht, <- !app_assoc.
Qed.

Lemma url_v1_spec (text id : string) :
  match_group1 url_v1_here text = Some id -> numeric id /\ taken_from id text.
Proof.
  intros H. apply search_spec in H as (pre & l' & Ht & H). unfold url_v1_here in H.
  destruct (job_id_ci l') as [[| c r] |] eqn:Hj; try done.
  destruct (_ || _); [| done].
  apply job_id_ci_spec in Hj as [k ->].
  apply (taken_from_here text id pre (k ++ c :: r) (k ++ [c]) r); [done | | done].
  by rewrite <- app_assoc.
Qed.

Lemma content_v1_spec (text id : string) :
  match_group1 content_v1_here text = Some id -> numeric id /\ taken_from id text.
Proof.
  intros H. apply search_spec in H as (pre & l' & Ht & H). unfold content_v1_here in H.
  destruct (job_id_ci l') as [r |] eqn:Hj; [| done].
  apply job_id_ci_spec in Hj as [k ->].
  pose proof (span_spec (fun c => bool_decide (c = dquote) || is_space c
                                   || bool_decide (c = ":"%char)) r) as (Hr & _).
  destruct (span _ r) as [[| c a] b]; [done |]. simpl in Hr.
  apply (taken_from_here text id pre (k ++ r) (k ++ c :: a) b); [done | | done].
  by rewrite Hr, <- app_assoc.
Qed.

Lemma url_v2_spec (text id : string) :
  match_group1 url_v2_here text = Some id -> numeric id /\ taken_from id text.
Proof.
  intros H. apply search_spec in H as (pre & l' & Ht & H). unfold url_v2_here in H.
  destruct l' as [| j [| o [| b [| sl r]]]]; try done.
  destruct (_ && _); [| done].
  by apply (taken_from_here text id pre (j :: o :: b :: sl :: r) [j; o; b; sl] r).
Qed.

(** X21. The identifier [submitOtp] reports, in either listing, is a
    non-empty string of decimal digits that stands in the URL of the
    page or, in the first listing, in its content, with no digit after
    it there. *)
Theorem job_id_is_numeric (currentUrl pageContent id : string) :
  V1.jobIdMatch currentUrl pageContent = Some id \/
  match_group1 url_v2_here currentUrl = Some id ->
  numeric id /\ (taken_from id currentUrl \/ taken_from id pageContent).
Proof.
  unfold V1.jobIdMatch. intros [H | H].
  - destruct (match_group1 url_v1_here currentUrl) as [g |] eqn:Hu.
    + injection H as ->. apply url_v1_spec in Hu as [? ?]. by auto.
    + apply content_v1_spec in H as [? ?]. by auto.
  - apply url_v2_spec in H as [? ?]. by auto.
Qed.

Lemma job_id_is_numeric_witness :
  numeric "4711" /\
  (taken_from "4711" "https://hipages.com.au/confirm?job_id=4711&ref=app" \/
   taken_from "4711" "<html></html>").
Proof.
  apply (job_id_is_numeric "https://hipages.com.au/confirm?job_id=4711&ref=app"
           "<html></html>" "4711").
  left. vm_compute. reflexivity.
Defined.

(** ** The stages stay on their page *)

(** One step through a computation whose calls are to be [on_page];
    [known] is tried first. *)
Ltac on_page_step known :=
  first
    [ progress intros
    | assumption
    | known
    | lazymatch goal with
      | |- adds _ (V2.findAndClickButton _ _ _) =>
          apply adds_v2_findAndClickButton;
          [ reflexivity | reflexivity | exact (fun _ _ => I) ]
      end
    | apply adds_ret
    | apply adds_bind
    | apply adds_swallow
    | apply adds_for_each
    | apply adds_try_finally
    | apply Forall_cons_2
    | apply Forall_nil_2
    | apply adds_delay; exact I
    | apply adds_now; exact I
    | apply adds_writeFileSync; exact I
    | apply adds_unlinkSync; exact I
    | apply adds_call; (exact I || reflexivity)
    | match goal with
      | |- adds _ (match ?x with _ => _ end) => destruct x
      | |- adds _ (if ?x then _ else _) => destruct x
      end ].

Lemma adds_v2_questionLoop w page n : adds (on_page page) (V2.questionLoop w n page).
Proof.
  induction n as [| k IH].
  - apply adds_ret.
  - change (V2.questionLoop w (S k) page) with
      (bind (query w page "textarea") (fun textarea =>
         match textarea with
         | Some _ => ret tt
         | None =>
             bind (queryAll w page "input[type='radio']:not(:checked)") (fun radioButtons =>
               bind (match radioButtons with
                     | first :: _ => bind (click w first 1) (fun _ => delay 500)
                     | [] => ret tt
                     end) (fun _ =>
                 bind (V2.findAndClickButton w page ["next"; "continue"]) (fun clicked =>
                   if clicked then bind (delay 1000) (fun _ => V2.questionLoop w k page)
                   else ret tt)))
         end)).
    repeat on_page_step fail.
Qed.

Ltac on_page_walk :=
  repeat on_page_step
    ltac:(idtac; lazymatch goal with
          | |- adds _ (V2.questionLoop _ _ _) => apply adds_v2_questionLoop
          end).

(** X22. Every stage of the first listing stays on the page it is given:
    whatever the page answers, each call it makes is a query, a key
    press or a wait on that page, an action on an element handle, a
    timer, a clock reading or a temporary-file operation. No stage
    launches or closes a browser, opens a page, navigates, or reads the
    URL or the content. *)
Theorem stages_v1_stay_on_page (w : World) (page : Page) (jobData : HiPagesJobRequest)
    (photos : Photos) :
  adds (on_page page) (V1.fillCategory w page (categoryName jobData)) /\
  adds (on_page page) (V1.fillLocation w page (postcode jobData)) /\
  adds (on_page page) (V1.clickGetQuotes w page) /\
  adds (on_page page) (V1.answerFormQuestions w page jobData) /\
  adds (on_page page) (V1.fillDescription w page (description jobData)) /\
  adds (on_page page) (V1.uploadPhotos w page photos) /\
  adds (on_page page) (V1.fillContactDetails w page (contact jobData)).
Proof.
  unfold V1.fillCategory, V1.fillLocation, V1.clickGetQuotes, V1.answerFormQuestions,
    V1.fillDescription, V1.uploadPhotos, V1.fillContactDetails.
  repeat split; on_page_walk.
Qed.

(** X23. The same for the stages of the second listing, the question loop
    and [findAndClickButton] included. *)
Theorem stages_v2_stay_on_page (w : World) (page : Page) (jobData : HiPagesJobRequest)
    (photos : Photos) (texts : list string) :
  adds (on_page page) (V2.findAndClickButton w page texts) /\
  adds (on_page page) (V2.fillCategory w page (categoryName jobData)) /\
  adds (on_page page) (V2.fillLocation w page (postcode jobData)) /\
  adds (on_page page) (V2.clickGetQuotes w page) /\
  adds (on_page page) (V2.answerFormQuestions w page) /\
  adds (on_page page) (V2.fillDescription w page (description jobData)) /\
  adds (on_page page) (V2.uploadPhotos w page photos) /\
  adds (on_page page) (V2.fillContactDetails w page (contact jobData)).
Proof.
  unfold V2.fillCategory, V2.fillLocation, V2.clickGetQuotes, V2.answerFormQuestions,
    V2.fillDescription, V2.uploadPhotos, V2.fillContactDetails.
  repeat split; on_page_walk.
Qed.

